(** * Dispute SML model: a shallow embedding of [scripts/sml/dispute_sml_model.py]

    The development follows the source file class by class:
    [SmlTrainingData] (case record and feature vector), [DecisionStump]
    (threshold split), [SimpleGradientBoosting] (boosted ensemble) and
    [DisputeSmlModel] (model manager: train, predict, rationale, save, load).

    Numbers.  Python integers are [Z].  Features, residuals, scores and
    probabilities are idealised as real numbers ([R]): their rounding and
    overflow are not modelled.  Two things are kept as the machine has
    them.

    - NaN.  The mean of an empty array is NaN and the program goes on with
      it.  The class priors of a fit on a batch without rows are NaN in
      every entry ([NaNPriors]); every score and probability computed from
      them is NaN ([AllNaN]); the accuracy of a run with an empty test set
      is NaN ([None] in an [option R]).  In the search of a threshold split
      the means are taken over at least two rows and are never NaN.

    - The size of the test set, [int(len(X) * test_split)].  Truncation is
      not continuous, so the product is computed in binary64 as Python
      does ([Float64], on the specification of IEEE 754 arithmetic of the
      Standard Library).

    Exceptions.  A Python call that can raise returns a [result]; [Ok] is
    a normal return.  A run is not followed past its exception. *)

From Stdlib Require Import Reals Lra Lia ZArith QArith String Bool Arith.
From Stdlib Require Import List Permutation Sorted.
From Stdlib Require DecimalString.
From Stdlib Require Floats.SpecFloat.
Import ListNotations.

(** ** Results of fallible calls *)

Inductive failure : Type :=
| IndexError      (* an index outside an array *)
| ValueError      (* a reduction over an empty axis, an enum value out of range *)
| TypeError       (* arithmetic on [None] *)
| OverflowError   (* a float too large for [int], an integer too large for [float] *)
| NotANumber.     (* not an exception: the NaN of [mean], for its caller to handle *)

Inductive result (A : Type) : Type :=
| Ok (a : A)
| Fail (f : failure).

Arguments Ok {A} a.
Arguments Fail {A} f.

Definition bind {A B : Type} (c : result A) (k : A -> result B) : result B :=
  match c with
  | Ok a => k a
  | Fail f => Fail f
  end.

Declare Scope result_scope.
Delimit Scope result_scope with result.
Notation "x <- c ;; k" := (bind c (fun x => k))
  (at level 61, c at next level, right associativity) : result_scope.
Notation "' p <- c ;; k" := (bind c (fun x => let p := x in k))
  (at level 61, p pattern, c at next level, right associativity) : result_scope.
Local Open Scope result_scope.

(** [raises r]: the call ended with a Python exception. *)
Definition raises {A : Type} (r : result A) : Prop :=
  r = Fail IndexError \/ r = Fail ValueError \/ r = Fail TypeError \/
  r = Fail OverflowError.

Fixpoint mapM {A B : Type} (f : A -> result B) (l : list A) : result (list B) :=
  match l with
  | [] => Ok []
  | a :: l' => b <- f a ;; bs <- mapM f l' ;; Ok (b :: bs)
  end.

(** ** Arrays of reals *)

Module Np.

Local Open Scope R_scope.

Definition Rleb (x y : R) : bool := if Rle_dec x y then true else false.
Definition Rltb (x y : R) : bool := if Rlt_dec x y then true else false.

Definition sum (a : list R) : R := fold_right Rplus 0 a.

(** [a.mean()]: NaN on an empty array, reported to the caller. *)
Definition mean (a : list R) : result R :=
  match a with
  | [] => Fail NotANumber
  | _ :: _ => Ok (sum a / INR (length a))
  end.

(** A two-dimensional array as numpy holds it: the second component of
    its shape and the list of its rows.  A record stands for an array when
    every row has [n_cols] entries ([wf]). *)
Record ndarray : Type := mk_ndarray { n_cols : nat; rows : list (list R) }.

Definition n_rows (X : ndarray) : nat := length (rows X).

Definition wf (X : ndarray) : Prop :=
  Forall (fun row => length row = n_cols X) (rows X).

(** [x[:, j]] on the rows of an array whose rows have [d] entries. *)
Definition column_of (d j : nat) (x : list (list R)) : result (list R) :=
  if j <? d then mapM (fun row => match nth_error row j with
                                  | Some v => Ok v
                                  | None => Fail IndexError
                                  end) x
  else Fail IndexError.

Definition column (j : nat) (X : ndarray) : result (list R) :=
  column_of (n_cols X) j (rows X).

(** [np.unique]: the distinct values, in ascending order. *)
Fixpoint insert_unique (v : R) (l : list R) : list R :=
  match l with
  | [] => [v]
  | w :: l' =>
      if Rltb v w then v :: l
      else if Rltb w v then w :: insert_unique v l'
      else l
  end.

Definition unique (a : list R) : list R := fold_right insert_unique [] a.

(** [mask.sum()] *)
Definition count (mask : list bool) : nat := length (filter (fun b => b) mask).

(** [a[mask]] with a boolean mask: the lengths must agree. *)
Fixpoint select (mask : list bool) (a : list R) : result (list R) :=
  match mask, a with
  | [], [] => Ok []
  | b :: mask', v :: a' =>
      r <- select mask' a' ;; Ok (if b then v :: r else r)
  | _, _ => Fail IndexError
  end.

(** [np.where(mask, l, r)] with two scalars. *)
Definition where_ (mask : list bool) (l r : R) : list R :=
  map (fun b : bool => if b then l else r) mask.

(** [a - b] on arrays of one length. *)
Definition sub (a b : list R) : list R :=
  map (fun p => fst p - snd p) (combine a b).

(** [int(x)]: truncation toward zero. *)
Definition py_int (x : R) : Z :=
  if Rle_dec 0 x then Int_part x else (- Int_part (- x))%Z.

(** [round(x)]: to the nearest integer, a tie to the even one. *)
Definition py_round (x : R) : Z :=
  let f := Int_part x in
  let d := x - IZR f in
  if Rltb d (1 / 2) then f
  else if Rltb (1 / 2) d then (f + 1)%Z
  else if Z.even f then f else (f + 1)%Z.

(** [round(x, nd)] *)
Definition py_round_to (nd : nat) (x : R) : R :=
  IZR (py_round (x * 10 ^ nd)) / 10 ^ nd.

(** [a[:k]] and [a[k:]] on a list, [k] possibly negative. *)
Definition slice_to {A : Type} (k : Z) (a : list A) : list A :=
  if (0 <=? k)%Z then firstn (Z.to_nat k) a
  else firstn (length a - Z.to_nat (- k)) a.

Definition slice_from {A : Type} (k : Z) (a : list A) : list A :=
  if (0 <=? k)%Z then skipn (Z.to_nat k) a
  else skipn (length a - Z.to_nat (- k)) a.

(** [a[idx]] with an array of indices. *)
Definition take {A : Type} (idx : list nat) (a : list A) : result (list A) :=
  mapM (fun i => match nth_error a i with
                 | Some v => Ok v
                 | None => Fail IndexError
                 end) idx.

(** [a[i]] with one index. *)
Definition item {A : Type} (i : nat) (a : list A) : result A :=
  match nth_error a i with
  | Some v => Ok v
  | None => Fail IndexError
  end.

(** [np.argmax] of one row: the first position of the largest entry. *)
Fixpoint argmax_from (best_i : nat) (best : R) (i : nat) (l : list R) : nat :=
  match l with
  | [] => best_i
  | v :: l' =>
      if Rltb best v then argmax_from i v (S i) l'
      else argmax_from best_i best (S i) l'
  end.

Definition argmax (row : list R) : result nat :=
  match row with
  | [] => Fail ValueError
  | v :: l => Ok (argmax_from 0 v 1 l)
  end.

End Np.

(** ** Binary64 numbers *)

Module Float64.

Import SpecFloat.

(** A Python [float]. *)
Definition t : Type := spec_float.

Definition prec : Z := 53.
Definition emax : Z := 1024.

(** [float(z)] on a Python integer: the nearest binary64 number, an
    OverflowError beyond the largest one. *)
Definition of_int (z : Z) : result t :=
  match binary_normalize prec emax z 0 false with
  | S754_infinity _ => Fail OverflowError
  | x => Ok x
  end.

(** [x * y] *)
Definition mul (x y : t) : t := SFmul prec emax x y.

(** [int(x)]: truncation toward zero; NaN is a ValueError, an infinity an
    OverflowError. *)
Definition to_int (x : t) : result Z :=
  match x with
  | S754_zero _ => Ok 0%Z
  | S754_finite s m e =>
      let a := if (0 <=? e)%Z then (Z.pos m * 2 ^ e)%Z
               else (Z.pos m / 2 ^ (- e))%Z in
      Ok (if s then (- a)%Z else a)
  | S754_infinity _ => Fail OverflowError
  | S754_nan => Fail ValueError
  end.

(** The value of a decimal literal equal to the fraction [p / q] of two
    integers that binary64 holds exactly: the binary64 number nearest to
    the fraction. *)
Definition of_ratio (p q : Z) : t :=
  SFdiv prec emax (binary_normalize prec emax p 0 false)
                  (binary_normalize prec emax q 0 false).

(** The real number that a finite binary64 number stands for. *)
Definition to_R (x : t) : R :=
  match x with
  | S754_finite s m e =>
      if s then (- (IZR (Z.pos m) * powerRZ 2 e))%R
      else (IZR (Z.pos m) * powerRZ 2 e)%R
  | _ => 0%R
  end.

End Float64.

(** ** Enumerations *)

Inductive DisputeCategory : Type :=
| NON_DELIVERY | QUALITY_ISSUE | NOT_AS_DESCRIBED | LATE_DELIVERY
| COMMUNICATION_ISSUE | MALICIOUS_CONTENT | PAYMENT_DISPUTE | OTHER.

Definition DisputeCategory_value (c : DisputeCategory) : Z :=
  match c with
  | NON_DELIVERY => 0 | QUALITY_ISSUE => 1 | NOT_AS_DESCRIBED => 2
  | LATE_DELIVERY => 3 | COMMUNICATION_ISSUE => 4 | MALICIOUS_CONTENT => 5
  | PAYMENT_DISPUTE => 6 | OTHER => 7
  end%Z.

Inductive JuryVerdict : Type :=
| PENDING | PARTY_A_WINS | PARTY_B_WINS | SPLIT | PARTIAL_A | PARTIAL_B.

(** [JuryVerdict(i)]: ValueError outside the six values. *)
Definition JuryVerdict_of (i : nat) : result JuryVerdict :=
  match i with
  | 0 => Ok PENDING | 1 => Ok PARTY_A_WINS | 2 => Ok PARTY_B_WINS
  | 3 => Ok SPLIT | 4 => Ok PARTIAL_A | 5 => Ok PARTIAL_B
  | _ => Fail ValueError
  end%nat.

Definition JuryVerdict_name (v : JuryVerdict) : string :=
  match v with
  | PENDING => "PENDING" | PARTY_A_WINS => "PARTY_A_WINS"
  | PARTY_B_WINS => "PARTY_B_WINS" | SPLIT => "SPLIT"
  | PARTIAL_A => "PARTIAL_A" | PARTIAL_B => "PARTIAL_B"
  end%string.

(** ** Training data *)

Module SmlTrainingData.

Local Open Scope R_scope.

Record t : Type := mk {
  case_id : string;
  job_category : Z;
  dispute_category : Z;
  amount_tier : Z;
  evidence_quality_a : Z;
  evidence_quality_b : Z;
  response_time_a : Z;
  response_time_b : Z;
  prior_disputes_a : Z;
  prior_disputes_b : Z;
  votes : list bool;
  confidences : list Z;
  final_verdict : Z;
  auto_resolved : bool;
  consensus_strength : Z
}.

(** The final cast to 32-bit floats is part of the idealisation. *)
Definition to_feature_vector (self : t) : list R :=
  [ IZR (job_category self) / 100;
    IZR (dispute_category self) / 7;
    IZR (amount_tier self) / 4;
    IZR (evidence_quality_a self) / 100;
    IZR (evidence_quality_b self) / 100;
    IZR (Z.min (response_time_a self) 168) / 168;
    IZR (Z.min (response_time_b self) 168) / 168;
    IZR (Z.min (prior_disputes_a self) 10) / 10;
    IZR (Z.min (prior_disputes_b self) 10) / 10;
    IZR (evidence_quality_a self - evidence_quality_b self) / 100;
    (if (response_time_a self + response_time_b self >? 0)%Z
     then IZR (response_time_b self - response_time_a self) / 168
     else 0);
    IZR (prior_disputes_b self - prior_disputes_a self) / 10 ].

Definition to_label (self : t) : Z := final_verdict self.

(** The feature vector as the specification lists it, component by
    component, on real numbers. *)
Definition spec_feature_vector (self : t) : list R :=
  let ra := IZR (response_time_a self) in
  let rb := IZR (response_time_b self) in
  [ IZR (job_category self) / 100;
    IZR (dispute_category self) / 7;
    IZR (amount_tier self) / 4;
    IZR (evidence_quality_a self) / 100;
    IZR (evidence_quality_b self) / 100;
    Rmin ra 168 / 168;
    Rmin rb 168 / 168;
    Rmin (IZR (prior_disputes_a self)) 10 / 10;
    Rmin (IZR (prior_disputes_b self)) 10 / 10;
    (IZR (evidence_quality_a self) - IZR (evidence_quality_b self)) / 100;
    (if Z.eqb (response_time_a self) 0 && Z.eqb (response_time_b self) 0
     then 0 else (rb - ra) / 168);
    (IZR (prior_disputes_b self) - IZR (prior_disputes_a self)) / 10 ].

End SmlTrainingData.

(** ** Threshold split *)

Module DecisionStump.

Import Np.
Local Open Scope R_scope.

Record t : Type := mk {
  feature_idx : nat;
  threshold : R;
  left_value : R;
  right_value : R
}.

(** [__init__] *)
Definition init : t := mk 0 0 0 0.

(** The search state of [fit]: [best_gain], where [None] is the initial
    minus infinity, and the object under construction. *)
Definition search : Type := (option R * t)%type.

(** [gain > best_gain] *)
Definition improves (gain : R) (best_gain : option R) : bool :=
  match best_gain with
  | None => true
  | Some b => Rltb b gain
  end.

Definition left_mask_of (feature_values : list R) (thresh : R) : list bool :=
  map (fun v => Rleb v thresh) feature_values.

(** The squared-error score of predicting [left_mean] and [right_mean]. *)
Definition gain_of (residuals : list R) (left_mask : list bool)
    (left_mean right_mean : R) : R :=
  - sum (map (fun e => e ^ 2) (sub residuals (where_ left_mask left_mean right_mean))).

(** [left_mask.sum() < 2 or right_mask.sum() < 2] *)
Definition too_small (feature_values : list R) (thresh : R) : bool :=
  let left_mask := left_mask_of feature_values thresh in
  let right_mask := map negb left_mask in
  (count left_mask <? 2)%nat || (count right_mask <? 2)%nat.

(** One candidate threshold: [None] when it is rejected ([continue]),
    otherwise the two means and the gain. *)
Definition evaluate (feature_values residuals : list R) (thresh : R)
    : result (option (R * R * R)) :=
  let left_mask := left_mask_of feature_values thresh in
  let right_mask := map negb left_mask in
  if too_small feature_values thresh then Ok None
  else
    rl <- select left_mask residuals ;;
    left_mean <- mean rl ;;
    rr <- select right_mask residuals ;;
    right_mean <- mean rr ;;
    Ok (Some (left_mean, right_mean,
              gain_of residuals left_mask left_mean right_mean)).

(** The body of the loop over thresholds, for one threshold. *)
Definition try_threshold (feature_values residuals : list R) (feat_idx : nat)
    (thresh : R) (st : search) : result search :=
  candidate <- evaluate feature_values residuals thresh ;;
  match candidate with
  | None => Ok st
  | Some (left_mean, right_mean, gain) =>
      if improves gain (fst st)
      then Ok (Some gain, mk feat_idx thresh left_mean right_mean)
      else Ok st
  end.

(** [for thresh in thresholds] *)
Fixpoint fit_thresholds (feature_values residuals : list R) (feat_idx : nat)
    (thresholds : list R) (st : search) : result search :=
  match thresholds with
  | [] => Ok st
  | thresh :: rest =>
      st' <- try_threshold feature_values residuals feat_idx thresh st ;;
      fit_thresholds feature_values residuals feat_idx rest st'
  end.

(** [for feat_idx in range(n_features)] *)
Fixpoint fit_features (X : ndarray) (residuals : list R) (feats : list nat)
    (st : search) : result search :=
  match feats with
  | [] => Ok st
  | feat_idx :: rest =>
      feature_values <- column feat_idx X ;;
      st' <- fit_thresholds feature_values residuals feat_idx
               (unique feature_values) st ;;
      fit_features X residuals rest st'
  end.

(** [fit]: the object after the call. *)
Definition fit (self : t) (X : ndarray) (residuals : list R) : result t :=
  st <- fit_features X residuals (seq 0 (n_cols X)) (None, self) ;;
  Ok (snd st).

Definition predict (self : t) (X : ndarray) : result (list R) :=
  feature_values <- column (feature_idx self) X ;;
  Ok (where_ (left_mask_of feature_values (threshold self))
             (left_value self) (right_value self)).

(** *** Vocabulary of the search *)

(** A candidate of the search: a feature index and a threshold. *)
Definition candidate : Type := (nat * R)%type.

Definition key (self : t) : candidate := (feature_idx self, threshold self).

(** The search enumerates [c] (a column of the array and a value found in
    it) and evaluating it gives [o]. *)
Definition outcome (X : ndarray) (residuals : list R) (c : candidate)
    (o : option (R * R * R)) : Prop :=
  exists feature_values,
    column (fst c) X = Ok feature_values /\
    In (snd c) feature_values /\
    evaluate feature_values residuals (snd c) = Ok o.

(** The order of enumeration: features ascending, thresholds ascending
    within a feature. *)
Definition before (c c' : candidate) : Prop :=
  (fst c < fst c')%nat \/ (fst c = fst c' /\ snd c < snd c').

Definition not_after (c c' : candidate) : Prop :=
  (fst c < fst c')%nat \/ (fst c = fst c' /\ snd c <= snd c').

(** The candidates tried when the search is at feature [feat_idx] and has
    gone through the thresholds [tried] of that feature. *)
Definition tried_at (feat_idx : nat) (tried : list R) (c : candidate) : Prop :=
  (fst c < feat_idx)%nat \/ (fst c = feat_idx /\ In (snd c) tried).

(** The state of the search once the candidates in [done] have been
    tried, starting from the object [self]. *)
Definition best_among (X : ndarray) (residuals : list R) (self : t)
    (done : candidate -> Prop) (st : search) : Prop :=
  match fst st with
  | None =>
      snd st = self /\
      forall c o, done c -> outcome X residuals c o -> o = None
  | Some gain =>
      exists left_mean right_mean,
        done (key (snd st)) /\
        outcome X residuals (key (snd st))
                (Some (left_mean, right_mean, gain)) /\
        left_value (snd st) = left_mean /\
        right_value (snd st) = right_mean /\
        forall c left_mean' right_mean' gain',
          done c ->
          outcome X residuals c (Some (left_mean', right_mean', gain')) ->
          gain' <= gain /\ (gain' = gain -> not_after (key (snd st)) c)
  end.

End DecisionStump.

(** ** Boosted ensemble *)

Module SimpleGradientBoosting.

Import Np.
Local Open Scope R_scope.

(** A score matrix: one row per sample, one entry per class. *)
Definition scores : Type := list (list R).

(** The class priors: the column means of the one-hot matrix.  Over a
    matrix without rows numpy's mean is NaN in every entry; [k] is the
    number of entries. *)
Inductive priors : Type :=
| Priors (initial : list R)
| NaNPriors (k : nat).

Definition n_priors (p : priors) : nat :=
  match p with
  | Priors initial => length initial
  | NaNPriors k => k
  end.

(** A matrix of scores or of probabilities as [predict_proba] computes
    it: of real numbers or, when the priors are NaN, of [n] rows of [k]
    NaN.  A sum with a NaN term, [exp] of NaN and a quotient of NaN are
    NaN, so no entry of such a matrix is a number. *)
Inductive matrix : Type :=
| Finite (x : scores)
| AllNaN (n k : nat).

Record t : Type := mk {
  n_estimators : nat;
  learning_rate : R;
  n_classes : nat;
  estimators : list (list DecisionStump.t);
  initial_predictions : option priors        (* [None] until [fit] *)
}.

(** [__init__] *)
Definition init (n_estimators : nat) (learning_rate : R) (n_classes : nat) : t :=
  mk n_estimators learning_rate n_classes [] None.

(** [_softmax] on one row: the shift by the row maximum, then the
    normalisation.  [np.max] over an empty axis is a ValueError. *)
Definition row_max (row : list R) : result R :=
  match row with
  | [] => Fail ValueError
  | v :: l => Ok (fold_left Rmax l v)
  end.

Definition softmax_row (row : list R) : result (list R) :=
  m <- row_max row ;;
  let exp_x := map (fun v => exp (v - m)) row in
  Ok (map (fun e => e / sum exp_x) exp_x).

Definition _softmax (x : scores) : result scores := mapM softmax_row x.

(** One row of the one-hot matrix: all zero when the label is outside
    [0, n_classes). *)
Definition one_hot_row (n_classes : nat) (label : Z) : list R :=
  map (fun c => if (label =? Z.of_nat c)%Z then 1 else 0) (seq 0 n_classes).

Definition valid_label (n_classes : nat) (label : Z) : bool :=
  (0 <=? label)%Z && (label <? Z.of_nat n_classes)%Z.

(** The one-hot matrix has [n_samples] rows; a valid label at a position
    beyond them is an IndexError, an invalid one is skipped. *)
Fixpoint one_hot (n_samples n_classes : nat) (y : list Z) : result scores :=
  match y, n_samples with
  | [], _ => Ok (repeat (repeat 0 n_classes) n_samples)
  | label :: y', S n' =>
      rest <- one_hot n' n_classes y' ;;
      Ok (one_hot_row n_classes label :: rest)
  | label :: y', O =>
      if valid_label n_classes label then Fail IndexError
      else one_hot O n_classes y'
  end.

(** [y_onehot.mean(axis=0)]: NaN in each of the [n_classes] entries when
    the matrix has no row. *)
Definition column_means (n_classes : nat) (y_onehot : scores) : result priors :=
  match y_onehot with
  | [] => Ok (NaNPriors n_classes)
  | _ :: _ =>
      initial <- mapM (fun c => col <- column_of n_classes c y_onehot ;;
                                mean col)
                      (seq 0 n_classes) ;;
      Ok (Priors initial)
  end.

(** [np.tile(initial, (n_samples, 1))] in [fit].  The priors are NaN only
    when the batch, and so the tiled matrix, has no row. *)
Definition tile (initial : priors) (n_samples : nat) : scores :=
  match initial with
  | Priors initial => repeat initial n_samples
  | NaNPriors _ => []
  end.

(** [predictions[:, c] += update], row by row. *)
Fixpoint add_to_rows (c : nat) (update : list R) (predictions : scores)
    : result scores :=
  match update, predictions with
  | [], [] => Ok []
  | u :: update', row :: predictions' =>
      match nth_error row c with
      | None => Fail IndexError
      | Some v =>
          rest <- add_to_rows c update' predictions' ;;
          Ok ((firstn c row ++ (v + u) :: skipn (S c) row) :: rest)
      end
  | _, _ => Fail ValueError
  end.

(** [predictions[:, c] += update] on a matrix of [k] columns: the column
    index is checked against the shape, also when there is no row. *)
Definition add_to_column (k c : nat) (update : list R) (predictions : scores)
    : result scores :=
  if (c <? k)%nat then add_to_rows c update predictions
  else Fail IndexError.

(** [y_onehot[:, c] - self._softmax(predictions)[:, c]] *)
Definition residuals_of (n_classes : nat) (y_onehot predictions : scores)
    (c : nat) : result (list R) :=
  yc <- column_of n_classes c y_onehot ;;
  proba <- _softmax predictions ;;
  pc <- column_of n_classes c proba ;;
  Ok (sub yc pc).

(** The body of the loop over classes: the state is the score matrix and
    the list [round_estimators]. *)
Definition fit_class (self : t) (X : ndarray) (y_onehot : scores)
    (st : scores * list DecisionStump.t) (c : nat)
    : result (scores * list DecisionStump.t) :=
  let '(predictions, round_estimators) := st in
  residuals <- residuals_of (n_classes self) y_onehot predictions c ;;
  stump <- DecisionStump.fit DecisionStump.init X residuals ;;
  update <- DecisionStump.predict stump X ;;
  predictions' <- add_to_column (n_classes self) c
                    (map (Rmult (learning_rate self)) update) predictions ;;
  Ok (predictions', round_estimators ++ [stump]).

(** [for c in classes]; the source runs it on [range(self.n_classes)]. *)
Fixpoint fit_classes (self : t) (X : ndarray) (y_onehot : scores)
    (classes : list nat) (st : scores * list DecisionStump.t)
    : result (scores * list DecisionStump.t) :=
  match classes with
  | [] => Ok st
  | c :: rest =>
      st' <- fit_class self X y_onehot st c ;;
      fit_classes self X y_onehot rest st'
  end.

Definition fit_round (self : t) (X : ndarray) (y_onehot predictions : scores)
    : result (scores * list DecisionStump.t) :=
  fit_classes self X y_onehot (seq 0 (n_classes self)) (predictions, []).

(** [for _ in range(self.n_estimators)]: the state is the score matrix and
    [self.estimators]. *)
Fixpoint boost (self : t) (X : ndarray) (y_onehot : scores) (rounds : nat)
    (st : scores * list (list DecisionStump.t))
    : result (scores * list (list DecisionStump.t)) :=
  match rounds with
  | O => Ok st
  | S rounds' =>
      '(predictions', round_estimators) <-
         fit_round self X y_onehot (fst st) ;;
      boost self X y_onehot rounds' (predictions', snd st ++ [round_estimators])
  end.

(** [fit]: the object after the call, together with the final score
    matrix of the training rows. *)
Definition fit_scores (self : t) (X : ndarray) (y : list Z) : result (t * scores) :=
  let n_samples := n_rows X in
  y_onehot <- one_hot n_samples (n_classes self) y ;;
  initial <- column_means (n_classes self) y_onehot ;;
  let predictions : scores := tile initial n_samples in
  '(predictions', ests) <-
     boost self X y_onehot (n_estimators self) (predictions, estimators self) ;;
  Ok (mk (n_estimators self) (learning_rate self) (n_classes self)
         ests (Some initial), predictions').

Definition fit (self : t) (X : ndarray) (y : list Z) : result t :=
  r <- fit_scores self X y ;; Ok (fst r).

(** [for c, stump in enumerate(round_estimators)], on a score matrix of
    [k] columns. *)
Fixpoint add_round (self : t) (X : ndarray) (k c : nat)
    (round_estimators : list DecisionStump.t) (predictions : scores)
    : result scores :=
  match round_estimators with
  | [] => Ok predictions
  | stump :: rest =>
      update <- DecisionStump.predict stump X ;;
      predictions' <- add_to_column k c
                        (map (Rmult (learning_rate self)) update)
                        predictions ;;
      add_round self X k (S c) rest predictions'
  end.

(** [for round_estimators in self.estimators] *)
Fixpoint add_rounds (self : t) (X : ndarray) (k : nat)
    (ests : list (list DecisionStump.t)) (predictions : scores) : result scores :=
  match ests with
  | [] => Ok predictions
  | round_estimators :: rest =>
      predictions' <- add_round self X k 0 round_estimators predictions ;;
      add_rounds self X k rest predictions'
  end.

(** The raw scores that [predict_proba] rebuilds before the softmax.
    On NaN priors every addition leaves NaN; the loop raises what it
    raises on any matrix of the same shape. *)
Definition raw_scores (self : t) (X : ndarray) : result matrix :=
  match initial_predictions self with
  | None => Fail TypeError
  | Some (Priors initial) =>
      predictions <- add_rounds self X (length initial) (estimators self)
                       (repeat initial (n_rows X)) ;;
      Ok (Finite predictions)
  | Some (NaNPriors k) =>
      _ <- add_rounds self X k (estimators self)
             (repeat (repeat 0 k) (n_rows X)) ;;
      Ok (AllNaN (n_rows X) k)
  end.

(** [np.max] over an empty axis is a ValueError, on a row of NaN too. *)
Definition predict_proba (self : t) (X : ndarray) : result matrix :=
  predictions <- raw_scores self X ;;
  match predictions with
  | Finite x => proba <- _softmax x ;; Ok (Finite proba)
  | AllNaN n k =>
      if (0 <? n)%nat && (k =? 0)%nat then Fail ValueError
      else Ok (AllNaN n k)
  end.

(** [np.argmax] of a row of NaN is 0, the position of its first NaN. *)
Definition predict (self : t) (X : ndarray) : result (list nat) :=
  proba <- predict_proba self X ;;
  match proba with
  | Finite proba => mapM argmax proba
  | AllNaN n k =>
      if (0 <? n)%nat && (k =? 0)%nat then Fail ValueError
      else Ok (repeat 0%nat n)
  end.

(** *** The loop over classes, seen from one class *)

(** [x[i, j]] *)
Definition entry (x : scores) (i j : nat) : R := nth j (nth i x []) 0.

(** [stump.predict(X)[i]] *)
Definition stump_update (stump : DecisionStump.t) (X : ndarray) (i : nat) : R :=
  match DecisionStump.predict stump X with
  | Ok update => nth i update 0
  | Fail _ => 0
  end.

(** The state of the loop over classes when it reaches class [c], in a
    round that starts from the score matrix [predictions]. *)
Definition state_at_class (self : t) (X : ndarray)
    (y_onehot predictions : scores) (c : nat)
    : result (scores * list DecisionStump.t) :=
  fit_classes self X y_onehot (seq 0 c) (predictions, []).

(** The residuals that the loop forms for class [c] in that round. *)
Definition round_residuals (self : t) (X : ndarray)
    (y_onehot predictions : scores) (c : nat) : result (list R) :=
  st <- state_at_class self X y_onehot predictions c ;;
  residuals_of (n_classes self) y_onehot (fst st) c.

(** The residuals as the specification words them: the one-hot column
    minus the softmax column of the score matrix at the start of the
    round. *)
Definition snapshot_residuals (self : t) (y_onehot predictions : scores)
    (c : nat) : result (list R) :=
  residuals_of (n_classes self) y_onehot predictions c.

(** *** Shapes *)

(** A score matrix of [n] rows and [k] classes. *)
Definition shaped (n k : nat) (x : scores) : Prop :=
  length x = n /\ Forall (fun row => length row = k) x.

(** An ensemble that [predict_proba] can run on arrays of [d] columns:
    the initial scores are set, one per class, and every round holds one
    split per class, each on a feature below [d]. *)
Definition well_formed (d : nat) (self : t) : Prop :=
  (exists initial, initial_predictions self = Some initial /\
                   n_priors initial = n_classes self) /\
  Forall (fun round_estimators =>
            length round_estimators = n_classes self /\
            Forall (fun stump => (DecisionStump.feature_idx stump < d)%nat)
                   round_estimators)
         (estimators self).

(** A row of probabilities: entries in [0,1] that sum to 1. *)
Definition distribution (row : list R) : Prop :=
  Forall (fun p => 0 <= p <= 1) row /\ sum row = 1.

(** [k] is the first position of the largest entry of [row]. *)
Definition first_argmax (row : list R) (k : nat) : Prop :=
  (k < length row)%nat /\
  (forall j, (j < length row)%nat -> nth j row 0 <= nth k row 0) /\
  (forall j, (j < k)%nat -> nth j row 0 < nth k row 0).

End SimpleGradientBoosting.

(** ** Model manager *)

Module DisputeSmlModel.

Import Np.

Record t : Type := mk {
  model : option SimpleGradientBoosting.t;
  version : Z;
  training_samples : nat;
  accuracy : option R                      (* [None] is NaN *)
}.

(** [__init__] *)
Definition init : t := mk None 1 0 (Some 0%R).

(** The pickled dictionary of [save]. *)
Record artifact : Type := mk_artifact {
  a_model : option SimpleGradientBoosting.t;
  a_version : Z;
  a_training_samples : nat;
  a_accuracy : option R
}.

(** The file at [model_path]: its content, if it exists, and the number of
    times it has been written.  I/O failures are not modelled. *)
Record disk : Type := mk_disk {
  file : option artifact;
  writes : nat
}.

Definition save (self : t) (d : disk) : disk :=
  mk_disk (Some (mk_artifact (model self) (version self)
                             (training_samples self) (accuracy self)))
          (S (writes d)).

Definition load (self : t) (d : disk) : t :=
  match file d with
  | Some data =>
      mk (a_model data) (a_version data) (a_training_samples data)
         (a_accuracy data)
  | None => self
  end.

(** *** Rationale *)

(** [x < y] on an integer and a quotient of an integer by two; the
    quotient is exact, so the comparison is that of rationals. *)
Definition Qltb (x y : Q) : bool := negb (Qle_bool y x).

Definition _generate_reasoning (case : SmlTrainingData.t) (predicted : nat)
    : string :=
  let ea := SmlTrainingData.evidence_quality_a case in
  let eb := SmlTrainingData.evidence_quality_b case in
  let ra := SmlTrainingData.response_time_a case in
  let rb := SmlTrainingData.response_time_b case in
  let pa := SmlTrainingData.prior_disputes_a case in
  let pb := SmlTrainingData.prior_disputes_b case in
  let reasons : list string := [] in
  let reasons :=
    if (ea >? eb + 20)%Z
    then reasons ++ ["Party A has stronger evidence"%string]
    else if (eb >? ea + 20)%Z
    then reasons ++ ["Party B has stronger evidence"%string]
    else reasons in
  let reasons :=
    if Qltb (inject_Z ra) (inject_Z rb / 2)
    then reasons ++ ["Party A responded more quickly"%string]
    else if Qltb (inject_Z rb) (inject_Z ra / 2)
    then reasons ++ ["Party B responded more quickly"%string]
    else reasons in
  let reasons :=
    if (pa >? pb + 2)%Z
    then reasons ++ ["Party A has more prior disputes (negative signal)"%string]
    else if (pb >? pa + 2)%Z
    then reasons ++ ["Party B has more prior disputes (negative signal)"%string]
    else reasons in
  let reasons :=
    if (SmlTrainingData.dispute_category case
        =? DisputeCategory_value NON_DELIVERY)%Z
    then reasons ++
         ["Non-delivery cases typically favor claimant if evidence is clear"%string]
    else if (SmlTrainingData.dispute_category case
             =? DisputeCategory_value QUALITY_ISSUE)%Z
    then reasons ++
         ["Quality disputes often result in partial resolutions"%string]
    else reasons in
  let reasons :=
    match reasons with
    | [] => reasons ++
        ["Case features are balanced; prediction based on similar historical cases"%string]
    | _ :: _ => reasons
    end in
  String.concat "; " reasons.

(** The rationale as the specification words it: four rules, each firing
    at most one note, in the order evidence gap, response time, prior
    disputes, category; the fired notes joined, or the fallback sentence
    when none fired. *)
Definition evidence_note (case : SmlTrainingData.t) : list string :=
  let ea := SmlTrainingData.evidence_quality_a case in
  let eb := SmlTrainingData.evidence_quality_b case in
  if (20 <? ea - eb)%Z then ["Party A has stronger evidence"%string]
  else if (20 <? eb - ea)%Z then ["Party B has stronger evidence"%string]
  else [].

Definition response_note (case : SmlTrainingData.t) : list string :=
  let ra := SmlTrainingData.response_time_a case in
  let rb := SmlTrainingData.response_time_b case in
  if (2 * ra <? rb)%Z then ["Party A responded more quickly"%string]
  else if (2 * rb <? ra)%Z then ["Party B responded more quickly"%string]
  else [].

Definition prior_note (case : SmlTrainingData.t) : list string :=
  let pa := SmlTrainingData.prior_disputes_a case in
  let pb := SmlTrainingData.prior_disputes_b case in
  if (2 <? pa - pb)%Z
  then ["Party A has more prior disputes (negative signal)"%string]
  else if (2 <? pb - pa)%Z
  then ["Party B has more prior disputes (negative signal)"%string]
  else [].

Definition category_note (case : SmlTrainingData.t) : list string :=
  if (SmlTrainingData.dispute_category case =? 0)%Z
  then ["Non-delivery cases typically favor claimant if evidence is clear"%string]
  else if (SmlTrainingData.dispute_category case =? 1)%Z
  then ["Quality disputes often result in partial resolutions"%string]
  else [].

Definition fallback_note : string :=
  "Case features are balanced; prediction based on similar historical cases".

Definition triggered_notes (case : SmlTrainingData.t) : list string :=
  evidence_note case ++ response_note case ++ prior_note case
    ++ category_note case.

Definition rationale_spec (case : SmlTrainingData.t) : string :=
  String.concat "; "
    (match triggered_notes case with
     | [] => [fallback_note]
     | notes => notes
     end).

(** *** Training *)

(** A record whose label is one of the six outcomes. *)
Definition valid_record (r : SmlTrainingData.t) : bool :=
  (0 <=? SmlTrainingData.final_verdict r)%Z
  && (SmlTrainingData.final_verdict r <? 6)%Z.

Inductive train_result : Type :=
| TrainError (error : string)
| TrainSuccess (version : Z) (training_samples test_samples : nat)
               (accuracy : option R) (status : string).

(** [a[mask]] on rows of any kind, the mask as long as the array. *)
Definition keep {A : Type} (mask : list bool) (a : list A) : list A :=
  map snd (filter fst (combine mask a)).

Definition valid_mask (y : list Z) : list bool :=
  map (fun l => (0 <=? l)%Z && (l <? 6)%Z) y.

(** [(y_pred == y_test).mean()] *)
Definition accuracy_of (y_pred : list nat) (y_test : list Z) : option R :=
  match mean (map (fun p => if (Z.of_nat (fst p) =? snd p)%Z then 1%R else 0%R)
                  (combine y_pred y_test)) with
  | Ok a => Some a
  | Fail _ => None
  end.

(** [int(len(X) * test_split)]: the product of the length, converted to
    binary64, and the binary64 test fraction, truncated. *)
Definition n_test_of (n : nat) (test_split : Float64.t) : result Z :=
  len <- Float64.of_int (Z.of_nat n) ;;
  Float64.to_int (Float64.mul len test_split).

(** The two index arrays of the split: [indices[:n_test]] and
    [indices[n_test:]]. *)
Definition split_indices (n_test : Z) (indices : list nat)
    : list nat * list nat :=
  (slice_to n_test indices, slice_from n_test indices).

(** [train]: [permutation] is the value that [np.random.permutation]
    returns in this call, a permutation of the valid row numbers. *)
Definition train (self : t) (d : disk) (training_data : list SmlTrainingData.t)
    (test_split : Float64.t) (permutation : list nat)
    : result (train_result * t * disk) :=
  if (length training_data <? 10)%nat
  then Ok (TrainError "Need at least 10 training samples", self, d)
  else
    let X := map SmlTrainingData.to_feature_vector training_data in
    let y := map SmlTrainingData.to_label training_data in
    let mask := valid_mask y in
    let X := keep mask X in
    let y := keep mask y in
    if (length X <? 10)%nat
    then Ok (TrainError "Not enough valid samples after filtering", self, d)
    else
      n_test <- n_test_of (length X) test_split ;;
      let '(test_idx, train_idx) := split_indices n_test permutation in
      X_train <- take train_idx X ;;
      X_test <- take test_idx X ;;
      y_train <- take train_idx y ;;
      y_test <- take test_idx y ;;
      fitted <- SimpleGradientBoosting.fit
                  (SimpleGradientBoosting.init 50 (1 / 10)%R 6)
                  (mk_ndarray 12 X_train) y_train ;;
      y_pred <- SimpleGradientBoosting.predict fitted (mk_ndarray 12 X_test) ;;
      let acc := accuracy_of y_pred y_test in
      let self' := mk (Some fitted) (version self + 1) (length X_train) acc in
      let d' := save self' d in
      Ok (TrainSuccess (version self') (training_samples self') (length X_test)
            (option_map (fun a => py_round_to 2 (a * 100)%R) acc) "success",
          self', d').

(** *** Prediction *)

Inductive predict_result : Type :=
| NotTrained (verdict : JuryVerdict) (confidence : Z) (reasoning : string)
| Predicted (verdict : JuryVerdict) (verdict_name : string) (confidence : Z)
            (probabilities : list (string * R)) (reasoning : string)
            (model_version : Z) (model_accuracy : option R).

Fixpoint enumerate_from {A : Type} (i : nat) (l : list A) : list (nat * A) :=
  match l with
  | [] => []
  | a :: l' => (i, a) :: enumerate_from (S i) l'
  end.

Definition predict (self : t) (d : disk) (case_data : SmlTrainingData.t)
    : result (predict_result * t) :=
  let self := match model self with
              | None => load self d
              | Some _ => self
              end in
  match model self with
  | None => Ok (NotTrained PENDING 0 "Model not trained yet", self)
  | Some m =>
      let X := mk_ndarray 12 [SmlTrainingData.to_feature_vector case_data] in
      probas <- SimpleGradientBoosting.predict_proba m X ;;
      match probas with
      | SimpleGradientBoosting.Finite probas =>
          proba <- item 0 probas ;;
          predicted_class <- argmax proba ;;
          p <- item predicted_class proba ;;
          let confidence := py_int (p * 100)%R in
          let reasoning := _generate_reasoning case_data predicted_class in
          verdict <- JuryVerdict_of predicted_class ;;
          probabilities <-
            mapM (fun ip => v <- JuryVerdict_of (fst ip) ;;
                            Ok (JuryVerdict_name v,
                                py_round_to 1 (snd ip * 100)%R))
                 (enumerate_from 0 proba) ;;
          Ok (Predicted verdict (JuryVerdict_name verdict) confidence
                probabilities reasoning (version self)
                (option_map (fun a => py_round_to 1 (a * 100)%R)
                            (accuracy self)),
              self)
      | SimpleGradientBoosting.AllNaN n k =>
          (* [probas[0]], then [int(nan * 100)] *)
          match n with
          | O => Fail IndexError
          | S _ => Fail ValueError
          end
      end
  end.

End DisputeSmlModel.

(** ** Oracle interface *)

Module SmlOracle.

(** The integer code of a verdict, as [json.dumps] writes an [IntEnum]. *)
Definition JuryVerdict_value (v : JuryVerdict) : Z :=
  match v with
  | PENDING => 0 | PARTY_A_WINS => 1 | PARTY_B_WINS => 2
  | SPLIT => 3 | PARTIAL_A => 4 | PARTIAL_B => 5
  end%Z.

(** The object that [json.loads] returns, for a payload whose case
    identifier, when present, is a string and whose other fields, when
    present, are integers: a dictionary is its lookup function. *)
Record case_json : Type := mk_case_json {
  json_case_id : option string;
  json_int : string -> option Z
}.

(** [case_data.get(key, default)] *)
Definition get (case_data : case_json) (key : string) (default : Z) : Z :=
  match json_int case_data key with
  | Some v => v
  | None => default
  end.

(** The record that [get_prediction_for_case] builds from the payload. *)
Definition record_of (case_data : case_json) : SmlTrainingData.t :=
  SmlTrainingData.mk
    (match json_case_id case_data with Some s => s | None => ""%string end)
    (get case_data "job_category" 0)
    (get case_data "dispute_category" 0)
    (get case_data "amount_tier" 0)
    (get case_data "evidence_quality_a" 50)
    (get case_data "evidence_quality_b" 50)
    (get case_data "response_time_a" 24)
    (get case_data "response_time_b" 24)
    (get case_data "prior_disputes_a" 0)
    (get case_data "prior_disputes_b" 0)
    [] [] 0 false 0.

(** The dictionary that [json.dumps] serialises. *)
Record publication : Type := mk_publication {
  pub_case_id : option string;            (* [None] is JSON null *)
  predicted_verdict : Z;
  confidence : Z;
  model_version : Z;
  timestamp : Z
}.

(** How the call ends: with the published dictionary, with the KeyError
    of a subscript on the prediction, or with a failure of [predict]; the
    first two with the manager as [predict] left it. *)
Inductive outcome : Type :=
| Published (p : publication) (model : DisputeSmlModel.t)
| KeyError (key : string) (model : DisputeSmlModel.t)
| Raised (f : failure).

(** [get_prediction_for_case]: [now] is the value of [time.time()]
    truncated by [int]. *)
Definition get_prediction_for_case (model : DisputeSmlModel.t)
    (d : DisputeSmlModel.disk) (case_data : case_json) (now : Z) : outcome :=
  let training_data := record_of case_data in
  match DisputeSmlModel.predict model d training_data with
  | Fail f => Raised f
  | Ok (DisputeSmlModel.NotTrained verdict confidence reasoning, model') =>
      (* prediction["model_version"] on a dictionary without that key *)
      KeyError "model_version" model'
  | Ok (DisputeSmlModel.Predicted verdict verdict_name confidence
          probabilities reasoning model_version model_accuracy, model') =>
      Published (mk_publication (json_case_id case_data)
                   (JuryVerdict_value verdict) confidence model_version now)
                model'
  end.

End SmlOracle.

(** ** Synthetic training data *)

Module Synthetic.

(** The values that the random source returns during one iteration of
    [generate_synthetic_training_data], in the order of the calls. *)
Record draws : Type := mk_draws {
  evidence_a : Z;                 (* randint(20, 100) *)
  evidence_b : Z;                 (* randint(20, 100) *)
  choice : nat;                   (* position picked by np.random.choice *)
  job_category : Z;               (* randint(0, 20) *)
  dispute_category : Z;           (* randint(0, 8) *)
  amount_tier : Z;                (* randint(0, 5) *)
  response_time_a : Z;            (* randint(1, 72) *)
  response_time_b : Z;            (* randint(1, 72) *)
  prior_disputes_a : Z;           (* randint(0, 5) *)
  prior_disputes_b : Z;           (* randint(0, 5) *)
  vote : nat -> bool;             (* choice([True, False]), one per vote *)
  confidence : nat -> Z;          (* randint(50, 100), one per vote *)
  uniform : Q;                    (* np.random.random() *)
  consensus_strength : Z          (* randint(60, 100) *)
}.

(** What [np.random.randint] and [np.random.choice] guarantee. *)
Definition in_range (r : draws) : Prop :=
  (20 <= evidence_a r < 100)%Z /\ (20 <= evidence_b r < 100)%Z /\
  (choice r < 3)%nat /\
  (0 <= job_category r < 20)%Z /\ (0 <= dispute_category r < 8)%Z /\
  (0 <= amount_tier r < 5)%Z /\
  (1 <= response_time_a r < 72)%Z /\ (1 <= response_time_b r < 72)%Z /\
  (0 <= prior_disputes_a r < 5)%Z /\ (0 <= prior_disputes_b r < 5)%Z /\
  (forall j, (50 <= confidence r j < 100)%Z) /\
  (60 <= consensus_strength r < 100)%Z.

(** [np.random.choice] on a list of three verdicts. *)
Definition pick (position : nat) (a b c : JuryVerdict) : JuryVerdict :=
  match position with
  | 0 => a
  | 1 => b
  | _ => c
  end%nat.

(** The verdict that the generator derives from the two evidence scores. *)
Definition verdict_of (r : draws) : JuryVerdict :=
  let ea := evidence_a r in
  let eb := evidence_b r in
  if (ea >? eb + 30)%Z then PARTY_A_WINS
  else if (eb >? ea + 30)%Z then PARTY_B_WINS
  else if (Z.abs (ea - eb) <? 10)%Z
  then pick (choice r) SPLIT PARTIAL_A PARTIAL_B
  else pick (choice r) PARTY_A_WINS PARTY_B_WINS SPLIT.

(** The record appended in iteration [i]. *)
Definition sample (i : nat) (r : draws) : SmlTrainingData.t :=
  SmlTrainingData.mk
    ("case_" ++ DecimalString.NilEmpty.string_of_uint (Nat.to_uint i))
    (job_category r) (dispute_category r) (amount_tier r)
    (evidence_a r) (evidence_b r)
    (response_time_a r) (response_time_b r)
    (prior_disputes_a r) (prior_disputes_b r)
    (map (vote r) (seq 0 10)) (map (confidence r) (seq 0 10))
    (SmlOracle.JuryVerdict_value (verdict_of r))
    (DisputeSmlModel.Qltb (3 # 10) (uniform r))
    (consensus_strength r).

(** [generate_synthetic_training_data]: [rng i] holds the draws of
    iteration [i]. *)
Definition generate_synthetic_training_data (n_samples : nat)
    (rng : nat -> draws) : list SmlTrainingData.t :=
  map (fun i => sample i (rng i)) (seq 0 n_samples).

End Synthetic.

(** ** Vocabulary of the properties *)

Module Vocabulary.

(** [needle in haystack] on strings. *)
Fixpoint contains (needle haystack : string) : bool :=
  if String.prefix needle haystack then true
  else match haystack with
       | EmptyString => false
       | String _ rest => contains needle rest
       end.

(** The same case seen from the other side: the two parties exchanged. *)
Definition swap_parties (r : SmlTrainingData.t) : SmlTrainingData.t :=
  SmlTrainingData.mk
    (SmlTrainingData.case_id r) (SmlTrainingData.job_category r)
    (SmlTrainingData.dispute_category r) (SmlTrainingData.amount_tier r)
    (SmlTrainingData.evidence_quality_b r) (SmlTrainingData.evidence_quality_a r)
    (SmlTrainingData.response_time_b r) (SmlTrainingData.response_time_a r)
    (SmlTrainingData.prior_disputes_b r) (SmlTrainingData.prior_disputes_a r)
    (SmlTrainingData.votes r) (SmlTrainingData.confidences r)
    (SmlTrainingData.final_verdict r) (SmlTrainingData.auto_resolved r)
    (SmlTrainingData.consensus_strength r).

(** The invariants that the data model states for a case record. *)
Definition in_data_model (r : SmlTrainingData.t) : Prop :=
  (0 <= SmlTrainingData.dispute_category r <= 7)%Z /\
  (0 <= SmlTrainingData.amount_tier r <= 4)%Z /\
  (0 <= SmlTrainingData.evidence_quality_a r <= 100)%Z /\
  (0 <= SmlTrainingData.evidence_quality_b r <= 100)%Z /\
  (0 <= SmlTrainingData.response_time_a r)%Z /\
  (0 <= SmlTrainingData.response_time_b r)%Z /\
  (0 <= SmlTrainingData.prior_disputes_a r)%Z /\
  (0 <= SmlTrainingData.prior_disputes_b r)%Z.

(** A feature vector with the two parties exchanged: the per-party
    components swapped, the three differences negated. *)
Definition mirror (features : list R) : list R :=
  match features with
  | [job; category; tier; ea; eb; ra; rb; pa; pb; de; dr; dp] =>
      [job; category; tier; eb; ea; rb; ra; pb; pa; - de; - dr; - dp]%R
  | _ => features
  end.

(** The names of the verdicts, in the order of the enumeration. *)
Definition verdict_names : list string :=
  ["PENDING"; "PARTY_A_WINS"; "PARTY_B_WINS"; "SPLIT"; "PARTIAL_A";
   "PARTIAL_B"]%string.

(** The number of labels equal to class [c]. *)
Definition label_count (c : nat) (y : list Z) : nat :=
  length (filter (fun label => (label =? Z.of_nat c)%Z) y).

End Vocabulary.

(** ** Sample inputs *)

Module Samples.

(** The test case of the demonstration at the end of the source. *)
Definition sample_case : SmlTrainingData.t :=
  SmlTrainingData.mk "test_001" 5 1 2 85 40 6 48 0 3 [] [] 0 false 0.

(** The same case with a verdict outside the six outcomes. *)
Definition unlabelled_case : SmlTrainingData.t :=
  SmlTrainingData.mk "test_002" 5 1 2 85 40 6 48 0 3 [] [] 9 false 0.

(** Three rows and two features: the first feature splits the rows one
    against two at best, the second is constant. *)
Definition thin_batch : Np.ndarray :=
  Np.mk_ndarray 2 [[0; 5]; [1; 5]; [2; 5]]%R.

Definition thin_residuals : list R := [1; -1; 0]%R.

(** Four rows and two features; both features separate the first two rows
    from the last two, the second also row one from the others. *)
Definition tie_batch : Np.ndarray :=
  Np.mk_ndarray 2 [[0; 3]; [0; 3]; [1; 4]; [1; 4]]%R.

Definition tie_residuals : list R := [1; 1; 0; 0]%R.

(** Four rows of one feature, two of class 0 and two of class 1. *)
Definition small_batch : Np.ndarray :=
  Np.mk_ndarray 1 [[0]; [0]; [1]; [1]]%R.

Definition small_labels : list Z := [0; 0; 1; 1]%Z.

(** The one-hot matrix of [small_labels] for six classes. *)
Definition small_onehot : list (list R) :=
  [[1; 0; 0; 0; 0; 0]; [1; 0; 0; 0; 0; 0];
   [0; 1; 0; 0; 0; 0]; [0; 1; 0; 0; 0; 0]]%R.

Definition query_batch : Np.ndarray :=
  Np.mk_ndarray 1 [[0]; [1]; [2]]%R.

(** The draws of one iteration of the synthetic generator, the same in
    every iteration. *)
Definition fixed_draws : Synthetic.draws :=
  Synthetic.mk_draws 70 65 1 5 1 2 6 48 0 3
    (fun _ => true) (fun _ => 80%Z) (1 # 2) 75.

(** The test fractions [0.2] (the default of [train]), [0.25], [0.29] and
    [0.3], and the fraction [1.0] that leaves no training row. *)
Definition fifth : Float64.t := Float64.of_ratio 1 5.
Definition quarter : Float64.t := Float64.of_ratio 1 4.
Definition twenty_nine_percent : Float64.t := Float64.of_ratio 29 100.
Definition three_tenths : Float64.t := Float64.of_ratio 3 10.
Definition whole : Float64.t := Float64.of_ratio 1 1.

(** A batch of one feature without rows. *)
Definition empty_batch : Np.ndarray := Np.mk_ndarray 1 [].

(** A payload with a case identifier and one field. *)
Definition sample_payload : SmlOracle.case_json :=
  SmlOracle.mk_case_json (Some "case_7"%string)
    (fun key => if String.eqb key "evidence_quality_a" then Some 85%Z
                else None).

(** No file at the model path. *)
Definition no_file : DisputeSmlModel.disk := DisputeSmlModel.mk_disk None 0.

End Samples.

(** * Properties *)

(** ** Feature vector *)

Section FeatureVector.

Import SmlTrainingData Samples.
Local Open Scope R_scope.

Lemma IZR_Zmin (a b : Z) : IZR (Z.min a b) = Rmin (IZR a) (IZR b).
Proof.
  destruct (Z.le_ge_cases a b) as [H | H].
  - rewrite Z.min_l, Rmin_left; auto using IZR_le.
  - rewrite Z.min_r, Rmin_right; auto using IZR_le.
Qed.

(** C6: the feature vector has exactly 12 components and each one is the
    formula of the specification: the response times capped at 168 hours,
    the prior-dispute counts capped at 10, and component 11 equal to
    (response_time_b - response_time_a)/168, or 0 when both response times
    are 0.  Response times are non-negative hours. *)
Theorem to_feature_vector_spec (self : t) :
  (0 <= response_time_a self)%Z ->
  (0 <= response_time_b self)%Z ->
  length (to_feature_vector self) = 12%nat /\
  to_feature_vector self = spec_feature_vector self.
Proof.
  intros Ha Hb. split; [reflexivity|].
  unfold to_feature_vector, spec_feature_vector.
  rewrite !IZR_Zmin, !minus_IZR.
  repeat f_equal.
  destruct (Z.eqb_spec (response_time_a self) 0) as [Ea | Ea];
    destruct (Z.eqb_spec (response_time_b self) 0) as [Eb | Eb]; cbn [andb].
  - rewrite Ea, Eb. reflexivity.
  - replace (response_time_a self + response_time_b self >? 0)%Z with true
      by (symmetry; apply Z.gtb_lt; lia). reflexivity.
  - replace (response_time_a self + response_time_b self >? 0)%Z with true
      by (symmetry; apply Z.gtb_lt; lia). reflexivity.
  - replace (response_time_a self + response_time_b self >? 0)%Z with true
      by (symmetry; apply Z.gtb_lt; lia). reflexivity.
Qed.

Lemma to_feature_vector_spec_witness :
  length (to_feature_vector sample_case) = 12%nat /\
  to_feature_vector sample_case = spec_feature_vector sample_case.
Proof.
  apply (to_feature_vector_spec sample_case); simpl; lia.
Defined.

End FeatureVector.

(** ** Rationale *)

Section Rationale.

Import SmlTrainingData DisputeSmlModel Samples.
Local Open Scope Z_scope.

Lemma Qltb_half (a b : Z) : Qltb (inject_Z a) (inject_Z b / 2) = (2 * a <? b).
Proof.
  unfold Qltb, Qle_bool, Qdiv, Qmult, Qinv, inject_Z.
  cbn [Qnum Qden Pos.mul].
  destruct (Z.leb_spec (b * 1 * 1) (a * 2)); destruct (Z.ltb_spec (2 * a) b);
    cbn [negb]; try reflexivity; lia.
Qed.

Lemma gtb_gap (a b k : Z) : (a >? b + k) = (k <? a - b).
Proof.
  rewrite Z.gtb_ltb.
  destruct (Z.ltb_spec (b + k) a); destruct (Z.ltb_spec k (a - b));
    try reflexivity; lia.
Qed.

Lemma _generate_reasoning_unfold (case : SmlTrainingData.t) (predicted : nat) :
  _generate_reasoning case predicted = rationale_spec case.
Proof.
  unfold _generate_reasoning, rationale_spec, triggered_notes,
    evidence_note, response_note, prior_note, category_note, fallback_note.
  rewrite !Qltb_half, !gtb_gap. cbn [DisputeCategory_value].
  destruct (20 <? evidence_quality_a case - evidence_quality_b case);
    destruct (20 <? evidence_quality_b case - evidence_quality_a case);
    destruct (2 * response_time_a case <? response_time_b case);
    destruct (2 * response_time_b case <? response_time_a case);
    destruct (2 <? prior_disputes_a case - prior_disputes_b case);
    destruct (2 <? prior_disputes_b case - prior_disputes_a case);
    destruct (dispute_category case =? 0);
    destruct (dispute_category case =? 1); reflexivity.
Qed.

Lemma prefix_concat_head (sep note : string) (rest : list string) :
  String.prefix note (String.concat sep (note :: rest)) = true.
Proof.
  assert (P : forall s u, String.prefix s (s ++ u) = true).
  { induction s as [| a s IH]; intros u; cbn.
    - destruct u; reflexivity.
    - destruct (Ascii.ascii_dec a a) as [_ | N]; [apply IH | contradiction]. }
  destruct rest as [| r rest]; cbn.
  - clear P. induction note as [| a s IH]; cbn; [reflexivity|].
    destruct (Ascii.ascii_dec a a) as [_ | N]; [apply IH | contradiction].
  - apply P.
Qed.

(** C8: the rationale is a function of the case alone (the predicted class
    does not enter it); it is the notes fired by the four rules, taken in
    the order evidence gap, response time, prior disputes, category and
    joined with "; ", and the generic fallback sentence exactly when no
    rule fires.  With evidence 85 against 40 it starts with the note that
    party A has stronger evidence, and with 40 against 85 with the
    mirrored note, whatever the other fields are. *)
Theorem _generate_reasoning_rules (case : SmlTrainingData.t) (predicted : nat) :
  _generate_reasoning case predicted = rationale_spec case /\
  (forall predicted', _generate_reasoning case predicted'
                      = _generate_reasoning case predicted) /\
  (triggered_notes case = [] <->
   _generate_reasoning case predicted = fallback_note) /\
  (triggered_notes case <> [] ->
   _generate_reasoning case predicted
   = String.concat "; " (evidence_note case ++ response_note case
                           ++ prior_note case ++ category_note case)) /\
  (evidence_quality_a case = 85 -> evidence_quality_b case = 40 ->
   String.prefix "Party A has stronger evidence"
     (_generate_reasoning case predicted) = true) /\
  (evidence_quality_a case = 40 -> evidence_quality_b case = 85 ->
   String.prefix "Party B has stronger evidence"
     (_generate_reasoning case predicted) = true).
Proof.
  split; [apply _generate_reasoning_unfold|].
  split; [intros p'; now rewrite !_generate_reasoning_unfold|].
  rewrite _generate_reasoning_unfold.
  split; [|split; [|split]].
  - unfold rationale_spec. split.
    + intros ->. reflexivity.
    + unfold triggered_notes, evidence_note, response_note, prior_note,
        category_note, fallback_note.
      destruct (20 <? evidence_quality_a case - evidence_quality_b case);
        destruct (20 <? evidence_quality_b case - evidence_quality_a case);
        destruct (2 * response_time_a case <? response_time_b case);
        destruct (2 * response_time_b case <? response_time_a case);
        destruct (2 <? prior_disputes_a case - prior_disputes_b case);
        destruct (2 <? prior_disputes_b case - prior_disputes_a case);
        destruct (dispute_category case =? 0);
        destruct (dispute_category case =? 1);
        cbn; intros H; try reflexivity; discriminate H.
  - unfold rationale_spec. fold (triggered_notes case).
    destruct (triggered_notes case); [contradiction | reflexivity].
  - intros Ea Eb. unfold rationale_spec, triggered_notes, evidence_note.
    rewrite Ea, Eb. cbn [Z.sub Z.ltb Z.compare Z.add Z.opp Z.pos_sub
                         Pos.compare Pos.compare_cont Pos.pred_double app].
    apply prefix_concat_head.
  - intros Ea Eb. unfold rationale_spec, triggered_notes, evidence_note.
    rewrite Ea, Eb. cbn [Z.sub Z.ltb Z.compare Z.add Z.opp Z.pos_sub
                         Pos.compare Pos.compare_cont Pos.pred_double app].
    apply prefix_concat_head.
Qed.

Lemma _generate_reasoning_rules_witness :
  _generate_reasoning sample_case 1
  = "Party A has stronger evidence; Party A responded more quickly; Party B has more prior disputes (negative signal); Quality disputes often result in partial resolutions"%string.
Proof.
  destruct (_generate_reasoning_rules sample_case 1) as (_ & _ & _ & H & _).
  rewrite H; [reflexivity | discriminate].
Defined.

End Rationale.

(** ** The result monad *)

Lemma bind_Ok_inv {A B : Type} (c : result A) (k : A -> result B) (b : B) :
  bind c k = Ok b -> exists a, c = Ok a /\ k a = Ok b.
Proof. destruct c as [a | f]; cbn; [eauto | discriminate]. Qed.

Lemma bind_Ok {A B : Type} (c : result A) (k : A -> result B) (a : A) :
  c = Ok a -> bind c k = k a.
Proof. intros ->. reflexivity. Qed.

Ltac inv_bind H :=
  let a := fresh "a" in
  let E := fresh "E" in
  apply bind_Ok_inv in H; destruct H as (a & E & H).

Lemma mapM_Ok_length {A B : Type} (f : A -> result B) (l : list A) (r : list B) :
  mapM f l = Ok r -> length r = length l.
Proof.
  revert r. induction l as [| a l IH]; cbn; intros r H.
  - injection H as <-. reflexivity.
  - inv_bind H. inv_bind H. injection H as <-. cbn. f_equal. eauto.
Qed.

Lemma mapM_total {A B : Type} (f : A -> result B) (l : list A) :
  Forall (fun a => exists b, f a = Ok b) l -> exists r, mapM f l = Ok r.
Proof.
  induction 1 as [| a l [b Hb] _ [r Hr]]; cbn.
  - eauto.
  - rewrite Hb, Hr. cbn. eauto.
Qed.

Lemma mapM_Ok_Forall2 {A B : Type} (f : A -> result B) (l : list A) (r : list B) :
  mapM f l = Ok r -> Forall2 (fun a b => f a = Ok b) l r.
Proof.
  revert r. induction l as [| a l IH]; cbn; intros r H.
  - injection H as <-. constructor.
  - inv_bind H. inv_bind H. injection H as <-. constructor; auto.
Qed.

(** ** Model manager: the error paths and the untrained prediction *)

Section ManagerErrors.

Import SmlTrainingData DisputeSmlModel Samples.

Lemma keep_valid_length (data : list SmlTrainingData.t) :
  length (keep (valid_mask (map to_label data))
               (map to_feature_vector data))
  = length (filter valid_record data).
Proof.
  unfold keep, valid_mask. rewrite length_map, map_map.
  change (fun x => (0 <=? to_label x)%Z && (to_label x <? 6)%Z)
    with valid_record.
  induction data as [| r data IH]; cbn [map combine filter fst]; [reflexivity|].
  destruct (valid_record r); cbn [length]; rewrite IH; reflexivity.
Qed.

(** C3: with fewer than 10 records, or fewer than 10 records whose label
    lies in [0,6), [train] returns normally with an error result, and
    neither the manager nor the persisted file changes: nothing is
    written. *)
Theorem train_insufficient_data (self : DisputeSmlModel.t) (d : disk)
    (training_data : list SmlTrainingData.t) (test_split : Float64.t)
    (permutation : list nat) :
  (length training_data < 10 \/
   length (filter valid_record training_data) < 10)%nat ->
  exists error,
    train self d training_data test_split permutation
    = Ok (TrainError error, self, d) /\
    ~ raises (train self d training_data test_split permutation).
Proof.
  intros H. unfold train.
  destruct (Nat.ltb_spec (length training_data) 10) as [L | L].
  - eexists. split; [reflexivity|].
    intros [R | [R | [R | R]]]; discriminate R.
  - destruct H as [H | H]; [lia|].
    rewrite keep_valid_length.
    destruct (Nat.ltb_spec (length (filter valid_record training_data)) 10)
      as [L' | L']; [|lia].
    eexists. split; [reflexivity|].
    intros [R | [R | [R | R]]]; discriminate R.
Qed.

Lemma train_insufficient_data_witness :
  exists error,
    train init no_file (repeat sample_case 9 ++ [unlabelled_case]) fifth []
    = Ok (TrainError error, init, no_file) /\
    ~ raises (train init no_file (repeat sample_case 9 ++ [unlabelled_case])
                fifth []).
Proof.
  apply (train_insufficient_data init no_file
           (repeat sample_case 9 ++ [unlabelled_case]) fifth []).
  right. vm_compute. lia.
Defined.

(** C10: when [train] returns an error result, the manager it leaves is
    the manager it was given, field by field (model, version, number of
    training samples, accuracy), and the file was not written. *)
Theorem train_error_frame (self self' : DisputeSmlModel.t) (d d' : disk)
    (training_data : list SmlTrainingData.t) (test_split : Float64.t)
    (permutation : list nat) (error : string) :
  train self d training_data test_split permutation
  = Ok (TrainError error, self', d') ->
  model self' = model self /\ version self' = version self /\
  training_samples self' = training_samples self /\
  accuracy self' = accuracy self /\
  writes d' = writes d /\ file d' = file d.
Proof.
  unfold train. intros H.
  destruct (length training_data <? 10)%nat.
  { injection H as _ <- <-. repeat split. }
  destruct (length _ <? 10)%nat.
  { injection H as _ <- <-. repeat split. }
  inv_bind H. destruct (split_indices _ _) as [test_idx train_idx].
  repeat inv_bind H. discriminate H.
Qed.

Lemma train_error_frame_witness :
  model init = model init /\ version init = version init /\
  training_samples init = training_samples init /\
  accuracy init = accuracy init /\
  writes no_file = writes no_file /\ file no_file = file no_file.
Proof.
  apply (train_error_frame init init no_file no_file [sample_case] fifth []
           "Need at least 10 training samples").
  reflexivity.
Defined.

Lemma predict_untrained_aux (self : DisputeSmlModel.t) (d : disk)
    (case_data : SmlTrainingData.t) :
  model self = None -> file d = None ->
  predict self d case_data
  = Ok (NotTrained PENDING 0 "Model not trained yet", self).
Proof. intros Hm Hf. unfold predict, load. rewrite Hm, Hf, Hm. reflexivity. Qed.

(** C4: with no model in memory and no file at the model path, [predict]
    returns normally with verdict PENDING, confidence 0 and the reasoning
    string "Model not trained yet" (capital M), and the manager is
    unchanged. *)
Theorem predict_untrained (self : DisputeSmlModel.t) (d : disk)
    (case_data : SmlTrainingData.t) :
  model self = None -> file d = None ->
  predict self d case_data
  = Ok (NotTrained PENDING 0 "Model not trained yet", self) /\
  ~ raises (predict self d case_data).
Proof.
  intros Hm Hf. unfold predict, load. rewrite Hm, Hf, Hm.
  split; [reflexivity|]. intros [R | [R | [R | R]]]; discriminate R.
Qed.

Lemma predict_untrained_witness :
  predict init no_file sample_case
  = Ok (NotTrained PENDING 0 "Model not trained yet", init) /\
  ~ raises (predict init no_file sample_case).
Proof.
  apply (predict_untrained init no_file sample_case); reflexivity.
Defined.

(** The claim as the specification words it, with the rationale string in
    lower case, fails on the fresh manager. *)
Lemma untrained_rationale_counterexample :
  ~ (exists st, predict init no_file sample_case
                = Ok (NotTrained PENDING 0 "model not trained yet", st)).
Proof.
  intros [st H].
  rewrite (predict_untrained_aux init no_file sample_case) in H
    by reflexivity.
  discriminate H.
Qed.

End ManagerErrors.

(** ** Arrays *)

Section NpFacts.

Import Np.
Local Open Scope R_scope.

Lemma Rleb_spec (x y : R) : reflect (x <= y) (Rleb x y).
Proof. unfold Rleb. destruct (Rle_dec x y); constructor; assumption. Qed.

Lemma Rltb_spec (x y : R) : reflect (x < y) (Rltb x y).
Proof. unfold Rltb. destruct (Rlt_dec x y); constructor; assumption. Qed.

Lemma insert_unique_In (v w : R) (l : list R) :
  In w (insert_unique v l) <-> w = v \/ In w l.
Proof.
  induction l as [| u l IH]; cbn.
  - intuition.
  - destruct (Rltb_spec v u) as [L | L]; [cbn; intuition|].
    destruct (Rltb_spec u v) as [G | G]; cbn.
    + rewrite IH. intuition.
    + assert (v = u) by lra. subst u. intuition.
Qed.

Lemma unique_In (a : list R) (v : R) : In v (unique a) <-> In v a.
Proof.
  unfold unique. induction a as [| u a IH]; cbn; [tauto|].
  rewrite insert_unique_In, IH. intuition.
Qed.

Lemma insert_unique_sorted (v : R) (l : list R) :
  StronglySorted Rlt l -> StronglySorted Rlt (insert_unique v l).
Proof.
  induction 1 as [| u l S IH F]; cbn.
  - repeat constructor.
  - destruct (Rltb_spec v u) as [L | L].
    + constructor; [constructor; assumption|].
      constructor; [assumption|].
      eapply Forall_impl; [|exact F]. cbn. intros; lra.
    + destruct (Rltb_spec u v) as [G | G].
      * constructor; [assumption|].
        apply Forall_forall. intros w Hw.
        apply insert_unique_In in Hw. destruct Hw as [-> | Hw]; [assumption|].
        rewrite Forall_forall in F. auto.
      * constructor; assumption.
Qed.

Lemma unique_sorted (a : list R) : StronglySorted Rlt (unique a).
Proof.
  unfold unique. induction a; cbn; [constructor | now apply insert_unique_sorted].
Qed.

Lemma column_of_Ok (d j : nat) (x : list (list R)) (col : list R) :
  column_of d j x = Ok col -> (j < d)%nat /\ length col = length x.
Proof.
  unfold column_of. destruct (Nat.ltb_spec j d) as [L | L]; [|discriminate].
  intros E. split; [assumption|]. eapply mapM_Ok_length; eassumption.
Qed.

Lemma column_of_total (d j : nat) (x : list (list R)) :
  Forall (fun row => length row = d) x -> (j < d)%nat ->
  exists col, column_of d j x = Ok col /\ length col = length x.
Proof.
  intros W L. unfold column_of.
  destruct (Nat.ltb_spec j d) as [_ | G]; [|lia].
  destruct (mapM_total (fun row => match nth_error row j with
                                   | Some v => Ok v
                                   | None => Fail IndexError
                                   end) x) as [col Hcol].
  - eapply Forall_impl; [|exact W]. cbn. intros row Hrow.
    destruct (nth_error row j) eqn:E; [eauto|].
    apply nth_error_None in E. lia.
  - exists col. split; [assumption|]. eapply mapM_Ok_length; eassumption.
Qed.

Lemma column_total (X : ndarray) (j : nat) :
  wf X -> (j < n_cols X)%nat ->
  exists col, column j X = Ok col /\ length col = n_rows X.
Proof. intros W L. now apply column_of_total. Qed.

Lemma select_total (mask : list bool) (a : list R) :
  length mask = length a ->
  exists r, select mask a = Ok r /\ length r = count mask.
Proof.
  revert a. induction mask as [| b mask IH]; intros [| v a] L;
    try discriminate L; cbn.
  - eauto.
  - injection L as L. destruct (IH a L) as (r & -> & Hr). cbn.
    eexists. split; [reflexivity|].
    unfold count in *. destruct b; cbn; lia.
Qed.

Lemma mean_total (a : list R) :
  (0 < length a)%nat -> exists m, mean a = Ok m.
Proof. destruct a; cbn; [lia | eauto]. Qed.

Lemma where_const (mask : list bool) (v : R) :
  where_ mask v v = repeat v (length mask).
Proof.
  unfold where_. induction mask as [| b mask IH]; cbn; [reflexivity|].
  rewrite IH. now destruct b.
Qed.

End NpFacts.

(** Comparisons of concrete reals. *)
Ltac decide_reals :=
  repeat match goal with
         | |- context [Np.Rleb ?a ?b] => destruct (Rleb_spec a b); try lra
         | |- context [Np.Rltb ?a ?b] => destruct (Rltb_spec a b); try lra
         end.

(** ** Threshold split: the degenerate fit *)

Section StumpRejected.

Import Np DecisionStump.
Local Open Scope R_scope.

Lemma evaluate_rejected (feature_values residuals : list R) (thresh : R) :
  too_small feature_values thresh = true ->
  evaluate feature_values residuals thresh = Ok None.
Proof. unfold evaluate. intros ->. reflexivity. Qed.

Lemma fit_thresholds_rejected (feature_values residuals : list R)
    (feat_idx : nat) (thresholds : list R) (st : search) :
  (forall thresh, In thresh thresholds ->
                  too_small feature_values thresh = true) ->
  fit_thresholds feature_values residuals feat_idx thresholds st = Ok st.
Proof.
  induction thresholds as [| thresh rest IH]; intros H; cbn; [reflexivity|].
  unfold try_threshold. rewrite evaluate_rejected by (apply H; now left).
  cbn. apply IH. intros t Ht. apply H. now right.
Qed.

Lemma fit_features_rejected (X : ndarray) (residuals : list R)
    (feats : list nat) (st : search) :
  (forall feat_idx, In feat_idx feats ->
     exists feature_values,
       column feat_idx X = Ok feature_values /\
       forall thresh, In thresh feature_values ->
                      too_small feature_values thresh = true) ->
  fit_features X residuals feats st = Ok st.
Proof.
  induction feats as [| f rest IH]; intros H; cbn; [reflexivity|].
  destruct (H f (or_introl eq_refl)) as (fv & -> & Hfv). cbn.
  rewrite fit_thresholds_rejected.
  - cbn. apply IH. intros g Hg. apply H. now right.
  - intros t Ht. apply Hfv. now apply unique_In.
Qed.

Lemma add_to_column_zero (k c : nat) (lr : R) (predictions : list (list R)) :
  (c < k)%nat ->
  Forall (fun row => length row = k) predictions ->
  SimpleGradientBoosting.add_to_column k c
    (map (Rmult lr) (repeat 0 (length predictions))) predictions
  = Ok predictions.
Proof.
  intros Hc. unfold SimpleGradientBoosting.add_to_column.
  destruct (Nat.ltb_spec c k) as [_ | G]; [|lia].
  induction 1 as [| row predictions Hrow _ IH]; cbn; [reflexivity|].
  destruct (nth_error row c) as [v |] eqn:E.
  - rewrite IH. cbn. do 2 f_equal.
    replace (v + lr * 0) with v by ring.
    clear - E. revert c E. induction row as [| w row IHrow]; intros [| c] E;
      cbn in *; try discriminate E.
    + now injection E as ->.
    + f_equal. now apply IHrow.
  - apply nth_error_None in E. lia.
Qed.

(** C5: when every candidate (feature, threshold) of the batch is rejected
    because one side of its partition has fewer than 2 rows, [fit] on a
    fresh split returns it unchanged: feature index 0, threshold 0, left
    value 0, right value 0.  On an array with at least one column its
    [predict] is then the all-zero vector, and adding it, scaled by any
    learning rate, to a column of a score matrix leaves the matrix as it
    was. *)
Theorem fit_all_rejected (X : ndarray) (residuals : list R) :
  wf X ->
  (forall feat_idx feature_values thresh,
     column feat_idx X = Ok feature_values ->
     In thresh feature_values ->
     too_small feature_values thresh = true) ->
  fit init X residuals = Ok init /\
  feature_idx init = 0%nat /\ threshold init = 0 /\
  left_value init = 0 /\ right_value init = 0 /\
  ((0 < n_cols X)%nat ->
   predict init X = Ok (repeat 0 (n_rows X)) /\
   forall (k c : nat) (lr : R) (predictions : list (list R)),
     (c < k)%nat ->
     length predictions = n_rows X ->
     Forall (fun row => length row = k) predictions ->
     SimpleGradientBoosting.add_to_column k c
       (map (Rmult lr) (repeat 0 (n_rows X))) predictions
     = Ok predictions).
Proof.
  intros W H. split; [|repeat split].
  - unfold fit. rewrite fit_features_rejected; [reflexivity|].
    intros f Hf. apply in_seq in Hf.
    destruct (column_total X f W) as (fv & E & _); [lia|].
    exists fv. split; [assumption|]. intros t Ht. eapply H; eassumption.
  - unfold predict. cbn [feature_idx threshold left_value right_value init].
    destruct (column_total X 0 W) as (fv & -> & L); [assumption|]. cbn.
    rewrite where_const. unfold left_mask_of. now rewrite length_map, L.
  - intros k c lr predictions Hc L F. rewrite <- L.
    now apply add_to_column_zero.
Qed.

Lemma fit_all_rejected_witness :
  fit init Samples.thin_batch Samples.thin_residuals = Ok init /\
  predict init Samples.thin_batch = Ok [0; 0; 0].
Proof.
  destruct (fit_all_rejected Samples.thin_batch Samples.thin_residuals)
    as (Hfit & _ & _ & _ & _ & Hpredict).
  - repeat constructor.
  - intros f fv t Hc Hin.
    destruct f as [| [| f]]; cbn in Hc; try discriminate Hc;
      injection Hc as <-; cbn in Hin;
      repeat (destruct Hin as [<- | Hin]); try contradiction;
      unfold too_small, left_mask_of; cbn [map]; decide_reals; reflexivity.
  - split; [exact Hfit|]. apply Hpredict. cbn. lia.
Defined.

End StumpRejected.

(** ** Threshold split: the retained candidate *)

Section StumpSearch.

Import Np DecisionStump.
Local Open Scope R_scope.

Variable X : ndarray.
Variable residuals : list R.
Variable self : DecisionStump.t.

Lemma outcome_fun (c : candidate) (o1 o2 : option (R * R * R)) :
  outcome X residuals c o1 -> outcome X residuals c o2 -> o1 = o2.
Proof.
  intros (fv1 & C1 & _ & E1) (fv2 & C2 & _ & E2).
  rewrite C1 in C2. injection C2 as <-. rewrite E1 in E2. now injection E2.
Qed.

Lemma evaluate_total (feature_values : list R) (thresh : R) :
  length residuals = length feature_values ->
  exists o, evaluate feature_values residuals thresh = Ok o.
Proof.
  intros L. unfold evaluate.
  destruct (too_small feature_values thresh) eqn:E; [eauto|].
  unfold too_small in E. apply orb_false_elim in E. destruct E as [E1 E2].
  apply Nat.ltb_ge in E1, E2.
  destruct (select_total (left_mask_of feature_values thresh) residuals)
    as (rl & -> & Lrl).
  { unfold left_mask_of. rewrite length_map. auto. }
  cbn [bind]. destruct (mean_total rl) as [lm ->]; [lia|]. cbn [bind].
  destruct (select_total (map negb (left_mask_of feature_values thresh))
              residuals) as (rr & -> & Lrr).
  { unfold left_mask_of. rewrite !length_map. auto. }
  cbn [bind]. destruct (mean_total rr) as [rm ->]; [lia|].
  cbn [bind]. eauto.
Qed.

Lemma best_among_ext (done done' : candidate -> Prop) (st : search) :
  (forall c, done c -> done' c) ->
  (forall c o, done' c -> outcome X residuals c o -> done c) ->
  best_among X residuals self done st ->
  best_among X residuals self done' st.
Proof.
  intros Hsub Hback. unfold best_among. destruct (fst st) as [g |].
  - intros (lm & rm & Hd & Ho & Hl & Hr & Hbest).
    exists lm, rm. do 4 (split; [auto|]).
    intros c lm' rm' g' Hc Hco. apply (Hbest c lm' rm' g'); eauto.
  - intros [Hs Hnone]. split; [assumption|]. intros c o Hd Ho.
    eapply Hnone; eauto.
Qed.

Lemma try_threshold_best (done : candidate -> Prop) (st : search)
    (feat_idx : nat) (feature_values : list R) (thresh : R) :
  best_among X residuals self done st ->
  column feat_idx X = Ok feature_values ->
  In thresh feature_values ->
  length residuals = length feature_values ->
  (forall c, done c -> before c (feat_idx, thresh)) ->
  exists st',
    try_threshold feature_values residuals feat_idx thresh st = Ok st' /\
    best_among X residuals self
      (fun c => done c \/ c = (feat_idx, thresh)) st'.
Proof.
  intros Inv Hcol Hin Hlen Hord.
  destruct (evaluate_total feature_values thresh Hlen) as [o He].
  assert (Ho : outcome X residuals (feat_idx, thresh) o)
    by (exists feature_values; auto).
  unfold try_threshold. rewrite He. cbn [bind].
  destruct st as [best s]. unfold best_among in *. cbn [fst snd] in *.
  destruct o as [[[lm rm] gc] |].
  - (* the candidate is accepted *)
    destruct best as [g |]; cbn [improves].
    + destruct Inv as (lm0 & rm0 & Hd & Hs & Hl & Hr & Hbest).
      destruct (Rltb_spec g gc) as [G | G].
      * eexists. split; [reflexivity|].
        cbn [fst snd key feature_idx threshold left_value right_value].
        exists lm, rm. do 4 (split; [auto|]).
        intros c lm' rm' g' [Hc | ->] Hco.
        -- destruct (Hbest _ _ _ _ Hc Hco). split; [lra|]. intros ->. lra.
        -- injection (outcome_fun _ _ _ Ho Hco) as _ _ ->. split; [lra|].
           intros _. right. cbn. split; [reflexivity | lra].
      * eexists. split; [reflexivity|]. cbn [fst snd].
        exists lm0, rm0. do 4 (split; [auto|]).
        intros c lm' rm' g' [Hc | ->] Hco.
        -- eapply Hbest; eauto.
        -- injection (outcome_fun _ _ _ Ho Hco) as _ _ ->. split; [lra|].
           intros _. destruct (Hord _ Hd) as [B | [B1 B2]]; [left; exact B|].
           right. split; [exact B1 | lra].
    + destruct Inv as [Hs Hnone].
      eexists. split; [reflexivity|].
      cbn [fst snd key feature_idx threshold left_value right_value].
      exists lm, rm. do 4 (split; [auto|]).
      intros c lm' rm' g' [Hc | ->] Hco.
      * discriminate (Hnone _ _ Hc Hco).
      * injection (outcome_fun _ _ _ Ho Hco) as _ _ ->. split; [lra|].
        intros _. right. cbn. split; [reflexivity | lra].
  - (* the candidate is rejected *)
    eexists. split; [reflexivity|]. cbn [fst snd].
    destruct best as [g |].
    + destruct Inv as (lm0 & rm0 & Hd & Hs & Hl & Hr & Hbest).
      exists lm0, rm0. do 4 (split; [auto|]).
      intros c lm' rm' g' [Hc | ->] Hco; [eapply Hbest; eauto|].
      discriminate (outcome_fun _ _ _ Ho Hco).
    + destruct Inv as [Hs Hnone]. split; [assumption|].
      intros c o [Hc | ->] Hco; [eauto|].
      symmetry. eapply outcome_fun; eauto.
Qed.

Lemma fit_thresholds_best (feat_idx : nat) (feature_values : list R) :
  column feat_idx X = Ok feature_values ->
  length residuals = length feature_values ->
  forall (thresholds tried : list R) (st : search),
    (forall thresh, In thresh thresholds -> In thresh feature_values) ->
    StronglySorted Rlt thresholds ->
    (forall p thresh, In p tried -> In thresh thresholds -> p < thresh) ->
    best_among X residuals self (tried_at feat_idx tried) st ->
    exists st',
      fit_thresholds feature_values residuals feat_idx thresholds st = Ok st' /\
      best_among X residuals self
        (tried_at feat_idx (tried ++ thresholds)) st'.
Proof.
  intros Hcol Hlen.
  induction thresholds as [| thresh rest IH]; intros tried st Hin Hs Hlt Inv;
    cbn [fit_thresholds].
  - exists st. rewrite app_nil_r. auto.
  - inversion Hs as [| ? ? Hs' Hall]; subst.
    destruct (try_threshold_best (tried_at feat_idx tried) st feat_idx
                feature_values thresh Inv Hcol) as (st1 & -> & Inv1).
    + apply Hin. now left.
    + assumption.
    + intros c [Hc | [Hc1 Hc2]]; [now left|].
      right. split; [assumption|]. apply Hlt; [assumption | now left].
    + cbn [bind].
      destruct (IH (tried ++ [thresh]) st1) as (st2 & E2 & Inv2).
      * intros t Ht. apply Hin. now right.
      * assumption.
      * intros p t Hp Ht. apply in_app_or in Hp. destruct Hp as [Hp | [<- | []]].
        -- apply Hlt; [assumption | now right].
        -- rewrite Forall_forall in Hall. auto.
      * eapply best_among_ext; [| | exact Inv1].
        -- intros c [[Hc | [Hc1 Hc2]] | ->].
           ++ now left.
           ++ right. split; [assumption|]. apply in_or_app. now left.
           ++ right. split; [reflexivity|]. apply in_or_app. right. now left.
        -- intros c o [Hc | [Hc1 Hc2]] _.
           ++ left. now left.
           ++ apply in_app_or in Hc2. destruct Hc2 as [Hc2 | [Hc2 | []]].
              ** left. right. auto.
              ** right. destruct c. cbn in *. now subst.
      * exists st2. split; [assumption|]. now rewrite <- app_assoc in Inv2.
Qed.

Lemma fit_features_best :
  wf X -> length residuals = n_rows X ->
  forall (k feat_idx : nat) (st : search),
    (feat_idx + k = n_cols X)%nat ->
    best_among X residuals self (tried_at feat_idx []) st ->
    exists st',
      fit_features X residuals (seq feat_idx k) st = Ok st' /\
      best_among X residuals self (tried_at (feat_idx + k) []) st'.
Proof.
  intros W Hlen. induction k as [| k IH]; intros f st Hk Inv;
    cbn [seq fit_features].
  - exists st. now rewrite Nat.add_0_r.
  - destruct (column_total X f W) as (fv & Hcol & Lfv); [lia|].
    rewrite Hcol. cbn [bind].
    destruct (fit_thresholds_best f fv Hcol) with (thresholds := unique fv)
      (tried := @nil R) (st := st) as (st1 & -> & Inv1).
    + congruence.
    + intros t Ht. now apply unique_In.
    + apply unique_sorted.
    + intros p t [].
    + assumption.
    + cbn [bind app] in *.
      destruct (IH (S f) st1) as (st2 & E2 & Inv2); [lia | |].
      * eapply best_among_ext; [| | exact Inv1].
        -- intros c [Hc | [Hc _]]; left; lia.
        -- intros c o [Hc | [_ []]] (fv' & Hcol' & Hin' & _).
           destruct (Nat.eq_dec (fst c) f) as [E | E]; [|left; lia].
           right. split; [assumption|]. rewrite E, Hcol in Hcol'.
           injection Hcol' as <-. now apply unique_In.
      * exists st2. split; [assumption|].
        now replace (f + S k)%nat with (S f + k)%nat by lia.
Qed.

(** The search of [fit] on a well-formed batch ends, and its final state
    is the best among all candidates. *)
Lemma fit_best :
  wf X -> length residuals = n_rows X ->
  exists st,
    fit_features X residuals (seq 0 (n_cols X)) (None, self) = Ok st /\
    best_among X residuals self (fun _ => True) st.
Proof.
  intros W Hlen.
  destruct (fit_features_best W Hlen (n_cols X) 0 (None, self))
    as (st & E & Inv); [reflexivity | |].
  - split; [reflexivity|]. intros c o [Hc | [_ []]]. lia.
  - exists st. split; [assumption|].
    eapply best_among_ext; [| | exact Inv]; [auto|].
    intros c o _ (fv & Hcol & _). left. cbn.
    now apply column_of_Ok in Hcol.
Qed.

End StumpSearch.

Section StumpFit.

Import Np DecisionStump.
Local Open Scope R_scope.

(** [fit] on a well-formed batch returns, and the split it returns is
    either the object it was called on or one whose feature is a column
    of the batch. *)
Lemma fit_total (self : DecisionStump.t) (X : ndarray) (residuals : list R) :
  wf X -> length residuals = n_rows X ->
  exists s, fit self X residuals = Ok s /\
            (s = self \/ (feature_idx s < n_cols X)%nat).
Proof.
  intros W L. destruct (fit_best X residuals self W L) as ([best s] & E & Inv).
  unfold fit. rewrite E. cbn [bind snd]. exists s. split; [reflexivity|].
  unfold best_among in Inv. cbn [fst snd] in Inv. destruct best as [g |].
  - destruct Inv as (lm & rm & _ & (fv & Hcol & _) & _). right.
    now apply column_of_Ok in Hcol.
  - left. apply Inv.
Qed.

(** C9: on a batch of n rows with n residuals, [fit] on a fresh split
    returns a split that is a candidate the search accepted, carrying that
    candidate's two means, whose score no accepted candidate exceeds, and
    every accepted candidate with the same score has a larger feature
    index, or the same feature index and a threshold at least as large:
    the retained split is the first maximal one in the order lowest
    feature index, then lowest threshold.  When no candidate is accepted,
    the split stays as it was. *)
Theorem fit_retains_first_maximum (X : ndarray) (residuals : list R) :
  wf X -> length residuals = n_rows X ->
  exists s,
    fit init X residuals = Ok s /\
    ((s = init /\ forall c o, outcome X residuals c o -> o = None) \/
     exists gain,
       outcome X residuals (feature_idx s, threshold s)
               (Some (left_value s, right_value s, gain)) /\
       forall feat_idx thresh left_mean right_mean gain',
         outcome X residuals (feat_idx, thresh)
                 (Some (left_mean, right_mean, gain')) ->
         gain' <= gain /\
         (gain' = gain ->
          (feature_idx s < feat_idx)%nat \/
          (feature_idx s = feat_idx /\ threshold s <= thresh))).
Proof.
  intros W L. destruct (fit_best X residuals init W L) as ([best s] & E & Inv).
  unfold fit. rewrite E. cbn [bind snd]. exists s. split; [reflexivity|].
  unfold best_among in Inv. cbn [fst snd] in Inv. destruct best as [g |].
  - right. destruct Inv as (lm & rm & _ & Ho & <- & <- & Hbest).
    exists g. split; [exact Ho|].
    intros f t lm' rm' g' Hc. apply (Hbest (f, t) lm' rm' g' I Hc).
  - left. destruct Inv as [-> Hnone]. split; [reflexivity|].
    intros c o. now apply Hnone.
Qed.

Lemma fit_retains_first_maximum_witness :
  exists s,
    fit init Samples.tie_batch Samples.tie_residuals = Ok s /\
    ((s = init /\
      forall c o, outcome Samples.tie_batch Samples.tie_residuals c o ->
                  o = None) \/
     exists gain,
       outcome Samples.tie_batch Samples.tie_residuals
               (feature_idx s, threshold s)
               (Some (left_value s, right_value s, gain)) /\
       forall feat_idx thresh left_mean right_mean gain',
         outcome Samples.tie_batch Samples.tie_residuals (feat_idx, thresh)
                 (Some (left_mean, right_mean, gain')) ->
         gain' <= gain /\
         (gain' = gain ->
          (feature_idx s < feat_idx)%nat \/
          (feature_idx s = feat_idx /\ threshold s <= thresh))).
Proof.
  apply (fit_retains_first_maximum Samples.tie_batch Samples.tie_residuals).
  - repeat constructor.
  - reflexivity.
Defined.

End StumpFit.

(** ** Softmax and argmax *)

Section Softmax.

Import Np SimpleGradientBoosting.
Local Open Scope R_scope.

Lemma sum_app (a b : list R) : sum (a ++ b) = sum a + sum b.
Proof. unfold sum. induction a; cbn; lra. Qed.

Lemma sum_map_div (l : list R) (s : R) :
  sum (map (fun e => e / s) l) = sum l / s.
Proof. unfold sum. induction l as [| e l IH]; cbn; [|rewrite IH]; lra. Qed.

Lemma sum_nonneg (l : list R) : Forall (fun e => 0 < e) l -> 0 <= sum l.
Proof. unfold sum. induction 1; cbn; lra. Qed.

Lemma sum_pos (l : list R) :
  l <> [] -> Forall (fun e => 0 < e) l -> 0 < sum l.
Proof.
  intros N F. destruct F as [| e l He F]; [contradiction|].
  pose proof (sum_nonneg l F). unfold sum in *. cbn. lra.
Qed.

Lemma sum_bounds_entry (l : list R) (e : R) :
  Forall (fun e => 0 < e) l -> In e l -> e <= sum l.
Proof.
  induction 1 as [| e' l He' F IH]; cbn; [contradiction|].
  pose proof (sum_nonneg l F). unfold sum in *.
  intros [-> | Hin]; [lra|]. specialize (IH Hin). lra.
Qed.

Lemma exps_pos (row : list R) (m : R) :
  Forall (fun e => 0 < e) (map (fun v => exp (v - m)) row).
Proof. apply Forall_forall. intros e He. apply in_map_iff in He.
       destruct He as (v & <- & _). apply exp_pos. Qed.

(** The softmax of a non-empty row is a distribution of the same length. *)
Lemma softmax_row_distribution (row : list R) :
  row <> [] ->
  exists proba, softmax_row row = Ok proba /\
                length proba = length row /\ distribution proba.
Proof.
  intros N. unfold softmax_row. destruct row as [| v l]; [contradiction|].
  cbn [row_max bind]. set (m := fold_left Rmax l v).
  set (exp_x := map (fun v => exp (v - m)) (v :: l)).
  assert (P : Forall (fun e => 0 < e) exp_x) by apply exps_pos.
  assert (S : 0 < sum exp_x) by (apply sum_pos; [discriminate | exact P]).
  eexists. split; [reflexivity|]. split; [|split].
  - unfold exp_x. now rewrite !length_map.
  - apply Forall_forall. intros p Hp. apply in_map_iff in Hp.
    destruct Hp as (e & <- & He).
    pose proof (sum_bounds_entry exp_x e P He).
    rewrite Forall_forall in P. specialize (P e He).
    split.
    + apply Rlt_le, Rdiv_lt_0_compat; assumption.
    + replace 1 with (sum exp_x / sum exp_x) by (field; lra).
      unfold Rdiv. apply Rmult_le_compat_r; [|assumption].
      apply Rlt_le, Rinv_0_lt_compat. assumption.
  - rewrite sum_map_div. field. lra.
Qed.

Lemma _softmax_total (n k : nat) (x : scores) :
  (0 < k)%nat -> shaped n k x ->
  exists proba, _softmax x = Ok proba /\ shaped n k proba /\
                Forall distribution proba.
Proof.
  intros K [Hn Hk]. subst n. unfold _softmax, shaped.
  induction Hk as [| row x Hrow Hx IH]; cbn [mapM].
  - exists []. repeat split; constructor.
  - destruct (softmax_row_distribution row) as (p & -> & Lp & Dp).
    { destruct row; [cbn in Hrow; lia | discriminate]. }
    destruct IH as (ps & -> & [Lps Fps] & Dps). cbn [bind].
    exists (p :: ps). repeat split; cbn; try constructor; auto; congruence.
Qed.

(** [np.argmax]: the first position of the largest entry. *)
Lemma argmax_from_spec (l : list R) :
  forall (pre : list R) (best : R) (best_i : nat),
    (best_i < length pre)%nat ->
    nth best_i pre 0 = best ->
    (forall j, (j < length pre)%nat -> nth j pre 0 <= best) ->
    (forall j, (j < best_i)%nat -> nth j pre 0 < best) ->
    first_argmax (pre ++ l) (argmax_from best_i best (length pre) l).
Proof.
  induction l as [| v l IH]; intros pre best best_i Hi Hb Hmax Hfirst;
    cbn [argmax_from].
  - rewrite app_nil_r. subst best. repeat split; auto.
  - replace (pre ++ v :: l) with ((pre ++ [v]) ++ l)
      by now rewrite <- app_assoc.
    replace (S (length pre)) with (length (pre ++ [v]))
      by (rewrite length_app; cbn; lia).
    destruct (Rltb_spec best v) as [G | G].
    + apply IH.
      * rewrite length_app. cbn. lia.
      * rewrite app_nth2, Nat.sub_diag by lia. reflexivity.
      * intros j Hj. rewrite length_app in Hj. cbn in Hj.
        destruct (Nat.eq_dec j (length pre)) as [-> | Nj].
        -- rewrite app_nth2, Nat.sub_diag by lia. cbn. lra.
        -- rewrite app_nth1 by lia. specialize (Hmax j ltac:(lia)). lra.
      * intros j Hj. rewrite app_nth1 by lia. specialize (Hmax j Hj). lra.
    + apply IH.
      * rewrite length_app. cbn. lia.
      * rewrite app_nth1 by lia. assumption.
      * intros j Hj. rewrite length_app in Hj. cbn in Hj.
        destruct (Nat.eq_dec j (length pre)) as [-> | Nj].
        -- rewrite app_nth2, Nat.sub_diag by lia. cbn. lra.
        -- rewrite app_nth1 by lia. apply Hmax. lia.
      * intros j Hj. rewrite app_nth1 by lia. auto.
Qed.

Lemma argmax_first (row : list R) :
  row <> [] -> exists k, argmax row = Ok k /\ first_argmax row k.
Proof.
  destruct row as [| v l]; [contradiction|]. intros _.
  eexists. split; [reflexivity|].
  apply (argmax_from_spec l [v] v 0%nat); cbn; try lia; try reflexivity.
  intros [| j] Hj; [lra | lia].
Qed.

End Softmax.

(** ** Boosted ensemble: shapes and totality *)

Section EnsembleShapes.

Import Np SimpleGradientBoosting.
Local Open Scope R_scope.

Lemma shaped_repeat (n k : nat) (row : list R) :
  length row = k -> shaped n k (repeat row n).
Proof.
  intros L. split; [apply repeat_length|].
  apply Forall_forall. intros r Hr. apply repeat_spec in Hr. now subst.
Qed.

Lemma add_to_column_total (n k c : nat) (update : list R) (predictions : scores) :
  shaped n k predictions -> length update = n -> (c < k)%nat ->
  exists predictions',
    add_to_column k c update predictions = Ok predictions' /\
    shaped n k predictions'.
Proof.
  intros [Hn Hk] Hu Hc. subst n. unfold add_to_column.
  destruct (Nat.ltb_spec c k) as [_ | G]; [|lia]. revert update Hu.
  induction Hk as [| row x Hrow Hx IH]; intros [| u update] Hu;
    try discriminate Hu; cbn [add_to_rows].
  - exists []. split; [reflexivity|]. split; [reflexivity | constructor].
  - destruct (nth_error row c) as [v |] eqn:E.
    + destruct (IH update) as (x' & -> & [Lx' Fx']); [now injection Hu|].
      cbn [bind]. eexists. split; [reflexivity|].
      split; [cbn [length]; congruence|].
      constructor; [|assumption].
      rewrite length_app. cbn [length].
      rewrite length_firstn, length_skipn. lia.
    + apply nth_error_None in E. lia.
Qed.

Lemma stump_predict_total (s : DecisionStump.t) (X : ndarray) :
  wf X -> (DecisionStump.feature_idx s < n_cols X)%nat ->
  exists update, DecisionStump.predict s X = Ok update /\
                 length update = n_rows X.
Proof.
  intros W L. unfold DecisionStump.predict.
  destruct (column_total X _ W L) as (fv & -> & Lfv). cbn [bind].
  eexists. split; [reflexivity|].
  unfold where_, DecisionStump.left_mask_of. now rewrite !length_map.
Qed.

Lemma stump_predict_Ok (s : DecisionStump.t) (X : ndarray) (update : list R) :
  DecisionStump.predict s X = Ok update ->
  (DecisionStump.feature_idx s < n_cols X)%nat.
Proof.
  unfold DecisionStump.predict. intros H. inv_bind H.
  now apply column_of_Ok in E.
Qed.

Lemma sub_length (a b : list R) :
  length a = length b -> length (sub a b) = length a.
Proof.
  intros L. unfold sub. rewrite length_map, length_combine. lia.
Qed.

Lemma residuals_of_total (n k c : nat) (y_onehot predictions : scores) :
  shaped n k y_onehot -> shaped n k predictions -> (c < k)%nat ->
  exists residuals,
    residuals_of k y_onehot predictions c = Ok residuals /\
    length residuals = n.
Proof.
  intros [Ly Fy] HP Hc. unfold residuals_of.
  destruct (column_of_total k c y_onehot Fy Hc) as (yc & -> & Lyc).
  cbn [bind].
  destruct (_softmax_total n k predictions) as (proba & -> & [Lp Fp] & _);
    [lia | assumption |].
  cbn [bind].
  destruct (column_of_total k c proba Fp Hc) as (pc & -> & Lpc).
  cbn [bind]. eexists. split; [reflexivity|].
  rewrite sub_length; congruence.
Qed.

Section Fit.

Variable self : SimpleGradientBoosting.t.
Variable X : ndarray.
Variable y_onehot : scores.
Hypothesis X_wf : wf X.
Hypothesis X_cols : (0 < n_cols X)%nat.
Hypothesis y_shaped : shaped (n_rows X) (n_classes self) y_onehot.

Let stump_ok (stump : DecisionStump.t) : Prop :=
  (DecisionStump.feature_idx stump < n_cols X)%nat.

Lemma fit_class_total (predictions : scores)
    (round_estimators : list DecisionStump.t) (c : nat) :
  shaped (n_rows X) (n_classes self) predictions ->
  (c < n_classes self)%nat ->
  exists predictions' stump,
    fit_class self X y_onehot (predictions, round_estimators) c
    = Ok (predictions', round_estimators ++ [stump]) /\
    shaped (n_rows X) (n_classes self) predictions' /\ stump_ok stump.
Proof.
  intros HP Hc. unfold fit_class.
  destruct (residuals_of_total _ _ c y_onehot predictions y_shaped HP Hc)
    as (res & -> & Lres). cbn [bind].
  destruct (fit_total DecisionStump.init X res X_wf Lres) as (s & -> & Hs).
  cbn [bind].
  assert (Ok_s : stump_ok s) by (destruct Hs as [-> | Hs]; assumption).
  destruct (stump_predict_total s X X_wf Ok_s) as (u & -> & Lu). cbn [bind].
  destruct (add_to_column_total (n_rows X) (n_classes self) c
              (map (Rmult (learning_rate self)) u) predictions HP)
    as (P' & -> & HP'); [now rewrite length_map | assumption |].
  cbn [bind]. eauto.
Qed.

Lemma fit_classes_total (classes : list nat) :
  Forall (fun c => (c < n_classes self)%nat) classes ->
  forall (predictions : scores) (round_estimators : list DecisionStump.t),
    shaped (n_rows X) (n_classes self) predictions ->
    exists predictions' stumps,
      fit_classes self X y_onehot classes (predictions, round_estimators)
      = Ok (predictions', round_estimators ++ stumps) /\
      shaped (n_rows X) (n_classes self) predictions' /\
      length stumps = length classes /\ Forall stump_ok stumps.
Proof.
  induction 1 as [| c classes Hc _ IH]; intros P ests HP; cbn [fit_classes].
  - exists P, []. rewrite app_nil_r.
    split; [reflexivity|]. split; [assumption|]. split; [reflexivity|].
    constructor.
  - destruct (fit_class_total P ests c HP Hc) as (P1 & s & -> & HP1 & Hs).
    cbn [bind].
    destruct (IH P1 (ests ++ [s]) HP1) as (P2 & ss & -> & HP2 & Lss & Fss).
    exists P2, (s :: ss). rewrite <- app_assoc. cbn [app length].
    split; [reflexivity|]. split; [assumption|]. split; [congruence|].
    constructor; assumption.
Qed.

Lemma boost_total (rounds : nat) :
  forall (predictions : scores) (ests : list (list DecisionStump.t)),
    shaped (n_rows X) (n_classes self) predictions ->
    exists predictions' new,
      boost self X y_onehot rounds (predictions, ests)
      = Ok (predictions', ests ++ new) /\
      shaped (n_rows X) (n_classes self) predictions' /\
      length new = rounds /\
      Forall (fun round_estimators =>
                length round_estimators = n_classes self /\
                Forall stump_ok round_estimators) new.
Proof.
  induction rounds as [| rounds IH]; intros P ests HP; cbn [boost].
  - exists P, []. rewrite app_nil_r.
    split; [reflexivity|]. split; [assumption|]. split; [reflexivity|].
    constructor.
  - unfold fit_round. cbn [fst snd].
    destruct (fit_classes_total (seq 0 (n_classes self))) with
      (predictions := P) (round_estimators := @nil DecisionStump.t)
      as (P1 & ss & -> & HP1 & Lss & Fss).
    { apply Forall_forall. intros c Hc. apply in_seq in Hc. lia. }
    { assumption. }
    cbn [bind app].
    destruct (IH P1 (ests ++ [ss]) HP1) as (P2 & new & -> & HP2 & Ln & Fn).
    exists P2, (ss :: new). rewrite <- app_assoc. cbn [app length].
    split; [reflexivity|]. split; [assumption|]. split; [congruence|].
    constructor; [|assumption]. split; [|assumption].
    now rewrite Lss, length_seq.
Qed.

End Fit.

End EnsembleShapes.

Section EnsembleFit.

Import Np SimpleGradientBoosting.
Local Open Scope R_scope.

Lemma one_hot_total (n k : nat) (y : list Z) :
  (length y <= n)%nat ->
  exists y_onehot, one_hot n k y = Ok y_onehot /\ shaped n k y_onehot.
Proof.
  revert n. induction y as [| label y IH]; intros n L; cbn [one_hot].
  - destruct n; eexists; (split; [reflexivity|]);
      apply shaped_repeat, repeat_length.
  - destruct n as [| n]; [cbn in L; lia|].
    destruct (IH n) as (Y & -> & [LY FY]); [cbn in L; lia|]. cbn [bind].
    eexists. split; [reflexivity|]. split; [cbn; congruence|].
    constructor; [|assumption].
    unfold one_hot_row. now rewrite length_map, length_seq.
Qed.

Lemma column_means_total (n k : nat) (y_onehot : scores) :
  shaped n k y_onehot ->
  exists initial, column_means k y_onehot = Ok initial /\
                  n_priors initial = k /\
                  ((0 < n)%nat -> exists v, initial = Priors v) /\
                  (n = 0%nat -> initial = NaNPriors k).
Proof.
  intros [L F]. unfold column_means.
  destruct y_onehot as [| row0 rest].
  - exists (NaNPriors k). cbn in L.
    split; [reflexivity|]. split; [reflexivity|].
    split; [intros; lia | reflexivity].
  - set (y_onehot := row0 :: rest) in *.
    destruct (mapM_total
                (fun c => col <- column_of k c y_onehot ;; mean col)
                (seq 0 k)) as (initial & E).
    + apply Forall_forall. intros c Hc. apply in_seq in Hc.
      destruct (column_of_total k c y_onehot F) as (col & -> & Lcol); [lia|].
      cbn [bind]. apply mean_total. rewrite Lcol. unfold y_onehot.
      cbn [length]. lia.
    + exists (Priors initial). rewrite E. cbn [bind n_priors].
      split; [reflexivity|].
      apply mapM_Ok_length in E. rewrite length_seq in E.
      split; [assumption|]. split; [eauto|].
      intros N. rewrite N in L. discriminate L.
Qed.

Lemma tile_shaped (n k : nat) (initial : priors) :
  n_priors initial = k ->
  ((0 < n)%nat -> exists v, initial = Priors v) ->
  shaped n k (tile initial n).
Proof.
  intros L H. destruct initial as [v | k']; cbn [tile n_priors] in *.
  - now apply shaped_repeat.
  - destruct n as [| n]; [split; [reflexivity | constructor]|].
    destruct H as [v Hv]; [lia | discriminate Hv].
Qed.

(** [fit] on a batch with at least one column, and at most one label per
    row, returns an ensemble that has the rounds it had plus one round
    per estimator; its priors are numbers when the batch has a row and
    NaN when it has none. *)
Lemma fit_total_ensemble (self : SimpleGradientBoosting.t) (X : ndarray)
    (y : list Z) :
  wf X -> (0 < n_cols X)%nat ->
  (length y <= n_rows X)%nat ->
  exists initial new,
    fit self X y
    = Ok (mk (n_estimators self) (learning_rate self) (n_classes self)
             (estimators self ++ new) (Some initial)) /\
    n_priors initial = n_classes self /\
    ((0 < n_rows X)%nat -> exists v, initial = Priors v) /\
    (n_rows X = 0%nat -> initial = NaNPriors (n_classes self)) /\
    length new = n_estimators self /\
    Forall (fun round_estimators =>
              length round_estimators = n_classes self /\
              Forall (fun stump =>
                        (DecisionStump.feature_idx stump < n_cols X)%nat)
                     round_estimators) new.
Proof.
  intros W C L. unfold fit, fit_scores. cbv zeta.
  destruct (one_hot_total (n_rows X) (n_classes self) y L) as (Y & -> & HY).
  cbn [bind].
  destruct (column_means_total _ _ Y HY) as (initial & -> & Li & Hpos & Hnan).
  cbn [bind].
  destruct (boost_total self X Y W C HY (n_estimators self)
              (tile initial (n_rows X)) (estimators self))
    as (P' & new & E & _ & Ln & Fn).
  { now apply tile_shaped. }
  exists initial, new. rewrite E. cbn [bind fst]. auto 10.
Qed.

(** What a successful [fit] leaves, whatever the batch. *)
Lemma one_hot_Ok_length (n k : nat) (y : list Z) (y_onehot : scores) :
  one_hot n k y = Ok y_onehot -> length y_onehot = n.
Proof.
  revert n y_onehot. induction y as [| label y IH]; intros n Y H;
    cbn [one_hot] in H.
  - injection H as <-. apply repeat_length.
  - destruct n as [| n].
    + destruct (valid_label k label); [discriminate H | now apply IH].
    + inv_bind H. injection H as <-. cbn [length]. f_equal. now apply IH.
Qed.

Lemma column_means_Ok (k : nat) (y_onehot : scores) (initial : priors) :
  column_means k y_onehot = Ok initial ->
  n_priors initial = k /\
  (y_onehot <> [] -> exists v, initial = Priors v).
Proof.
  unfold column_means. destruct y_onehot as [| row0 rest]; intros H.
  - injection H as <-. split; [reflexivity | congruence].
  - inv_bind H. injection H as <-. cbn [n_priors].
    apply mapM_Ok_length in E. rewrite length_seq in E. eauto.
Qed.

Lemma fit_class_Ok (self : SimpleGradientBoosting.t) (X : ndarray)
    (y_onehot : scores) (st st' : scores * list DecisionStump.t) (c : nat) :
  fit_class self X y_onehot st c = Ok st' ->
  exists stump, snd st' = snd st ++ [stump] /\
                (DecisionStump.feature_idx stump < n_cols X)%nat.
Proof.
  unfold fit_class. destruct st as [P ests]. intros H.
  repeat inv_bind H. injection H as <-. cbn [snd].
  eexists. split; [reflexivity|]. eapply stump_predict_Ok; eassumption.
Qed.

Lemma fit_classes_Ok (self : SimpleGradientBoosting.t) (X : ndarray)
    (y_onehot : scores) (classes : list nat) :
  forall st st',
    fit_classes self X y_onehot classes st = Ok st' ->
    exists stumps,
      snd st' = snd st ++ stumps /\ length stumps = length classes /\
      Forall (fun stump => (DecisionStump.feature_idx stump < n_cols X)%nat)
             stumps.
Proof.
  induction classes as [| c classes IH]; intros st st' H; cbn [fit_classes] in H.
  - injection H as <-. exists []. rewrite app_nil_r. repeat split. constructor.
  - inv_bind H. apply fit_class_Ok in E. destruct E as (s & Es & Hs).
    apply IH in H. destruct H as (ss & Ess & Lss & Fss).
    exists (s :: ss). rewrite Ess, Es, <- app_assoc. cbn [app length].
    split; [reflexivity|]. split; [congruence|]. constructor; assumption.
Qed.

Lemma boost_Ok (self : SimpleGradientBoosting.t) (X : ndarray)
    (y_onehot : scores) (rounds : nat) :
  forall st st',
    boost self X y_onehot rounds st = Ok st' ->
    exists new,
      snd st' = snd st ++ new /\ length new = rounds /\
      Forall (fun round_estimators =>
                length round_estimators = n_classes self /\
                Forall (fun stump =>
                          (DecisionStump.feature_idx stump < n_cols X)%nat)
                       round_estimators) new.
Proof.
  induction rounds as [| rounds IH]; intros st st' H; cbn [boost] in H.
  - injection H as <-. exists []. rewrite app_nil_r. repeat split. constructor.
  - inv_bind H. destruct a as [P1 ss]. unfold fit_round in E.
    apply fit_classes_Ok in E. destruct E as (ss' & Ess & Lss & Fss).
    cbn [snd app] in Ess. subst ss'.
    apply IH in H. destruct H as (new & En & Ln & Fn). cbn [snd] in En.
    exists (ss :: new). rewrite En, <- app_assoc. cbn [app length].
    split; [reflexivity|]. split; [congruence|].
    constructor; [|assumption]. split; [|assumption].
    now rewrite Lss, length_seq.
Qed.

Lemma fit_Ok_well_formed (self fitted : SimpleGradientBoosting.t)
    (X : ndarray) (y : list Z) :
  estimators self = [] ->
  fit self X y = Ok fitted ->
  n_classes fitted = n_classes self /\
  learning_rate fitted = learning_rate self /\
  length (estimators fitted) = n_estimators self /\
  well_formed (n_cols X) fitted.
Proof.
  intros He H. unfold fit, fit_scores in H. cbv zeta in H.
  inv_bind H. injection H as <-. repeat inv_bind E.
  destruct a2 as [P' ests]. injection E as <-. cbn [fst].
  apply boost_Ok in E2. destruct E2 as (new & En & Ln & Fn).
  cbn [snd] in En. rewrite He in En. cbn [app] in En. subst ests.
  unfold well_formed. cbn [n_classes learning_rate estimators
                            initial_predictions].
  repeat split; auto.
  exists a1. split; [reflexivity|]. now apply column_means_Ok in E1.
Qed.

(** The priors of a successful [fit] are numbers exactly when the batch
    has a row. *)
Lemma fit_Ok_priors (self fitted : SimpleGradientBoosting.t) (X : ndarray)
    (y : list Z) :
  fit self X y = Ok fitted ->
  ((0 < n_rows X)%nat ->
   exists v, initial_predictions fitted = Some (Priors v) /\
             length v = n_classes self) /\
  (n_rows X = 0%nat ->
   initial_predictions fitted = Some (NaNPriors (n_classes self))).
Proof.
  intros H. unfold fit, fit_scores in H. cbv zeta in H.
  inv_bind H. injection H as <-. repeat inv_bind E.
  destruct a2 as [P' ests]. injection E as <-.
  cbn [fst initial_predictions].
  apply one_hot_Ok_length in E0.
  destruct (column_means_Ok _ _ _ E1) as (Lp & Hrows).
  destruct a0 as [| row0 rest]; cbn [length] in E0.
  - cbn [column_means] in E1. injection E1 as <-.
    split; [intros; lia | reflexivity].
  - destruct (Hrows ltac:(discriminate)) as (v & ->). cbn [n_priors] in Lp.
    split; [eauto | intros; lia].
Qed.

End EnsembleFit.

(** ** Boosted ensemble: prediction *)

Section EnsemblePredict.

Import Np SimpleGradientBoosting.
Local Open Scope R_scope.

Variable self : SimpleGradientBoosting.t.
Variable X : ndarray.
Hypothesis X_wf : wf X.

Lemma add_round_total (round_estimators : list DecisionStump.t) :
  Forall (fun stump => (DecisionStump.feature_idx stump < n_cols X)%nat)
         round_estimators ->
  forall (c : nat) (predictions : scores),
    shaped (n_rows X) (n_classes self) predictions ->
    (c + length round_estimators <= n_classes self)%nat ->
    exists predictions',
      add_round self X (n_classes self) c round_estimators predictions
      = Ok predictions' /\
      shaped (n_rows X) (n_classes self) predictions'.
Proof.
  induction 1 as [| s ss Hs _ IH]; intros c P HP Hc; cbn [add_round].
  - eauto.
  - cbn [length] in Hc.
    destruct (stump_predict_total s X X_wf Hs) as (u & -> & Lu). cbn [bind].
    destruct (add_to_column_total (n_rows X) (n_classes self) c
                (map (Rmult (learning_rate self)) u) P HP)
      as (P1 & -> & HP1); [now rewrite length_map | lia |].
    cbn [bind]. apply IH; [assumption | lia].
Qed.

Lemma add_rounds_total (ests : list (list DecisionStump.t)) :
  Forall (fun round_estimators =>
            length round_estimators = n_classes self /\
            Forall (fun stump =>
                      (DecisionStump.feature_idx stump < n_cols X)%nat)
                   round_estimators) ests ->
  forall predictions : scores,
    shaped (n_rows X) (n_classes self) predictions ->
    exists predictions',
      add_rounds self X (n_classes self) ests predictions = Ok predictions' /\
      shaped (n_rows X) (n_classes self) predictions'.
Proof.
  induction 1 as [| r rs [Lr Fr] _ IH]; intros P HP; cbn [add_rounds].
  - eauto.
  - destruct (add_round_total r Fr 0 P HP) as (P1 & -> & HP1); [lia|].
    cbn [bind]. now apply IH.
Qed.

Lemma predict_proba_total :
  well_formed (n_cols X) self -> (0 < n_classes self)%nat ->
  (exists v, initial_predictions self = Some (Priors v)) ->
  exists proba,
    predict_proba self X = Ok (Finite proba) /\
    shaped (n_rows X) (n_classes self) proba /\
    Forall distribution proba.
Proof.
  intros [(p & Ep & Lp) Fe] C (initial & Ei). rewrite Ei in Ep.
  injection Ep as <-. cbn [n_priors] in Lp.
  unfold predict_proba, raw_scores. rewrite Ei, Lp.
  destruct (add_rounds_total (estimators self) Fe (repeat initial (n_rows X)))
    as (P & -> & HP); [now apply shaped_repeat|].
  cbn [bind].
  destruct (_softmax_total (n_rows X) (n_classes self) P C HP)
    as (proba & -> & H).
  cbn [bind]. eauto.
Qed.

Lemma predict_total :
  well_formed (n_cols X) self -> (0 < n_classes self)%nat ->
  (exists v, initial_predictions self = Some (Priors v)) ->
  exists proba labels,
    predict_proba self X = Ok (Finite proba) /\
    shaped (n_rows X) (n_classes self) proba /\
    Forall distribution proba /\
    predict self X = Ok labels /\
    Forall2 first_argmax proba labels.
Proof.
  intros Hwf C Hv.
  destruct (predict_proba_total Hwf C Hv) as (proba & E & HP & D).
  exists proba. unfold predict. rewrite E. cbn [bind].
  destruct HP as [L F].
  assert (A : exists labels, mapM argmax proba = Ok labels /\
                             Forall2 first_argmax proba labels).
  { clear - F C. induction F as [| row proba Hrow _ IH]; cbn [mapM].
    - exists []. split; [reflexivity | constructor].
    - destruct (argmax_first row) as (k & -> & Hk).
      { destruct row; [cbn in Hrow; lia | discriminate]. }
      destruct IH as (ks & -> & Hks). cbn [bind].
      exists (k :: ks). split; [reflexivity | now constructor]. }
  destruct A as (labels & El & Hl). exists labels.
  repeat split; assumption.
Qed.

(** On NaN priors every probability is NaN and every predicted class
    is 0. *)
Lemma predict_nan_priors (k : nat) :
  well_formed (n_cols X) self -> (0 < n_classes self)%nat ->
  initial_predictions self = Some (NaNPriors k) ->
  predict_proba self X = Ok (AllNaN (n_rows X) (n_classes self)) /\
  predict self X = Ok (repeat 0%nat (n_rows X)).
Proof.
  intros [(p & Ep & Lp) Fe] C Ei. rewrite Ei in Ep.
  injection Ep as <-. cbn [n_priors] in Lp. subst k.
  assert (E : predict_proba self X = Ok (AllNaN (n_rows X) (n_classes self))).
  { unfold predict_proba, raw_scores. rewrite Ei.
    destruct (add_rounds_total (estimators self) Fe
                (repeat (repeat 0 (n_classes self)) (n_rows X)))
      as (P & -> & HP); [apply shaped_repeat, repeat_length|].
    cbn [bind].
    destruct (Nat.eqb_spec (n_classes self) 0) as [Z | _]; [lia|].
    now rewrite andb_false_r. }
  split; [exact E|]. unfold predict. rewrite E. cbn [bind].
  destruct (Nat.eqb_spec (n_classes self) 0) as [Z | _]; [lia|].
  now rewrite andb_false_r.
Qed.

(** [predict] returns one class per row, on numbers and on NaN. *)
Lemma predict_labels_total :
  well_formed (n_cols X) self -> (0 < n_classes self)%nat ->
  exists labels, predict self X = Ok labels /\ length labels = n_rows X.
Proof.
  intros Hwf C. destruct Hwf as [(p & Ep & Lp) Fe].
  destruct p as [v | k].
  - destruct predict_total as (proba & labels & _ & [Lr _] & _ & El & F2);
      [split; eauto | assumption | eauto |].
    exists labels. split; [assumption|].
    rewrite <- Lr. symmetry. eapply Forall2_length; eassumption.
  - destruct (predict_nan_priors k) as [_ El];
      [split; eauto | assumption | assumption |].
    exists (repeat 0%nat (n_rows X)). split; [assumption|].
    apply repeat_length.
Qed.

End EnsemblePredict.

Section EnsembleProbabilities.

Import Np SimpleGradientBoosting.
Local Open Scope R_scope.

(** C7: for an ensemble of six classes returned by [fit] on a batch with
    at least one row, and an array with as many columns as the training
    batch (non-empty or not), [predict_proba] returns one row of six
    entries per input row, every entry in [0,1] and every row summing to 1
    (so within 1e-5 of 1), and [predict] returns for each row the first
    position of its largest probability, a class in 0..5. *)
Theorem predict_proba_distribution (n_estimators : nat) (learning_rate : R)
    (X : ndarray) (y : list Z) (fitted : SimpleGradientBoosting.t)
    (X' : ndarray) :
  fit (init n_estimators learning_rate 6) X y = Ok fitted ->
  (0 < n_rows X)%nat ->
  wf X' -> n_cols X' = n_cols X ->
  exists proba labels,
    predict_proba fitted X' = Ok (Finite proba) /\
    length proba = n_rows X' /\
    Forall (fun row =>
              length row = 6%nat /\
              Forall (fun p => 0 <= p <= 1) row /\
              Rabs (sum row - 1) <= 1 / 100000) proba /\
    predict fitted X' = Ok labels /\
    Forall2 (fun row k => first_argmax row k /\ (k < 6)%nat) proba labels.
Proof.
  intros Hfit Hrows W' Hcols.
  destruct (fit_Ok_priors _ _ _ _ Hfit) as [Hv _].
  destruct (Hv Hrows) as (v & Ev & _).
  apply fit_Ok_well_formed in Hfit; [|reflexivity].
  destruct Hfit as (EC & _ & _ & Hwf). cbn [n_classes init] in EC.
  rewrite <- Hcols in Hwf.
  destruct (predict_total fitted X' W' Hwf) as
    (proba & labels & Ep & [Lp Fp] & Dp & El & Hl); [lia | eauto |].
  exists proba, labels. rewrite EC in Fp.
  split; [assumption|]. split; [assumption|]. split; [|split; [assumption|]].
  - rewrite Forall_forall in *. intros row Hrow.
    destruct (Dp row Hrow) as [D1 D2]. split; [auto|]. split; [auto|].
    rewrite D2. replace (1 - 1) with 0 by ring. rewrite Rabs_R0. lra.
  - clear - Hl Fp. induction Hl as [| row k proba labels Hk _ IH];
      constructor.
    + split; [assumption|]. inversion Fp; subst. destruct Hk as [Hk _]. lia.
    + apply IH. now inversion Fp.
Qed.

Lemma predict_proba_distribution_witness :
  exists fitted proba labels,
    fit (init 50 (1 / 10) 6) Samples.small_batch Samples.small_labels
    = Ok fitted /\
    predict_proba fitted Samples.query_batch = Ok (Finite proba) /\
    length proba = 3%nat /\
    Forall (fun row =>
              length row = 6%nat /\
              Forall (fun p => 0 <= p <= 1) row /\
              Rabs (sum row - 1) <= 1 / 100000) proba /\
    predict fitted Samples.query_batch = Ok labels /\
    Forall2 (fun row k => first_argmax row k /\ (k < 6)%nat) proba labels.
Proof.
  destruct (fit_total_ensemble (init 50 (1 / 10) 6) Samples.small_batch
              Samples.small_labels) as (initial & new & E & _);
    [repeat constructor | cbn; lia | cbn; lia |].
  eexists.
  destruct (predict_proba_distribution 50 (1 / 10) Samples.small_batch
              Samples.small_labels _ Samples.query_batch E)
    as (proba & labels & H);
    [cbn; lia | repeat constructor | reflexivity |].
  exists proba, labels. split; [exact E | exact H].
Defined.

(** The claim without the condition on the training batch fails: [fit]
    on a batch without rows returns an ensemble whose priors are NaN, and
    on the three rows of [query_batch] its [predict_proba] returns NaN in
    every entry, no matrix of numbers in [0,1]; [predict] then answers
    class 0 for every row. *)
Lemma nan_priors_counterexample :
  exists fitted,
    fit (init 50 (1 / 10) 6) Samples.empty_batch [] = Ok fitted /\
    predict_proba fitted Samples.query_batch = Ok (AllNaN 3 6) /\
    predict fitted Samples.query_batch = Ok [0; 0; 0]%nat /\
    ~ (exists proba,
         predict_proba fitted Samples.query_batch = Ok (Finite proba) /\
         Forall (fun row =>
                   Forall (fun p => 0 <= p <= 1) row /\
                   Rabs (sum row - 1) <= 1 / 100000) proba).
Proof.
  destruct (fit_total_ensemble (init 50 (1 / 10) 6) Samples.empty_batch [])
    as (initial & new & E & _ & _ & Hnan & Ln & Fn);
    [constructor | cbn; lia | cbn; lia |].
  rewrite (Hnan eq_refl) in E. cbn [n_classes init estimators app] in *.
  exists (mk 50 (1 / 10) 6 new (Some (NaNPriors 6))). split; [exact E|].
  destruct (predict_nan_priors
              (mk 50 (1 / 10) 6 new (Some (NaNPriors 6))) Samples.query_batch
              ltac:(repeat constructor) 6) as [Ep El].
  - split; [exists (NaNPriors 6); split; reflexivity | exact Fn].
  - cbn. lia.
  - reflexivity.
  - split; [exact Ep|]. split; [exact El|].
    intros (proba & Ep' & _). rewrite Ep in Ep'. discriminate Ep'.
Qed.

End EnsembleProbabilities.

(** ** Model manager: the train/test split *)

Section ManagerTrain.

Import Np SmlTrainingData DisputeSmlModel Samples.
Local Open Scope R_scope.

Lemma keep_map {A B : Type} (f : A -> bool) (g : A -> B) (l : list A) :
  keep (map f l) (map g l) = map g (filter f l).
Proof.
  unfold keep. induction l as [| a l IH]; cbn; [reflexivity|].
  destruct (f a); cbn; now rewrite IH.
Qed.

Lemma valid_mask_labels (data : list SmlTrainingData.t) :
  valid_mask (map to_label data) = map valid_record data.
Proof. unfold valid_mask. now rewrite map_map. Qed.

Lemma take_total {A : Type} (a : list A) (idx : list nat) (P : A -> Prop) :
  Forall (fun i => (i < length a)%nat) idx -> Forall P a ->
  exists r, take idx a = Ok r /\ length r = length idx /\ Forall P r.
Proof.
  intros Hidx HP. unfold take.
  induction Hidx as [| i idx Hi _ IH]; cbn [mapM].
  - exists []. repeat split. constructor.
  - destruct (nth_error a i) as [v |] eqn:E.
    + destruct IH as (r & -> & Lr & Fr). cbn [bind].
      exists (v :: r). split; [reflexivity|]. split; [cbn; congruence|].
      constructor; [|assumption].
      rewrite Forall_forall in HP. apply HP. eapply nth_error_In; eassumption.
    + apply nth_error_None in E. lia.
Qed.

Lemma slice_app {A : Type} (k : Z) (a : list A) :
  slice_to k a ++ slice_from k a = a.
Proof.
  unfold slice_to, slice_from. destruct (0 <=? k)%Z; apply firstn_skipn.
Qed.

Lemma slice_nonneg {A : Type} (k : Z) (a : list A) :
  (0 <= k)%Z ->
  slice_to k a = firstn (Z.to_nat k) a /\
  slice_from k a = skipn (Z.to_nat k) a.
Proof.
  intros H. unfold slice_to, slice_from.
  destruct (Z.leb_spec 0 k); [split; reflexivity | lia].
Qed.

Lemma slice_In {A : Type} (k : Z) (a : list A) (P : A -> Prop) :
  Forall P a -> Forall P (slice_to k a) /\ Forall P (slice_from k a).
Proof.
  intros H. rewrite <- (slice_app k a) in H. now apply Forall_app in H.
Qed.

(** The successful run of [train]: when the truncated product exists,
    the test rows are the rows at [permutation[:n_test]], the training
    rows those at [permutation[n_test:]]; the model is fitted on the
    training rows and the accuracy is measured on the test rows. *)
Lemma train_success (self : DisputeSmlModel.t) (d : disk)
    (training_data : list SmlTrainingData.t) (test_split : Float64.t)
    (permutation : list nat) (n_test : Z) :
  let valid := filter valid_record training_data in
  let n := length valid in
  let test_idx := slice_to n_test permutation in
  let train_idx := slice_from n_test permutation in
  (10 <= n)%nat -> n_test_of n test_split = Ok n_test ->
  Permutation permutation (seq 0 n) ->
  exists X_train y_train X_test y_test fitted y_pred,
    take train_idx (map to_feature_vector valid) = Ok X_train /\
    take train_idx (map to_label valid) = Ok y_train /\
    take test_idx (map to_feature_vector valid) = Ok X_test /\
    take test_idx (map to_label valid) = Ok y_test /\
    SimpleGradientBoosting.fit (SimpleGradientBoosting.init 50 (1 / 10) 6)
      (mk_ndarray 12 X_train) y_train = Ok fitted /\
    SimpleGradientBoosting.predict fitted (mk_ndarray 12 X_test) = Ok y_pred /\
    train self d training_data test_split permutation
    = Ok (TrainSuccess (version self + 1) (length train_idx) (length test_idx)
            (option_map (fun a => py_round_to 2 (a * 100))
                        (accuracy_of y_pred y_test)) "success",
          mk (Some fitted) (version self + 1) (length train_idx)
             (accuracy_of y_pred y_test),
          save (mk (Some fitted) (version self + 1) (length train_idx)
                   (accuracy_of y_pred y_test)) d).
Proof.
  intros valid n test_idx train_idx Hn Hk Hperm. unfold train.
  assert (Ln : (length training_data >= n)%nat) by apply filter_length_le.
  destruct (Nat.ltb_spec (length training_data) 10) as [L | _]; [lia|].
  rewrite valid_mask_labels, !keep_map, !length_map.
  fold valid. fold n.
  destruct (Nat.ltb_spec n 10) as [L | _]; [lia|].
  rewrite Hk. cbn [bind]. unfold split_indices.
  fold test_idx. fold train_idx.
  assert (Hidx : Forall (fun i => (i < n)%nat) permutation).
  { apply Forall_forall. intros i Hi.
    apply (Permutation_in _ Hperm) in Hi. apply in_seq in Hi. lia. }
  destruct (slice_In n_test permutation _ Hidx) as [Htest_idx Htrain_idx].
  fold test_idx in Htest_idx. fold train_idx in Htrain_idx.
  assert (Hrows : Forall (fun row : list R => length row = 12%nat)
                         (map to_feature_vector valid)).
  { apply Forall_forall. intros row Hrow. apply in_map_iff in Hrow.
    destruct Hrow as (r & <- & _). reflexivity. }
  destruct (take_total (map to_feature_vector valid) train_idx
              (fun row => length row = 12%nat))
    as (X_train & EXtr & LXtr & FXtr);
    [now rewrite length_map | assumption |].
  destruct (take_total (map to_feature_vector valid) test_idx
              (fun row => length row = 12%nat))
    as (X_test & EXte & LXte & FXte);
    [now rewrite length_map | assumption |].
  destruct (take_total (map to_label valid) train_idx (fun _ => True))
    as (y_train & Eytr & Lytr & _);
    [now rewrite length_map | apply Forall_forall; auto |].
  destruct (take_total (map to_label valid) test_idx (fun _ => True))
    as (y_test & Eyte & Lyte & _);
    [now rewrite length_map | apply Forall_forall; auto |].
  rewrite EXtr, EXte, Eytr, Eyte. cbn [bind].
  destruct (fit_total_ensemble (SimpleGradientBoosting.init 50 (1 / 10) 6)
              (mk_ndarray 12 X_train) y_train)
    as (initial & new & Efit & Li & _ & _ & Lnew & Fnew);
    [exact FXtr | cbn; lia | unfold n_rows; cbn [rows]; lia |].
  rewrite Efit. cbn [bind].
  match type of Efit with _ = Ok ?m => set (fitted := m) in * end.
  destruct (predict_labels_total fitted (mk_ndarray 12 X_test))
    as (y_pred & Epred & _).
  - exact FXte.
  - split; [exists initial; split; [reflexivity | exact Li]|].
    cbn [SimpleGradientBoosting.estimators fitted SimpleGradientBoosting.init
         app]. exact Fnew.
  - cbn. lia.
  - rewrite Epred. cbn [bind].
    exists X_train, y_train, X_test, y_test, fitted, y_pred.
    rewrite LXtr, LXte. cbn [version training_samples]. auto 10.
Qed.

(** The same run, by its counts, when the truncated product lies between
    0 and the number of valid records. *)
Lemma train_success_counts (self : DisputeSmlModel.t) (d : disk)
    (training_data : list SmlTrainingData.t) (test_split : Float64.t)
    (permutation : list nat) (k : nat) :
  let n := length (filter valid_record training_data) in
  (10 <= n)%nat -> n_test_of n test_split = Ok (Z.of_nat k) -> (k <= n)%nat ->
  Permutation permutation (seq 0 n) ->
  exists fitted acc,
    train self d training_data test_split permutation
    = Ok (TrainSuccess (version self + 1) (n - k) k
            (option_map (fun a => py_round_to 2 (a * 100)) acc) "success",
          mk (Some fitted) (version self + 1) (n - k) acc,
          save (mk (Some fitted) (version self + 1) (n - k) acc) d) /\
    exists X_train y_train,
      take (skipn k permutation)
           (map to_feature_vector (filter valid_record training_data))
      = Ok X_train /\
      take (skipn k permutation)
           (map to_label (filter valid_record training_data)) = Ok y_train /\
      SimpleGradientBoosting.fit (SimpleGradientBoosting.init 50 (1 / 10) 6)
        (mk_ndarray 12 X_train) y_train = Ok fitted /\
      length X_train = (n - k)%nat.
Proof.
  intros n Hn Hk Hle Hperm.
  destruct (train_success self d training_data test_split permutation
              (Z.of_nat k) Hn Hk Hperm)
    as (X_train & y_train & X_test & y_test & fitted & y_pred
        & EXtr & Eytr & _ & _ & Efit & _ & E).
  assert (Lperm : length permutation = n).
  { rewrite (Permutation_length Hperm). apply length_seq. }
  destruct (slice_nonneg (Z.of_nat k) permutation) as [St Sf]; [lia|].
  rewrite Nat2Z.id in St, Sf. rewrite St, Sf in *.
  rewrite length_firstn, length_skipn, Lperm, Nat.min_l in E by lia.
  exists fitted, (accuracy_of y_pred y_test). split; [exact E|].
  exists X_train, y_train. split; [exact EXtr|]. split; [exact Eytr|].
  split; [exact Efit|].
  apply mapM_Ok_length in EXtr. rewrite EXtr, length_skipn, Lperm.
  reflexivity.
Qed.

End ManagerTrain.

Section ManagerSplit.

Import Np SmlTrainingData DisputeSmlModel Samples.
Local Open Scope R_scope.

(** C2 as the code has it: with n valid records (at least 10), the
    number of test rows is decided by [int(len(X) * test_split)], the
    binary64 product truncated toward zero, not rounded.  When the
    product has no integer value (NaN, an infinity) [train] raises.
    When it has the value [n_test], [train] succeeds: the test rows are
    the rows at [permutation[:n_test]] and the training rows are the rows
    at [permutation[n_test:]], the two index arrays making up the
    permutation; the model that the manager holds is the one fitted on
    exactly the training rows, and its accuracy is measured on the test
    rows.  With [n_test] between 0 and n the test set has exactly
    [n_test] rows, those at the first [n_test] positions of the permuted
    order, and the training set the remaining [n - n_test]. *)
Theorem train_test_size (self : DisputeSmlModel.t) (d : disk)
    (training_data : list SmlTrainingData.t) (test_split : Float64.t)
    (permutation : list nat) :
  let valid := filter valid_record training_data in
  let n := length valid in
  (10 <= n)%nat -> Permutation permutation (seq 0 n) ->
  (forall f, n_test_of n test_split = Fail f ->
             train self d training_data test_split permutation = Fail f) /\
  (forall n_test, n_test_of n test_split = Ok n_test ->
   let test_idx := slice_to n_test permutation in
   let train_idx := slice_from n_test permutation in
   exists X_train y_train X_test y_test fitted y_pred version acc self' d',
     train self d training_data test_split permutation
     = Ok (TrainSuccess version (length X_train) (length X_test) acc
             "success", self', d') /\
     (* the two sets of rows *)
     take test_idx (map to_feature_vector valid) = Ok X_test /\
     take test_idx (map to_label valid) = Ok y_test /\
     take train_idx (map to_feature_vector valid) = Ok X_train /\
     take train_idx (map to_label valid) = Ok y_train /\
     test_idx ++ train_idx = permutation /\
     (length X_test + length X_train = n)%nat /\
     ((0 <= n_test <= Z.of_nat n)%Z ->
      test_idx = firstn (Z.to_nat n_test) permutation /\
      train_idx = skipn (Z.to_nat n_test) permutation /\
      length X_test = Z.to_nat n_test /\
      length X_train = (n - Z.to_nat n_test)%nat) /\
     (* what is done with them *)
     SimpleGradientBoosting.fit (SimpleGradientBoosting.init 50 (1 / 10) 6)
       (mk_ndarray 12 X_train) y_train = Ok fitted /\
     SimpleGradientBoosting.predict fitted (mk_ndarray 12 X_test)
     = Ok y_pred /\
     model self' = Some fitted /\
     accuracy self' = accuracy_of y_pred y_test /\
     training_samples self' = length X_train).
Proof.
  intros valid n Hn Hperm.
  assert (Lperm : length permutation = n).
  { rewrite (Permutation_length Hperm). apply length_seq. }
  split.
  - intros f Hf. unfold train.
    assert (Ln : (length training_data >= n)%nat) by apply filter_length_le.
    destruct (Nat.ltb_spec (length training_data) 10) as [L | _]; [lia|].
    rewrite valid_mask_labels, !keep_map, !length_map.
    fold valid. fold n.
    destruct (Nat.ltb_spec n 10) as [L | _]; [lia|].
    rewrite Hf. reflexivity.
  - intros n_test Hk test_idx train_idx.
    destruct (train_success self d training_data test_split permutation
                n_test Hn Hk Hperm)
      as (X_train & y_train & X_test & y_test & fitted & y_pred
          & EXtr & Eytr & EXte & Eyte & Efit & Epred & E).
    fold valid in EXtr, Eytr, EXte, Eyte.
    fold test_idx in EXte, Eyte, E. fold train_idx in EXtr, Eytr, E.
    pose proof (mapM_Ok_length _ _ _ EXte) as Lte.
    pose proof (mapM_Ok_length _ _ _ EXtr) as Ltr.
    rewrite <- Lte, <- Ltr in E.
    exists X_train, y_train, X_test, y_test, fitted, y_pred.
    do 4 eexists. split; [exact E|].
    split; [exact EXte|]. split; [exact Eyte|].
    split; [exact EXtr|]. split; [exact Eytr|].
    split; [apply slice_app|].
    split.
    { rewrite Lte, Ltr, <- length_app. unfold test_idx, train_idx.
      now rewrite slice_app. }
    split.
    { intros [K0 K1]. rewrite Lte, Ltr. unfold test_idx, train_idx.
      destruct (slice_nonneg n_test permutation K0) as [-> ->].
      rewrite length_firstn, length_skipn, Lperm.
      repeat split; lia. }
    split; [exact Efit|]. split; [exact Epred|].
    repeat split.
Qed.

Lemma train_test_size_witness :
  exists X_train y_train X_test fitted version acc self' d',
    train init no_file (repeat sample_case 10) three_tenths (seq 0 10)
    = Ok (TrainSuccess version (length X_train) (length X_test) acc
            "success", self', d') /\
    take (firstn 3 (seq 0 10))
         (map to_feature_vector (repeat sample_case 10)) = Ok X_test /\
    take (skipn 3 (seq 0 10))
         (map to_feature_vector (repeat sample_case 10)) = Ok X_train /\
    length X_test = 3%nat /\ length X_train = 7%nat /\
    SimpleGradientBoosting.fit (SimpleGradientBoosting.init 50 (1 / 10) 6)
      (mk_ndarray 12 X_train) y_train = Ok fitted /\
    model self' = Some fitted.
Proof.
  destruct (train_test_size init no_file (repeat sample_case 10) three_tenths
              (seq 0 10)) as [_ H].
  - vm_compute. lia.
  - apply Permutation_refl.
  - destruct (H 3%Z) as (X_train & y_train & X_test & y_test & fitted
                         & y_pred & version & acc & self' & d' & E & EXte
                         & _ & EXtr & _ & _ & _ & Hk & Efit & _ & Em & _).
    + vm_compute. reflexivity.
    + destruct Hk as (_ & _ & Lte & Ltr); [vm_compute; split; discriminate|].
      exists X_train, y_train, X_test, fitted, version, acc, self', d'.
      split; [exact E|]. split; [exact EXte|]. split; [exact EXtr|].
      split; [exact Lte|]. split; [exact Ltr|]. split; [exact Efit|].
      exact Em.
Defined.

(** The truncated binary64 product on some ordinary inputs: 0.29 and 0.3
    are not binary64 numbers, and the product is rounded before it is
    truncated. *)
Lemma n_test_of_examples :
  n_test_of 11 quarter = Ok 2%Z /\
  n_test_of 100 fifth = Ok 20%Z /\
  n_test_of 100 twenty_nine_percent = Ok 28%Z /\
  n_test_of 10 three_tenths = Ok 3%Z /\
  n_test_of 10 whole = Ok 10%Z.
Proof. vm_compute. repeat split. Qed.

Lemma py_round_eleven_quarters : py_round (11 / 4) = 3%Z.
Proof.
  assert (E : Int_part (11 / 4) = 2%Z) by (symmetry; apply Int_part_spec; lra).
  unfold py_round. rewrite E. decide_reals. reflexivity.
Qed.

Lemma quarter_value : Float64.to_R quarter = 1 / 4.
Proof.
  change quarter
    with (SpecFloat.S754_finite false 4503599627370496 (-54)).
  unfold Float64.to_R. cbn [powerRZ]. rewrite pow_IZR.
  change (2 ^ Z.of_nat (Pos.to_nat 54))%Z with 18014398509481984%Z. lra.
Qed.

(** With 11 valid records and a test fraction of 0.25, a binary64 number,
    the test set has 2 rows, where [round (11 * 0.25)] is 3. *)
Lemma split_rounding_counterexample :
  py_round (INR 11 * Float64.to_R quarter) = 3%Z /\
  ~ (exists version n_train n_test acc status self' d',
       train init no_file (repeat sample_case 11) quarter (seq 0 11)
       = Ok (TrainSuccess version n_train n_test acc status, self', d') /\
       Z.of_nat n_test = py_round (INR 11 * Float64.to_R quarter)) /\
  exists version acc self' d',
    train init no_file (repeat sample_case 11) quarter (seq 0 11)
    = Ok (TrainSuccess version 9 2 acc "success", self', d').
Proof.
  destruct (train_success_counts init no_file (repeat sample_case 11) quarter
              (seq 0 11) 2) as (fitted & acc & E & _);
    [vm_compute; lia | vm_compute; reflexivity | vm_compute; lia
    | apply Permutation_refl |].
  change (length (filter valid_record (repeat sample_case 11))) with 11%nat
    in E.
  change (11 - 2)%nat with 9%nat in E.
  assert (R3 : py_round (INR 11 * Float64.to_R quarter) = 3%Z).
  { rewrite quarter_value, <- py_round_eleven_quarters. f_equal.
    rewrite INR_IZR_INZ. cbn [Z.of_nat Pos.of_succ_nat Pos.succ]. lra. }
  rewrite R3.
  split; [reflexivity|]. split.
  - intros (v & ntr & nte & a & s & self' & d' & E' & Hr).
    rewrite E in E'. injection E' as _ _ <- _. discriminate Hr.
  - eauto.
Qed.

End ManagerSplit.

(** ** Boosted ensemble: one round, class by class *)

Section RoundFacts.

Import Np SimpleGradientBoosting.
Local Open Scope R_scope.

Lemma fit_classes_app (self : SimpleGradientBoosting.t) (X : ndarray)
    (y_onehot : scores) (l1 l2 : list nat) :
  forall st,
    fit_classes self X y_onehot (l1 ++ l2) st
    = bind (fit_classes self X y_onehot l1 st)
           (fit_classes self X y_onehot l2).
Proof.
  induction l1 as [| c l1 IH]; intros st; cbn [app fit_classes bind].
  - reflexivity.
  - destruct (fit_class self X y_onehot st c); cbn [bind]; auto.
Qed.

Lemma nth_replaced (row : list R) (c j : nat) (v w : R) :
  nth_error row c = Some v ->
  nth j (firstn c row ++ w :: skipn (S c) row) 0
  = if (j =? c)%nat then w else nth j row 0.
Proof.
  revert c j. induction row as [| x row IH]; intros [| c] [| j] E;
    cbn in *; try discriminate E; try reflexivity.
  now apply IH.
Qed.

Lemma add_to_column_entry (k c : nat) :
  forall (update : list R) (predictions predictions' : scores),
    add_to_column k c update predictions = Ok predictions' ->
    forall i j,
      entry predictions' i j
      = entry predictions i j + (if (j =? c)%nat then nth i update 0 else 0).
Proof.
  unfold entry, add_to_column. destruct (c <? k)%nat; [|discriminate].
  induction update as [| u update IH]; intros [| row P] P' H i j;
    cbn [add_to_rows] in H; try discriminate H.
  - injection H as <-. destruct i; cbn; destruct j; destruct (_ =? _)%nat; lra.
  - destruct (nth_error row c) as [v |] eqn:E; [|discriminate H].
    inv_bind H. injection H as <-. destruct i as [| i]; cbn [nth].
    + rewrite (nth_replaced row c j v _ E).
      destruct (Nat.eqb_spec j c) as [-> | N]; [|lra].
      f_equal. symmetry. now apply nth_error_nth.
    + now apply IH.
Qed.

End RoundFacts.

Section RoundSequential.

Import Np SimpleGradientBoosting.
Local Open Scope R_scope.

Variable self : SimpleGradientBoosting.t.
Variable X : ndarray.
Variables y_onehot predictions : scores.
Hypothesis X_wf : wf X.
Hypothesis X_cols : (0 < n_cols X)%nat.
Hypothesis y_shaped : shaped (n_rows X) (n_classes self) y_onehot.
Hypothesis p_shaped : shaped (n_rows X) (n_classes self) predictions.

Lemma state_at_class_spec (c : nat) :
  (c <= n_classes self)%nat ->
  exists P_c stumps,
    state_at_class self X y_onehot predictions c = Ok (P_c, stumps) /\
    shaped (n_rows X) (n_classes self) P_c /\
    length stumps = c /\
    (forall i j, (i < n_rows X)%nat ->
       entry P_c i j
       = entry predictions i j
         + (if (j <? c)%nat
            then learning_rate self
                 * stump_update (nth j stumps DecisionStump.init) X i
            else 0)) /\
    (forall c', (c' < c)%nat ->
       exists P_c' residuals,
         state_at_class self X y_onehot predictions c'
         = Ok (P_c', firstn c' stumps) /\
         residuals_of (n_classes self) y_onehot P_c' c' = Ok residuals /\
         DecisionStump.fit DecisionStump.init X residuals
         = Ok (nth c' stumps DecisionStump.init)).
Proof.
  unfold state_at_class. induction c as [| c IH]; intros Hc.
  - exists predictions, []. cbn [seq fit_classes].
    split; [reflexivity|]. split; [assumption|]. split; [reflexivity|].
    split; [intros; cbn; lra | intros c' Hc'; lia].
  - destruct IH as (P_c & ss & E & HP & Lss & Hent & Hprev); [lia|].
    rewrite seq_S, fit_classes_app, E. cbn [bind Nat.add fit_classes].
    unfold fit_class.
    destruct (residuals_of_total _ _ c y_onehot P_c y_shaped HP)
      as (res & Eres & Lres); [lia|].
    rewrite Eres. cbn [bind].
    destruct (fit_total DecisionStump.init X res X_wf Lres) as (s & Es & Hs).
    rewrite Es. cbn [bind].
    assert (Ok_s : (DecisionStump.feature_idx s < n_cols X)%nat)
      by (destruct Hs as [-> | Hs]; assumption).
    destruct (stump_predict_total s X X_wf Ok_s) as (u & Eu & Lu).
    rewrite Eu. cbn [bind].
    destruct (add_to_column_total (n_rows X) (n_classes self) c
                (map (Rmult (learning_rate self)) u) P_c HP)
      as (P1 & E1 & HP1); [now rewrite length_map | lia |].
    rewrite E1. cbn [bind].
    exists P1, (ss ++ [s]).
    split; [reflexivity|]. split; [assumption|].
    split; [rewrite length_app; cbn; lia|]. split.
    + intros i j Hi.
      rewrite (add_to_column_entry _ c _ _ _ E1), (Hent i j Hi).
      destruct (Nat.eqb_spec j c) as [-> | N].
      * destruct (Nat.ltb_spec c c); [lia|].
        destruct (Nat.ltb_spec c (S c)); [|lia].
        rewrite app_nth2, Lss, Nat.sub_diag by lia. cbn [nth].
        unfold stump_update. rewrite Eu.
        rewrite (nth_indep _ 0 (learning_rate self * 0))
          by (rewrite length_map; lia).
        rewrite map_nth. lra.
      * destruct (Nat.ltb_spec j c); destruct (Nat.ltb_spec j (S c));
          try lia; [|lra].
        rewrite app_nth1 by lia. lra.
    + intros c' Hc'. destruct (Nat.eq_dec c' c) as [-> | N].
      * exists P_c, res.
        rewrite firstn_app, <- Lss, firstn_all, Nat.sub_diag. cbn [firstn].
        rewrite app_nil_r, app_nth2, Nat.sub_diag by lia. cbn [nth].
        rewrite !Lss. auto.
      * destruct (Hprev c') as (P' & r' & E' & Er' & Ef'); [lia|].
        exists P', r'.
        rewrite firstn_app, app_nth1 by lia.
        replace (c' - length ss)%nat with 0%nat by lia. cbn [firstn].
        rewrite app_nil_r. auto.
Qed.

End RoundSequential.

Section RoundTheorem.

Import Np SimpleGradientBoosting.
Local Open Scope R_scope.

(** C1 as the code has it: in a round that starts from a score matrix,
    class c's residual is the one-hot column of c minus column c of the
    softmax of the score matrix as it stands when the loop reaches c:
    the start-of-round scores in every column from c on, and in each
    column j below c the start-of-round score plus the learning rate
    times the prediction of the split just fitted for class j.  Class 0
    alone sees the start-of-round snapshot.  The split of class c is the
    fit of that residual, and the classes are processed in ascending
    order. *)
Theorem fit_round_sequential (self : SimpleGradientBoosting.t) (X : ndarray)
    (y_onehot predictions : scores) :
  wf X -> (0 < n_cols X)%nat ->
  shaped (n_rows X) (n_classes self) y_onehot ->
  shaped (n_rows X) (n_classes self) predictions ->
  exists predictions' stumps,
    fit_round self X y_onehot predictions = Ok (predictions', stumps) /\
    length stumps = n_classes self /\
    (forall i j, (i < n_rows X)%nat -> (j < n_classes self)%nat ->
       entry predictions' i j
       = entry predictions i j
         + learning_rate self
           * stump_update (nth j stumps DecisionStump.init) X i) /\
    forall c, (c < n_classes self)%nat ->
      exists P_c residuals,
        state_at_class self X y_onehot predictions c
        = Ok (P_c, firstn c stumps) /\
        (forall i j, (i < n_rows X)%nat ->
           entry P_c i j
           = entry predictions i j
             + (if (j <? c)%nat
                then learning_rate self
                     * stump_update (nth j stumps DecisionStump.init) X i
                else 0)) /\
        round_residuals self X y_onehot predictions c = Ok residuals /\
        residuals_of (n_classes self) y_onehot P_c c = Ok residuals /\
        DecisionStump.fit DecisionStump.init X residuals
        = Ok (nth c stumps DecisionStump.init) /\
        (c = 0%nat ->
         P_c = predictions /\
         snapshot_residuals self y_onehot predictions c = Ok residuals).
Proof.
  intros W C HY HP.
  destruct (state_at_class_spec self X y_onehot predictions W C HY HP
              (n_classes self)) as (P' & ss & E & _ & Lss & Hent & Hprev);
    [lia|].
  exists P', ss. split; [exact E|]. split; [exact Lss|]. split.
  - intros i j Hi Hj. rewrite (Hent i j Hi).
    destruct (Nat.ltb_spec j (n_classes self)); [reflexivity | lia].
  - intros c Hc.
    destruct (Hprev c Hc) as (P_c & res & Ec & Eres & Efit).
    exists P_c, res. split; [exact Ec|]. split.
    + destruct (state_at_class_spec self X y_onehot predictions W C HY HP c)
        as (P2 & ss2 & E2 & _ & Lss2 & Hent2 & _); [lia|].
      rewrite Ec in E2. injection E2 as <- Ess.
      intros i j Hi. rewrite (Hent2 i j Hi).
      destruct (Nat.ltb_spec j c); [|reflexivity].
      rewrite <- Ess. rewrite nth_firstn.
      destruct (Nat.ltb_spec j c); [reflexivity | lia].
    + split; [unfold round_residuals; rewrite Ec; exact Eres|].
      split; [exact Eres|]. split; [exact Efit|].
      intros ->. unfold state_at_class in Ec. cbn [seq fit_classes] in Ec.
      injection Ec as <-. split; [reflexivity | exact Eres].
Qed.

End RoundTheorem.

(** ** Evaluation on concrete batches *)

Lemma Rltb_true (a b : R) : (a < b)%R -> Np.Rltb a b = true.
Proof. intros. now destruct (Rltb_spec a b). Qed.

Lemma Rltb_false (a b : R) : ~ (a < b)%R -> Np.Rltb a b = false.
Proof. intros. now destruct (Rltb_spec a b). Qed.

Lemma Rleb_true (a b : R) : (a <= b)%R -> Np.Rleb a b = true.
Proof. intros. now destruct (Rleb_spec a b). Qed.

Lemma Rleb_false (a b : R) : ~ (a <= b)%R -> Np.Rleb a b = false.
Proof. intros. now destruct (Rleb_spec a b). Qed.

Ltac compare_reals :=
  match goal with
  | |- context [Np.Rltb ?a ?b] =>
      first [rewrite (Rltb_true a b) by lra | rewrite (Rltb_false a b) by lra]
  | |- context [Np.Rleb ?a ?b] =>
      first [rewrite (Rleb_true a b) by lra | rewrite (Rleb_false a b) by lra]
  end.

(** Runs the search of a split on a batch of concrete feature values. *)
Ltac eval_stump :=
  repeat first
    [ compare_reals
    | progress cbn [Np.insert_unique fold_right map negb orb andb Np.count
                    filter length Nat.ltb Nat.leb bind mapM nth_error
                    Np.select Np.mean Np.sum Np.where_ Np.sub combine fst snd
                    DecisionStump.fit_thresholds DecisionStump.fit_features
                    DecisionStump.improves DecisionStump.gain_of
                    DecisionStump.feature_idx DecisionStump.threshold
                    DecisionStump.left_value DecisionStump.right_value
                    Np.column Np.column_of Np.n_cols Np.rows seq INR]
    | progress unfold Np.unique, DecisionStump.try_threshold,
        DecisionStump.evaluate, DecisionStump.too_small,
        DecisionStump.left_mask_of ].

Section ConcreteStumps.

Import Np DecisionStump Samples.
Local Open Scope R_scope.

(** On [tie_batch] both features offer the same best partition; the
    search keeps feature 0 with threshold 0. *)
Lemma fit_tie_batch :
  fit init tie_batch tie_residuals
  = Ok (mk 0 0 ((1 + (1 + 0)) / (1 + 1)) ((0 + (0 + 0)) / (1 + 1))).
Proof. unfold fit, tie_batch, tie_residuals. eval_stump. reflexivity. Qed.

(** On [small_batch] the only accepted candidate separates the first two
    rows from the last two. *)
Lemma fit_small_batch (a b c d : R) :
  fit init small_batch [a; b; c; d]
  = Ok (mk 0 0 ((a + (b + 0)) / (1 + 1)) ((c + (d + 0)) / (1 + 1))).
Proof. unfold fit, small_batch. eval_stump. reflexivity. Qed.

Lemma predict_small_batch (left_mean right_mean : R) :
  predict (mk 0 0 left_mean right_mean) small_batch
  = Ok [left_mean; left_mean; right_mean; right_mean].
Proof. unfold predict, small_batch. eval_stump. reflexivity. Qed.

End ConcreteStumps.

Section PlainSoftmax.

Import Np SimpleGradientBoosting.
Local Open Scope R_scope.

Lemma sum_map_exp_shift (row : list R) (m : R) :
  sum (map (fun v => exp (v - m)) row) = sum (map exp row) / exp m.
Proof.
  pose proof (exp_pos m).
  unfold sum. induction row as [| v row IH]; cbn [map fold_right].
  - field. lra.
  - rewrite IH. unfold Rminus at 1. rewrite exp_plus, exp_Ropp. field. lra.
Qed.

(** The shift by the row maximum does not change the value: the softmax
    of the source is the plain softmax. *)
Lemma softmax_row_plain (row : list R) :
  row <> [] ->
  softmax_row row = Ok (map (fun v => exp v / sum (map exp row)) row).
Proof.
  intros N. unfold softmax_row. destruct row as [| v0 l]; [contradiction|].
  cbn [row_max bind]. set (m := fold_left Rmax l v0). set (row := v0 :: l).
  f_equal. rewrite map_map, sum_map_exp_shift.
  assert (S : 0 < sum (map exp row)).
  { apply sum_pos; [discriminate|]. apply Forall_forall. intros e He.
    apply in_map_iff in He. destruct He as (v & <- & _). apply exp_pos. }
  pose proof (exp_pos m).
  apply map_ext. intros v. unfold Rminus. rewrite exp_plus, exp_Ropp.
  field. split; lra.
Qed.

Lemma softmax_drop (e s t : R) :
  0 < e -> 0 < s -> s < t -> 0 - e / s < 0 - e / t.
Proof.
  intros He Hs Hst.
  assert (/ t < / s) by (apply Rinv_lt_contravar; nra).
  unfold Rdiv. nra.
Qed.

End PlainSoftmax.

(** Runs the loop over classes on [small_batch]. *)
Ltac eval_round :=
  repeat first
    [ rewrite softmax_row_plain by discriminate
    | rewrite fit_small_batch
    | rewrite predict_small_batch
    | progress cbn [bind mapM map fst snd seq
                    SimpleGradientBoosting.fit_classes Np.column_of nth_error
                    Nat.ltb Nat.leb Np.sub combine
                    SimpleGradientBoosting.add_to_rows firstn skipn app
                    SimpleGradientBoosting.n_classes
                    SimpleGradientBoosting.learning_rate
                    SimpleGradientBoosting.init repeat]
    | progress unfold SimpleGradientBoosting.fit_class,
        SimpleGradientBoosting.residuals_of,
        SimpleGradientBoosting._softmax,
        SimpleGradientBoosting.add_to_column ].

Section RoundOnSmallBatch.

Import Np SimpleGradientBoosting Samples.
Local Open Scope R_scope.

Variable rounds : nat.
Variables i0 i1 i2 i3 i4 i5 : R.

Let self := init rounds (1 / 10) 6.
Let start : scores := repeat [i0; i1; i2; i3; i4; i5] 4.

Ltac bound_scores :=
  pose proof (exp_pos i0); pose proof (exp_pos i1); pose proof (exp_pos i2);
  pose proof (exp_pos i3); pose proof (exp_pos i4); pose proof (exp_pos i5);
  unfold sum; cbn [fold_right];
  set (S := exp i0 + (exp i1 + (exp i2 + (exp i3 + (exp i4 + (exp i5 + 0))))));
  assert (HS : exp i0 < S) by (unfold S; lra);
  set (p := exp i0 / S);
  assert (Hp : p < 1)
    by (unfold p; apply (Rmult_lt_reg_r S); [lra|];
        unfold Rdiv; rewrite Rmult_assoc, Rinv_l by lra; lra);
  set (delta := 1 / 10 * ((1 - p + (1 - p + 0)) / (1 + 1)));
  assert (Hd : 0 < delta) by (unfold delta; lra);
  assert (He : exp i0 < exp (i0 + delta)) by (apply exp_increasing; lra).

(** In a round on [small_batch], whatever the scores it starts from, the
    residual formed for class 1 is larger in its first row than the
    residual of the start-of-round probabilities: class 0 has already
    raised its own score in that row. *)
Lemma round_residuals_small_batch :
  exists r_code r_spec,
    round_residuals self small_batch small_onehot start 1 = Ok r_code /\
    snapshot_residuals self small_onehot start 1 = Ok r_spec /\
    nth 0 r_spec 0 < nth 0 r_code 0.
Proof.
  unfold round_residuals, snapshot_residuals, state_at_class, self, start,
    small_onehot.
  do 2 eexists. split; [eval_round; reflexivity|].
  split; [eval_round; reflexivity|].
  cbn [nth fst snd]. bound_scores.
  apply softmax_drop; try lra. unfold S. lra.
Qed.

(** The split of class 1 when class 0 is processed before it, and when
    class 1 is processed first. *)
Lemma class_order_small_batch :
  exists P stumps P' stumps',
    fit_classes self small_batch small_onehot [0; 1]%nat (start, [])
    = Ok (P, stumps) /\
    fit_classes self small_batch small_onehot [1]%nat (start, [])
    = Ok (P', stumps') /\
    shaped 4 6 P /\ shaped 4 6 P' /\
    length stumps = 2%nat /\ length stumps' = 1%nat /\
    DecisionStump.left_value (nth 0 stumps' DecisionStump.init)
    < DecisionStump.left_value (nth 1 stumps DecisionStump.init).
Proof.
  unfold self, start, small_onehot.
  do 4 eexists. split; [eval_round; reflexivity|].
  split; [eval_round; reflexivity|].
  split; [split; [reflexivity | repeat constructor]|].
  split; [split; [reflexivity | repeat constructor]|].
  split; [reflexivity|]. split; [reflexivity|].
  cbn [nth DecisionStump.left_value]. bound_scores.
  match goal with
  | |- (?a + (?a + 0)) / (1 + 1) < (?b + (?b + 0)) / (1 + 1) =>
      assert (a < b); [|lra]
  end.
  apply softmax_drop; try lra. unfold S. lra.
Qed.

End RoundOnSmallBatch.

Section RoundClaims.

Import Np SimpleGradientBoosting Samples.
Local Open Scope R_scope.

Lemma small_batch_wf : wf small_batch.
Proof. repeat constructor. Qed.

Lemma small_onehot_shaped : shaped 4 6 small_onehot.
Proof. split; [reflexivity | repeat constructor]. Qed.

Lemma fit_round_sequential_witness :
  exists predictions' stumps,
    fit_round (init 50 (1 / 10) 6) small_batch small_onehot
      (repeat [1 / 2; 1 / 2; 0; 0; 0; 0] 4)
    = Ok (predictions', stumps) /\
    length stumps = 6%nat /\
    exists residuals,
      snapshot_residuals (init 50 (1 / 10) 6) small_onehot
        (repeat [1 / 2; 1 / 2; 0; 0; 0; 0] 4) 0 = Ok residuals /\
      DecisionStump.fit DecisionStump.init small_batch residuals
      = Ok (nth 0 stumps DecisionStump.init).
Proof.
  destruct (fit_round_sequential (init 50 (1 / 10) 6) small_batch small_onehot
              (repeat [1 / 2; 1 / 2; 0; 0; 0; 0] 4))
    as (P' & stumps & E & L & _ & H).
  - exact small_batch_wf.
  - cbn. lia.
  - exact small_onehot_shaped.
  - split; [reflexivity | repeat constructor].
  - exists P', stumps. split; [exact E|]. split; [exact L|].
    destruct (H 0%nat) as (P0 & res & _ & _ & _ & _ & Efit & H0);
      [cbn; lia|].
    exists res. split; [now apply H0 | exact Efit].
Defined.

(** The first round of [fit] on [small_batch] with labels 0, 0, 1, 1,
    in the manager's configuration.  The residual the code forms for
    class 1 is not the one-hot column minus the softmax column of the
    scores at the start of the round; and the split fitted for class 1
    when the classes are processed in the order 1, 0, 2, 3, 4, 5 is not
    the one fitted in the order 0, 1, 2, 3, 4, 5. *)
Lemma snapshot_round_counterexample :
  exists initial,
    one_hot (n_rows small_batch) 6 small_labels = Ok small_onehot /\
    column_means 6 small_onehot = Ok (Priors initial) /\
    (exists r_code r_spec,
       round_residuals (init 50 (1 / 10) 6) small_batch small_onehot
         (repeat initial 4) 1 = Ok r_code /\
       snapshot_residuals (init 50 (1 / 10) 6) small_onehot
         (repeat initial 4) 1 = Ok r_spec /\
       r_code <> r_spec) /\
    (exists P stumps P' stumps',
       fit_classes (init 50 (1 / 10) 6) small_batch small_onehot
         [0; 1; 2; 3; 4; 5]%nat (repeat initial 4 : scores, [])
       = Ok (P, stumps) /\
       fit_classes (init 50 (1 / 10) 6) small_batch small_onehot
         [1; 0; 2; 3; 4; 5]%nat (repeat initial 4 : scores, [])
       = Ok (P', stumps') /\
       nth 1 stumps DecisionStump.init <> nth 0 stumps' DecisionStump.init).
Proof.
  eexists. split; [reflexivity|]. split; [cbn; reflexivity|]. split.
  - edestruct (round_residuals_small_batch 50) as (rc & rs & E1 & E2 & Hlt).
    exists rc, rs. split; [exact E1|]. split; [exact E2|].
    intros Heq. rewrite Heq in Hlt. lra.
  - edestruct (class_order_small_batch 50)
      as (P & ss & P' & ss' & E & E' & HP & HP' & L & L' & Hlt).
    destruct (fit_classes_total (init 50 (1 / 10) 6) small_batch small_onehot
                small_batch_wf) with (classes := [2; 3; 4; 5]%nat)
      (predictions := P) (round_estimators := ss)
      as (P2 & more & E2 & _); [cbn; lia | exact small_onehot_shaped
                                | repeat constructor; cbn; lia | exact HP |].
    destruct (fit_classes_total (init 50 (1 / 10) 6) small_batch small_onehot
                small_batch_wf) with (classes := [0; 2; 3; 4; 5]%nat)
      (predictions := P') (round_estimators := ss')
      as (P2' & more' & E2' & _); [cbn; lia | exact small_onehot_shaped
                                  | repeat constructor; cbn; lia | exact HP' |].
    exists P2, (ss ++ more), P2', (ss' ++ more').
    split; [|split].
    + change [0; 1; 2; 3; 4; 5]%nat with ([0; 1] ++ [2; 3; 4; 5])%nat.
      rewrite fit_classes_app, E. exact E2.
    + change [1; 0; 2; 3; 4; 5]%nat with ([1] ++ [0; 2; 3; 4; 5])%nat.
      rewrite fit_classes_app, E'. exact E2'.
    + rewrite !app_nth1 by lia. intros Heq. rewrite Heq in Hlt. lra.
Qed.

End RoundClaims.

(** * Further properties of the code *)

(** ** Threshold split: prediction and ill-shaped residuals *)

Section StumpEdges.

Import Np DecisionStump.
Local Open Scope R_scope.

(** X1: on an array of n rows, [predict] of a split whose feature is a
    column of the array returns n values, each one of the two branch
    constants; with a feature index outside the columns it is an
    IndexError. *)
Theorem predict_branch_values (s : DecisionStump.t) (X : ndarray) :
  wf X ->
  ((feature_idx s < n_cols X)%nat ->
   exists update,
     predict s X = Ok update /\ length update = n_rows X /\
     Forall (fun v => v = left_value s \/ v = right_value s) update) /\
  ((n_cols X <= feature_idx s)%nat -> predict s X = Fail IndexError).
Proof.
  intros W. split.
  - intros L. unfold predict.
    destruct (column_total X _ W L) as (fv & -> & Lfv). cbn [bind].
    eexists. split; [reflexivity|]. split.
    + unfold where_, left_mask_of. now rewrite !length_map.
    + unfold where_. apply Forall_forall. intros v Hv.
      apply in_map_iff in Hv. destruct Hv as ([|] & <- & _); auto.
  - intros G. unfold predict, column, column_of.
    destruct (Nat.ltb_spec (feature_idx s) (n_cols X)); [lia | reflexivity].
Qed.

Lemma predict_branch_values_witness :
  exists update,
    predict (mk 1 3 7 9) Samples.tie_batch = Ok update /\
    length update = 4%nat /\
    Forall (fun v => v = 7 \/ v = 9) update.
Proof.
  destruct (predict_branch_values (mk 1 3 7 9) Samples.tie_batch) as [H _].
  - repeat constructor.
  - apply H. cbn. lia.
Defined.

Lemma select_mismatch (mask : list bool) (a : list R) :
  length mask <> length a -> select mask a = Fail IndexError.
Proof.
  revert a. induction mask as [| b mask IH]; intros [| v a] L;
    cbn in *; try reflexivity; try contradiction.
  rewrite IH by lia. reflexivity.
Qed.

Lemma evaluate_mismatch (feature_values residuals : list R) (thresh : R) :
  length residuals <> length feature_values ->
  too_small feature_values thresh = false ->
  evaluate feature_values residuals thresh = Fail IndexError.
Proof.
  intros L A. unfold evaluate. rewrite A, select_mismatch; [reflexivity|].
  unfold left_mask_of. rewrite length_map. auto.
Qed.

Lemma fit_thresholds_mismatch (feature_values residuals : list R)
    (feat_idx : nat) (thresholds : list R) :
  length residuals <> length feature_values ->
  (exists thresh, In thresh thresholds /\
                  too_small feature_values thresh = false) ->
  forall st,
    fit_thresholds feature_values residuals feat_idx thresholds st
    = Fail IndexError.
Proof.
  intros L. induction thresholds as [| t rest IH]; intros (t0 & Hin & A) st.
  - destruct Hin.
  - cbn [fit_thresholds]. unfold try_threshold.
    destruct (too_small feature_values t) eqn:At.
    + rewrite evaluate_rejected by assumption. cbn [bind].
      apply IH. exists t0. split; [|assumption].
      destruct Hin as [-> | Hin]; [congruence | assumption].
    + rewrite evaluate_mismatch by assumption. reflexivity.
Qed.

Lemma fit_features_mismatch (X : ndarray) (residuals : list R) :
  wf X -> length residuals <> n_rows X ->
  forall (k feat_idx : nat),
    (feat_idx + k <= n_cols X)%nat ->
    (exists f feature_values thresh,
       (feat_idx <= f < feat_idx + k)%nat /\
       column f X = Ok feature_values /\ In thresh feature_values /\
       too_small feature_values thresh = false) ->
    forall st,
      fit_features X residuals (seq feat_idx k) st = Fail IndexError.
Proof.
  intros W L. induction k as [| k IH];
    intros f0 Hk (f & fv & t & Hf & Hcol & Hin & A) st; [lia|].
  cbn [seq fit_features].
  destruct (column_total X f0 W) as (fv0 & E0 & L0); [lia|].
  rewrite E0. cbn [bind].
  destruct (Nat.eq_dec f f0) as [-> | N].
  - rewrite Hcol in E0. injection E0 as <-.
    rewrite fit_thresholds_mismatch; [reflexivity | congruence |].
    exists t. split; [now apply unique_In | assumption].
  - destruct (fit_thresholds fv0 residuals f0 (unique fv0) st) as [st' | e] eqn:E.
    + cbn [bind]. apply IH; [lia|]. exists f, fv, t. repeat split; auto; lia.
    + cbn [bind]. f_equal.
      (* a failure of an earlier feature is an IndexError as well *)
      clear - E L L0.
      assert (Hlen : length residuals <> length fv0) by congruence.
      revert st E. induction (unique fv0) as [| t rest IHr]; intros st E;
        cbn [fit_thresholds] in E; [discriminate|].
      unfold try_threshold in E.
      destruct (too_small fv0 t) eqn:At.
      * rewrite evaluate_rejected in E by assumption. cbn [bind] in E. eauto.
      * rewrite evaluate_mismatch in E by assumption. cbn [bind] in E.
        congruence.
Qed.

(** X2: when the residual vector is not as long as the batch has rows and
    at least one candidate passes the two-rows-per-side test, [fit] ends
    with the IndexError of the boolean-mask subscript. *)
Theorem fit_residual_length_mismatch (self : DecisionStump.t) (X : ndarray)
    (residuals : list R) :
  wf X -> length residuals <> n_rows X ->
  (exists feat_idx feature_values thresh,
     column feat_idx X = Ok feature_values /\ In thresh feature_values /\
     too_small feature_values thresh = false) ->
  fit self X residuals = Fail IndexError.
Proof.
  intros W L (f & fv & t & Hcol & Hin & A). unfold fit.
  rewrite (fit_features_mismatch X residuals W L (n_cols X) 0); [reflexivity | lia |].
  exists f, fv, t. repeat split; auto; try lia.
  apply column_of_Ok in Hcol. cbn. apply Hcol.
Qed.

Lemma fit_residual_length_mismatch_witness :
  fit init Samples.small_batch [1; 2; 3] = Fail IndexError.
Proof.
  apply (fit_residual_length_mismatch init Samples.small_batch [1; 2; 3]).
  - repeat constructor.
  - cbn. lia.
  - exists 0%nat, [0; 0; 1; 1], 0. split; [reflexivity|].
    split; [cbn; auto|].
    unfold too_small, left_mask_of. cbn [map]. decide_reals. reflexivity.
Defined.

End StumpEdges.

(** ** Boosted ensemble: softmax, priors and the shape of a fit *)

Section EnsembleExtras.

Import Np SimpleGradientBoosting Vocabulary.
Local Open Scope R_scope.

Lemma sum_map_exp_add (row : list R) (c : R) :
  sum (map exp (map (fun v => v + c) row)) = exp c * sum (map exp row).
Proof.
  unfold sum. induction row as [| v row IH]; cbn [map fold_right]; [ring|].
  rewrite IH, exp_plus. ring.
Qed.

(** X3: the probabilities of a row do not change when one constant is
    added to all its raw scores, and every probability is strictly
    positive. *)
Theorem softmax_row_shift (row : list R) (c : R) :
  softmax_row (map (fun v => v + c) row) = softmax_row row /\
  forall proba, softmax_row row = Ok proba ->
                Forall (fun p => 0 < p) proba.
Proof.
  destruct row as [| v0 l]; [split; [reflexivity | discriminate]|].
  set (row := v0 :: l).
  assert (N : row <> []) by discriminate.
  assert (S : 0 < sum (map exp row)).
  { apply sum_pos; [discriminate|]. apply Forall_forall. intros e He.
    apply in_map_iff in He. destruct He as (v & <- & _). apply exp_pos. }
  split.
  - rewrite (softmax_row_plain row N), softmax_row_plain by discriminate.
    f_equal. rewrite map_map, sum_map_exp_add. apply map_ext. intros v.
    rewrite exp_plus. pose proof (exp_pos c). field. split; lra.
  - intros proba. rewrite (softmax_row_plain row N). intros E.
    assert (Ep : proba = map (fun v => exp v / sum (map exp row)) row)
      by congruence.
    subst proba. apply Forall_forall. intros p Hp.
    apply in_map_iff in Hp. destruct Hp as (v & <- & _).
    apply Rdiv_lt_0_compat; [apply exp_pos | assumption].
Qed.

Lemma argmax_from_map (f : R -> R) :
  (forall a b, Rltb (f a) (f b) = Rltb a b) ->
  forall (l : list R) (best_i : nat) (best : R) (i : nat),
    argmax_from best_i (f best) i (map f l) = argmax_from best_i best i l.
Proof.
  intros Hf. induction l as [| v l IH]; intros bi b i; cbn [map argmax_from].
  - reflexivity.
  - rewrite Hf. destruct (Rltb b v); apply IH.
Qed.

Lemma argmax_softmax_row (row proba : list R) :
  softmax_row row = Ok proba -> argmax proba = argmax row.
Proof.
  destruct row as [| v0 l]; [discriminate|]. set (row := v0 :: l).
  rewrite (softmax_row_plain row) by discriminate. intros E.
  assert (Ep : proba = map (fun v => exp v / sum (map exp row)) row)
    by congruence.
  subst proba. clear E.
  assert (S : 0 < sum (map exp row)).
  { apply sum_pos; [discriminate|]. apply Forall_forall. intros e He.
    apply in_map_iff in He. destruct He as (v & <- & _). apply exp_pos. }
  unfold row. cbn [map argmax]. f_equal.
  apply (argmax_from_map (fun v => exp v / sum (map exp row))).
  intros a b. fold row.
  assert (I : 0 < / sum (map exp row)) by now apply Rinv_0_lt_compat.
  destruct (Rltb_spec a b) as [L | L].
  - apply Rltb_true. unfold Rdiv. apply Rmult_lt_compat_r; [assumption|].
    now apply exp_increasing.
  - apply Rltb_false. intros G. apply L. apply exp_lt_inv.
    unfold Rdiv in G. now apply Rmult_lt_reg_r in G.
Qed.

(** X4: the softmax does not change the order of the scores: whenever
    [predict_proba] returns, [predict] is the first position of the
    largest raw score of each row. *)
Theorem predict_is_argmax_of_raw_scores (self : SimpleGradientBoosting.t)
    (X : ndarray) (raw proba : scores) :
  raw_scores self X = Ok (Finite raw) ->
  predict_proba self X = Ok (Finite proba) ->
  predict self X = mapM argmax raw.
Proof.
  intros Eraw Ep. unfold predict. rewrite Ep. cbn [bind].
  unfold predict_proba in Ep. rewrite Eraw in Ep. cbn [bind] in Ep.
  inv_bind Ep. injection Ep as <-. rename E into Ep.
  unfold _softmax in Ep. clear Eraw. revert a Ep.
  induction raw as [| row raw IH]; intros proba Ep; cbn [mapM] in *.
  - injection Ep as <-. reflexivity.
  - inv_bind Ep. inv_bind Ep. injection Ep as <-. cbn [mapM].
    rewrite (argmax_softmax_row row a E), (IH a0 E0). reflexivity.
Qed.

Lemma predict_is_argmax_of_raw_scores_witness :
  exists raw,
    raw_scores (mk 0 (1 / 10) 2 [] (Some (Priors [1; 3]))) Samples.query_batch
    = Ok (Finite raw) /\
    predict (mk 0 (1 / 10) 2 [] (Some (Priors [1; 3]))) Samples.query_batch
    = mapM argmax raw.
Proof.
  destruct (predict_proba_total (mk 0 (1 / 10) 2 [] (Some (Priors [1; 3])))
              Samples.query_batch) as (proba & Ep & _).
  - repeat constructor.
  - split; [exists (Priors [1; 3]); split; reflexivity | constructor].
  - cbn. lia.
  - eexists; reflexivity.
  - eexists. split; [reflexivity|].
    eapply predict_is_argmax_of_raw_scores; [reflexivity | exact Ep].
Defined.

(** X5: a successful [fit] keeps the three hyperparameters, sets one
    initial score per class, keeps every round the object already held
    and appends exactly [n_estimators] rounds of [n_classes] splits, each
    on a feature of the batch: fitting an object twice accumulates the
    rounds of both fits. *)
Theorem fit_appends_rounds (self fitted : SimpleGradientBoosting.t)
    (X : ndarray) (y : list Z) :
  fit self X y = Ok fitted ->
  n_estimators fitted = n_estimators self /\
  learning_rate fitted = learning_rate self /\
  n_classes fitted = n_classes self /\
  (exists initial, initial_predictions fitted = Some initial /\
                   n_priors initial = n_classes self) /\
  exists new,
    estimators fitted = estimators self ++ new /\
    length new = n_estimators self /\
    Forall (fun round_estimators =>
              length round_estimators = n_classes self /\
              Forall (fun stump =>
                        (DecisionStump.feature_idx stump < n_cols X)%nat)
                     round_estimators) new.
Proof.
  intros H. unfold fit, fit_scores in H. cbv zeta in H.
  inv_bind H. injection H as <-. repeat inv_bind E.
  destruct a2 as [P' ests]. injection E as <-. cbn [fst].
  apply boost_Ok in E2. destruct E2 as (new & En & Ln & Fn).
  cbn [snd] in En. subst ests.
  cbn [n_estimators n_classes learning_rate estimators initial_predictions].
  do 3 (split; [reflexivity|]). split.
  - exists a1. split; [reflexivity|]. now apply column_means_Ok in E1.
  - exists new. auto.
Qed.

Lemma fit_appends_rounds_witness :
  exists fitted new,
    fit (mk 2 (1 / 10) 6 [[DecisionStump.init]] None) Samples.small_batch
      Samples.small_labels = Ok fitted /\
    estimators fitted = [[DecisionStump.init]] ++ new /\
    length new = 2%nat.
Proof.
  destruct (fit_total_ensemble (mk 2 (1 / 10) 6 [[DecisionStump.init]] None)
              Samples.small_batch Samples.small_labels)
    as (initial & new0 & E & _);
    [repeat constructor | cbn; lia | cbn; lia |].
  destruct (fit_appends_rounds _ _ _ _ E) as (_ & _ & _ & _ & new & En & Ln & _).
  eexists. exists new. split; [exact E|]. split; [exact En | exact Ln].
Defined.

End EnsembleExtras.

Section EnsemblePriors.

Import Np SimpleGradientBoosting Vocabulary.
Local Open Scope R_scope.

Lemma one_hot_full (k : nat) (y : list Z) :
  one_hot (length y) k y = Ok (map (one_hot_row k) y).
Proof.
  induction y as [| label y IH]; cbn [length one_hot map repeat];
    [reflexivity|].
  rewrite IH. reflexivity.
Qed.

Lemma column_of_one_hot (k c : nat) (y : list Z) :
  (c < k)%nat ->
  column_of k c (map (one_hot_row k) y)
  = Ok (map (fun label => if (label =? Z.of_nat c)%Z then 1 else 0) y).
Proof.
  intros Hc. unfold column_of. destruct (Nat.ltb_spec c k); [|lia].
  induction y as [| label y IH]; cbn [map mapM]; [reflexivity|].
  rewrite IH. unfold one_hot_row at 1.
  rewrite nth_error_map, nth_error_seq.
  destruct (Nat.ltb_spec c k); [|lia]. reflexivity.
Qed.

Lemma sum_indicator (c : nat) (y : list Z) :
  sum (map (fun label => if (label =? Z.of_nat c)%Z then 1 else 0) y)
  = INR (label_count c y).
Proof.
  unfold sum, label_count. induction y as [| label y IH];
    cbn [map fold_right filter]; [reflexivity|].
  rewrite IH. destruct (label =? Z.of_nat c)%Z; cbn [length].
  - rewrite S_INR. ring.
  - ring.
Qed.

Lemma mapM_nth {B : Type} (f : nat -> result B) (k : nat) (r : list B) (d : B) :
  mapM f (seq 0 k) = Ok r ->
  forall c, (c < k)%nat -> f c = Ok (nth c r d).
Proof.
  intros H. apply mapM_Ok_Forall2 in H.
  assert (G : forall (s : nat) (l : list nat) (r : list B),
            l = seq s k -> Forall2 (fun a b => f a = Ok b) l r ->
            forall c, (c < k)%nat -> f (s + c)%nat = Ok (nth c r d)).
  { clear. revert k. induction k as [| k IH]; intros s l r -> F c Hc; [lia|].
    cbn [seq] in F. inversion F as [| ? b ? r' Hb F']; subst.
    destruct c as [| c]; cbn [nth].
    - now rewrite Nat.add_0_r.
    - rewrite Nat.add_succ_r. apply (IH (S s) _ r' eq_refl F'). lia. }
  intros c Hc. apply (G 0%nat _ r eq_refl H c Hc).
Qed.

Lemma mean_Ok (a : list R) (m : R) :
  mean a = Ok m -> m = sum a / INR (length a) /\ (0 < length a)%nat.
Proof.
  destruct a; cbn [mean]; [discriminate|]. intros E. injection E as <-.
  split; [reflexivity | cbn; lia].
Qed.

(** X6: when every row has a label and the batch has at least one row,
    the initial scores of a successful [fit] are the empirical class
    frequencies: entry c is the number of labels equal to c divided by
    the number of rows, a value in [0,1]; labels outside the classes
    count for no class.  On a batch without rows the initial scores are
    NaN, one per class. *)
Theorem fit_initial_predictions_are_frequencies
    (self fitted : SimpleGradientBoosting.t) (X : ndarray) (y : list Z) :
  length y = n_rows X ->
  fit self X y = Ok fitted ->
  ((0 < n_rows X)%nat ->
   exists initial,
     initial_predictions fitted = Some (Priors initial) /\
     length initial = n_classes self /\
     forall c, (c < n_classes self)%nat ->
       nth c initial 0 = INR (label_count c y) / INR (n_rows X) /\
       0 <= nth c initial 0 <= 1) /\
  (n_rows X = 0%nat ->
   initial_predictions fitted = Some (NaNPriors (n_classes self))).
Proof.
  intros L H. split; [|apply (fit_Ok_priors _ _ _ _ H)].
  intros N. unfold fit, fit_scores in H. cbv zeta in H.
  rewrite <- L, one_hot_full in H. cbn [bind] in H.
  inv_bind H. injection H as <-. repeat inv_bind E.
  destruct a1 as [P' ests]. injection E as <-. cbn [fst initial_predictions].
  rewrite <- L in N.
  destruct y as [| l0 y']; [cbn in N; lia|].
  set (y := l0 :: y') in *.
  unfold column_means in E0.
  change (map (one_hot_row (n_classes self)) y)
    with (one_hot_row (n_classes self) l0
          :: map (one_hot_row (n_classes self)) y') in E0.
  cbv iota in E0. inv_bind E0. injection E0 as <-.
  change (one_hot_row (n_classes self) l0
          :: map (one_hot_row (n_classes self)) y')
    with (map (one_hot_row (n_classes self)) y) in E.
  exists a. split; [reflexivity|].
  assert (La : length a = n_classes self).
  { apply mapM_Ok_length in E. now rewrite length_seq in E. }
  split; [exact La|]. intros c Hc.
  pose proof (mapM_nth _ _ _ 0 E c Hc) as Hn. cbv beta in Hn.
  rewrite column_of_one_hot in Hn by assumption. cbn [bind] in Hn.
  destruct (mean_Ok _ _ Hn) as [Em Hne]. rewrite length_map in Em, Hne.
  rewrite sum_indicator in Em. split; [now rewrite <- L|].
  rewrite Em.
  assert (Hle : (label_count c y <= length y)%nat)
    by apply filter_length_le.
  assert (Hpos : 0 < INR (length y)) by (apply lt_0_INR; lia).
  apply le_INR in Hle. pose proof (pos_INR (label_count c y)).
  split.
  - apply Rmult_le_pos; [assumption|]. apply Rlt_le, Rinv_0_lt_compat, Hpos.
  - apply (Rmult_le_reg_r (INR (length y))); [assumption|].
    unfold Rdiv. rewrite Rmult_assoc, Rinv_l by lra. lra.
Qed.

Lemma fit_initial_predictions_are_frequencies_witness :
  exists fitted initial,
    fit (init 50 (1 / 10) 6) Samples.small_batch Samples.small_labels
    = Ok fitted /\
    initial_predictions fitted = Some (Priors initial) /\
    nth 1 initial 0 = INR 2 / INR 4.
Proof.
  destruct (fit_total_ensemble (init 50 (1 / 10) 6) Samples.small_batch
              Samples.small_labels) as (i0 & new & E & _);
    [repeat constructor | cbn; lia | cbn; lia |].
  destruct (fit_initial_predictions_are_frequencies _ _ Samples.small_batch
              Samples.small_labels eq_refl E) as [Hpos _].
  destruct Hpos as (initial & Ei & _ & H); [cbn; lia|].
  eexists. exists initial. split; [exact E|]. split; [exact Ei|].
  apply (H 1%nat). cbn. lia.
Defined.

Lemma one_hot_extra_label (k : nat) (y : list Z) :
  forall n i label,
    (n <= i)%nat -> nth_error y i = Some label ->
    valid_label k label = true ->
    one_hot n k y = Fail IndexError.
Proof.
  induction y as [| l0 y IH]; intros n i label Hi Hn Hv.
  - destruct i; discriminate Hn.
  - destruct n as [| n]; cbn [one_hot].
    + destruct (valid_label k l0) eqn:V0; [reflexivity|].
      destruct i as [| i]; cbn in Hn.
      * injection Hn as ->. congruence.
      * apply (IH 0%nat i label); [lia | assumption | assumption].
    + destruct i as [| i]; [lia|]. cbn in Hn.
      rewrite (IH n i label) by (auto; lia). reflexivity.
Qed.

(** X7: labels are written into the one-hot matrix by position, so a
    label of one of the classes at a position beyond the last row of the
    batch makes [fit] end with an IndexError before any split is
    fitted. *)
Theorem fit_label_beyond_rows (self : SimpleGradientBoosting.t) (X : ndarray)
    (y : list Z) (i : nat) (label : Z) :
  (n_rows X <= i)%nat -> nth_error y i = Some label ->
  (0 <= label < Z.of_nat (n_classes self))%Z ->
  fit self X y = Fail IndexError.
Proof.
  intros Hi Hn Hl. unfold fit, fit_scores. cbv zeta.
  rewrite (one_hot_extra_label _ y (n_rows X) i label); auto.
  unfold valid_label. apply andb_true_intro. split.
  - apply Z.leb_le. lia.
  - apply Z.ltb_lt. lia.
Qed.

Lemma fit_label_beyond_rows_witness :
  fit (init 50 (1 / 10) 6) Samples.query_batch [0; 1; 2; 3]%Z
  = Fail IndexError.
Proof.
  apply (fit_label_beyond_rows (init 50 (1 / 10) 6) Samples.query_batch
           [0; 1; 2; 3]%Z 3 3%Z); [cbn; lia | reflexivity | cbn; lia].
Defined.

End EnsemblePriors.

(** ** Model manager: a successful training run and what follows it *)

Section ManagerRun.

Import Np SmlTrainingData DisputeSmlModel.
Local Open Scope R_scope.

(** X8: what [save] writes, [load] reads back: a manager that loads the
    file written by another one holds that one's model, version, number
    of training samples and accuracy, and predicts as it does; a second
    [save] replaces the content of the first. *)
Theorem save_load_round_trip (self other other' : DisputeSmlModel.t) (d : disk) :
  load other (save self d) = self /\
  (forall d' case_data,
     predict (load other (save self d)) d' case_data
     = predict self d' case_data) /\
  file (save other' (save self d)) = file (save other' d) /\
  writes (save other' (save self d)) = S (S (writes d)).
Proof.
  assert (E : load other (save self d) = self) by (destruct self; reflexivity).
  split; [exact E|]. split; [intros; now rewrite E|]. split; reflexivity.
Qed.

Lemma add_to_rows_length (c : nat) :
  forall (update : list R) (predictions predictions' : list (list R)),
    SimpleGradientBoosting.add_to_rows c update predictions = Ok predictions' ->
    length predictions' = length predictions.
Proof.
  induction update as [| u update IH]; intros [| row P] P' H;
    cbn [SimpleGradientBoosting.add_to_rows] in H; try discriminate H.
  - now injection H as <-.
  - destruct (nth_error row c); [|discriminate H].
    inv_bind H. injection H as <-. cbn. f_equal. eauto.
Qed.

Lemma add_round_length (self : SimpleGradientBoosting.t) (X : ndarray) (k : nat)
    (round_estimators : list DecisionStump.t) :
  forall (c : nat) (predictions predictions' : list (list R)),
    SimpleGradientBoosting.add_round self X k c round_estimators predictions
    = Ok predictions' ->
    length predictions' = length predictions.
Proof.
  induction round_estimators as [| s ss IH]; intros c P P' H;
    cbn [SimpleGradientBoosting.add_round] in H.
  - now injection H as <-.
  - do 2 inv_bind H. apply IH in H. rewrite H.
    unfold SimpleGradientBoosting.add_to_column in E0.
    destruct (c <? k)%nat; [|discriminate E0].
    eapply add_to_rows_length; eassumption.
Qed.

Lemma add_rounds_length (self : SimpleGradientBoosting.t) (X : ndarray) (k : nat)
    (ests : list (list DecisionStump.t)) :
  forall (predictions predictions' : list (list R)),
    SimpleGradientBoosting.add_rounds self X k ests predictions
    = Ok predictions' ->
    length predictions' = length predictions.
Proof.
  induction ests as [| r rs IH]; intros P P' H;
    cbn [SimpleGradientBoosting.add_rounds] in H.
  - now injection H as <-.
  - inv_bind H. apply IH in H. rewrite H.
    eapply add_round_length; eassumption.
Qed.

(** The two ways in which [predict_proba] returns. *)
Lemma predict_proba_Ok_inv (self : SimpleGradientBoosting.t) (X : ndarray)
    (p : SimpleGradientBoosting.matrix) :
  SimpleGradientBoosting.predict_proba self X = Ok p ->
  (exists initial raw proba,
     SimpleGradientBoosting.initial_predictions self
     = Some (SimpleGradientBoosting.Priors initial) /\
     SimpleGradientBoosting.add_rounds self X (length initial)
       (SimpleGradientBoosting.estimators self) (repeat initial (n_rows X))
     = Ok raw /\
     SimpleGradientBoosting._softmax raw = Ok proba /\
     p = SimpleGradientBoosting.Finite proba) \/
  (exists k,
     SimpleGradientBoosting.initial_predictions self
     = Some (SimpleGradientBoosting.NaNPriors k) /\
     p = SimpleGradientBoosting.AllNaN (n_rows X) k /\
     (0 <? n_rows X)%nat && (k =? 0)%nat = false).
Proof.
  unfold SimpleGradientBoosting.predict_proba,
    SimpleGradientBoosting.raw_scores.
  intros H. inv_bind H.
  destruct (SimpleGradientBoosting.initial_predictions self)
    as [[initial | k] |]; [| |discriminate E].
  - inv_bind E. injection E as <-. inv_bind H. injection H as <-.
    left. eauto 10.
  - inv_bind E. injection E as <-.
    destruct ((0 <? n_rows X)%nat && (k =? 0)%nat) eqn:G; [discriminate H|].
    injection H as <-. right. eauto.
Qed.

Lemma predict_length (self : SimpleGradientBoosting.t) (X : ndarray)
    (labels : list nat) :
  SimpleGradientBoosting.predict self X = Ok labels ->
  length labels = n_rows X.
Proof.
  unfold SimpleGradientBoosting.predict. intros H. inv_bind H.
  apply predict_proba_Ok_inv in E.
  destruct E as [(initial & raw & proba & _ & Er & Es & ->)
                | (k & _ & -> & G)].
  - apply mapM_Ok_length in H, Es. rewrite H, Es.
    apply add_rounds_length in Er. rewrite Er. apply repeat_length.
  - rewrite G in H. injection H as <-. apply repeat_length.
Qed.

(** The steps of a run of [train] that ends with a success result. *)
Lemma train_success_inv (self self' : DisputeSmlModel.t) (d d' : disk)
    (training_data : list SmlTrainingData.t) (test_split : Float64.t)
    (permutation : list nat) (v : Z) (n_train n_test : nat)
    (acc : option R) (status : string) :
  train self d training_data test_split permutation
  = Ok (TrainSuccess v n_train n_test acc status, self', d') ->
  let valid := filter valid_record training_data in
  let n := length valid in
  exists k fitted X_train X_test y_train y_test y_pred,
    (10 <= n)%nat /\
    n_test_of n test_split = Ok k /\
    take (slice_from k permutation) (map to_feature_vector valid)
    = Ok X_train /\
    take (slice_to k permutation) (map to_feature_vector valid) = Ok X_test /\
    take (slice_from k permutation) (map to_label valid) = Ok y_train /\
    take (slice_to k permutation) (map to_label valid) = Ok y_test /\
    SimpleGradientBoosting.fit (SimpleGradientBoosting.init 50 (1 / 10) 6)
      (mk_ndarray 12 X_train) y_train = Ok fitted /\
    SimpleGradientBoosting.predict fitted (mk_ndarray 12 X_test) = Ok y_pred /\
    self' = mk (Some fitted) (version self + 1) (length X_train)
               (accuracy_of y_pred y_test) /\
    d' = save self' d /\
    v = (version self + 1)%Z /\ n_train = length X_train /\
    n_test = length X_test /\
    acc = option_map (fun a => py_round_to 2 (a * 100))
                     (accuracy_of y_pred y_test) /\
    status = "success"%string.
Proof.
  intros H valid n. unfold train in H.
  destruct (length training_data <? 10)%nat; [discriminate H|].
  rewrite valid_mask_labels, !keep_map, !length_map in H.
  fold valid in H. fold n in H.
  destruct (Nat.ltb_spec n 10) as [L | L]; [discriminate H|].
  inv_bind H. rename a into k. unfold split_indices in H.
  repeat inv_bind H. injection H as <- <- <- <- <- <- <-.
  exists k, a3, a, a0, a1, a2, a4. cbn [fst snd version training_samples].
  repeat split; auto.
Qed.

(** X9: after a run of [train] that returns a success result, the version
    is the old one plus 1 and is the version reported; the manager holds a
    model; the file was written exactly once and holds the manager's new
    state, so that a fresh manager loading it is equal to this one; the
    reported sample counts add up to the number of valid records. *)
Theorem train_success_state (self self' : DisputeSmlModel.t) (d d' : disk)
    (training_data : list SmlTrainingData.t) (test_split : Float64.t)
    (permutation : list nat) (v : Z) (n_train n_test : nat)
    (acc : option R) (status : string) :
  length permutation = length (filter valid_record training_data) ->
  train self d training_data test_split permutation
  = Ok (TrainSuccess v n_train n_test acc status, self', d') ->
  version self' = (version self + 1)%Z /\ v = version self' /\
  model self' <> None /\
  training_samples self' = n_train /\
  (n_train + n_test = length (filter valid_record training_data))%nat /\
  writes d' = S (writes d) /\
  load init d' = self' /\
  status = "success"%string.
Proof.
  intros Lperm H. apply train_success_inv in H. cbv zeta in H.
  destruct H as (k & fitted & X_train & X_test & y_train & y_test & y_pred
                 & Hn & _ & Etr & Ete & _ & _ & _ & _
                 & -> & -> & -> & -> & -> & _ & ->).
  cbn [version model training_samples]. repeat split; try discriminate.
  unfold take in Etr, Ete. apply mapM_Ok_length in Etr, Ete.
  rewrite Etr, Ete, Nat.add_comm, <- length_app, slice_app. exact Lperm.
Qed.

End ManagerRun.

Section ManagerRunFacts.

Import Np SmlTrainingData DisputeSmlModel Samples.
Local Open Scope R_scope.

Lemma train_success_state_witness :
  exists v n_train n_test acc status self' d',
    train init no_file (repeat sample_case 11) quarter (seq 0 11)
    = Ok (TrainSuccess v n_train n_test acc status, self', d') /\
    version self' = 2%Z /\ writes d' = 1%nat /\ load init d' = self'.
Proof.
  destruct (train_success_counts init no_file (repeat sample_case 11)
              quarter (seq 0 11) 2) as (fitted & acc & E & _);
    [vm_compute; lia | vm_compute; reflexivity | vm_compute; lia
    | apply Permutation_refl |].
  assert (Lp : length (seq 0 11)
               = length (filter valid_record (repeat sample_case 11)))
    by reflexivity.
  destruct (train_success_state _ _ _ _ _ _ _ _ _ _ _ _ Lp E)
    as (Hv & _ & _ & _ & _ & Hw & Hl & _).
  do 7 eexists. split; [exact E|]. split; [exact Hv|]. split; [exact Hw|].
  exact Hl.
Defined.

Lemma filter_valid_idem (data : list SmlTrainingData.t) :
  filter valid_record (filter valid_record data) = filter valid_record data.
Proof.
  induction data as [| r data IH]; cbn [filter]; [reflexivity|].
  destruct (valid_record r) eqn:V; cbn [filter]; rewrite ?V, IH; reflexivity.
Qed.

(** X10: records whose label is outside the six outcomes take no part in
    training: when at least 10 records have a valid label, [train] on the
    full list is [train] on the valid records alone. *)
Theorem train_ignores_invalid_labels (self : DisputeSmlModel.t) (d : disk)
    (training_data : list SmlTrainingData.t) (test_split : Float64.t)
    (permutation : list nat) :
  (10 <= length (filter valid_record training_data))%nat ->
  train self d training_data test_split permutation
  = train self d (filter valid_record training_data) test_split permutation.
Proof.
  intros Hn. unfold train.
  pose proof (filter_length_le valid_record training_data) as Hle.
  destruct (Nat.ltb_spec (length training_data) 10); [lia|].
  destruct (Nat.ltb_spec (length (filter valid_record training_data)) 10);
    [lia|].
  rewrite !valid_mask_labels, !keep_map, filter_valid_idem. reflexivity.
Qed.

Lemma train_ignores_invalid_labels_witness :
  train init no_file (unlabelled_case :: repeat sample_case 10) fifth
    (seq 0 10)
  = train init no_file (repeat sample_case 10) fifth (seq 0 10).
Proof.
  apply (train_ignores_invalid_labels init no_file
           (unlabelled_case :: repeat sample_case 10) fifth (seq 0 10)).
  vm_compute. lia.
Defined.

(** X11: an error result of [train] tells which guard fired: "Need at
    least 10 training samples" exactly when fewer than 10 records were
    given, "Not enough valid samples after filtering" exactly when at
    least 10 were given and fewer than 10 carry a valid label; with 10 or
    more valid records [train] never returns an error result. *)
Theorem train_error_reason (self self' : DisputeSmlModel.t) (d d' : disk)
    (training_data : list SmlTrainingData.t) (test_split : Float64.t)
    (permutation : list nat) (error : string) :
  train self d training_data test_split permutation
  = Ok (TrainError error, self', d') ->
  ((length training_data < 10)%nat /\
   error = "Need at least 10 training samples"%string) \/
  ((10 <= length training_data)%nat /\
   (length (filter valid_record training_data) < 10)%nat /\
   error = "Not enough valid samples after filtering"%string).
Proof.
  unfold train. intros H.
  destruct (Nat.ltb_spec (length training_data) 10) as [L | L].
  { injection H as <- _ _. left. auto. }
  rewrite valid_mask_labels, !keep_map, !length_map in H.
  destruct (Nat.ltb_spec (length (filter valid_record training_data)) 10)
    as [L' | L'].
  { injection H as <- _ _. right. auto. }
  inv_bind H. destruct (split_indices _ _) as [test_idx train_idx].
  repeat inv_bind H. discriminate H.
Qed.

Lemma train_error_reason_witness :
  ((length (repeat sample_case 9 ++ [unlabelled_case]) < 10)%nat /\
   "Not enough valid samples after filtering"%string
   = "Need at least 10 training samples"%string) \/
  ((10 <= length (repeat sample_case 9 ++ [unlabelled_case]))%nat /\
   (length (filter valid_record (repeat sample_case 9 ++ [unlabelled_case]))
    < 10)%nat /\
   "Not enough valid samples after filtering"%string
   = "Not enough valid samples after filtering"%string).
Proof.
  apply (train_error_reason init init no_file no_file
           (repeat sample_case 9 ++ [unlabelled_case]) fifth []).
  reflexivity.
Defined.

Lemma indicator_mean_bounds (l : list (nat * Z)) (a : R) :
  mean (map (fun p => if (Z.of_nat (fst p) =? snd p)%Z then 1 else 0) l)
  = Ok a ->
  0 <= a <= 1.
Proof.
  intros H. apply mean_Ok in H. destruct H as [-> Hl].
  rewrite length_map in *.
  assert (B : 0 <= sum (map (fun p : nat * Z =>
                               if (Z.of_nat (fst p) =? snd p)%Z then 1 else 0) l)
              <= INR (length l)).
  { clear. unfold sum. induction l as [| p l IH]; cbn [map fold_right length].
    - cbn. lra.
    - rewrite S_INR. destruct (Z.of_nat (fst p) =? snd p)%Z; lra. }
  assert (Hpos : 0 < INR (length l)) by (apply lt_0_INR; lia).
  split.
  - apply Rmult_le_pos; [apply B|]. apply Rlt_le, Rinv_0_lt_compat, Hpos.
  - apply (Rmult_le_reg_r (INR (length l))); [assumption|].
    unfold Rdiv. rewrite Rmult_assoc, Rinv_l by lra. lra.
Qed.

(** X12: after a successful run the accuracy held by the manager is a
    fraction in [0,1] when the test set has at least one row, and is NaN
    exactly when the test set is empty; the accuracy reported in the
    result is then NaN as well. *)
Theorem train_accuracy_range (self self' : DisputeSmlModel.t) (d d' : disk)
    (training_data : list SmlTrainingData.t) (test_split : Float64.t)
    (permutation : list nat) (v : Z) (n_train n_test : nat)
    (acc : option R) (status : string) :
  train self d training_data test_split permutation
  = Ok (TrainSuccess v n_train n_test acc status, self', d') ->
  (n_test = 0%nat <-> accuracy self' = None) /\
  (accuracy self' = None <-> acc = None) /\
  (forall a, accuracy self' = Some a -> 0 <= a <= 1).
Proof.
  intros H. apply train_success_inv in H. cbv zeta in H.
  destruct H as (k & fitted & X_train & X_test & y_train & y_test & y_pred
                 & Hn & _ & _ & Ete & _ & Eyte & _ & Epred
                 & -> & _ & _ & _ & -> & -> & _).
  cbn [accuracy].
  apply predict_length in Epred. unfold n_rows in Epred. cbn [rows] in Epred.
  unfold take in Ete, Eyte. apply mapM_Ok_length in Ete, Eyte.
  assert (Lc : length (combine y_pred y_test) = length X_test).
  { rewrite length_combine. lia. }
  unfold accuracy_of. split; [|split].
  - destruct (combine y_pred y_test) as [| p l] eqn:Ec; cbn [map mean].
    + cbn in Lc. split; [reflexivity | intros _; lia].
    + cbn in Lc. split; [lia | discriminate].
  - destruct (mean _); cbn [option_map]; split; congruence.
  - intros a Ha.
    destruct (mean _) as [a' | f] eqn:Em; [|discriminate Ha].
    injection Ha as <-. eapply indicator_mean_bounds; eassumption.
Qed.

Lemma train_accuracy_range_witness :
  exists v n_train n_test acc status self' d',
    train init no_file (repeat sample_case 11) quarter (seq 0 11)
    = Ok (TrainSuccess v n_train n_test acc status, self', d') /\
    forall a, accuracy self' = Some a -> 0 <= a <= 1.
Proof.
  destruct (train_success_counts init no_file (repeat sample_case 11)
              quarter (seq 0 11) 2) as (fitted & acc & E & _);
    [vm_compute; lia | vm_compute; reflexivity | vm_compute; lia
    | apply Permutation_refl |].
  destruct (train_accuracy_range _ _ _ _ _ _ _ _ _ _ _ _ E) as (_ & _ & H).
  do 7 eexists. split; [exact E | exact H].
Defined.

End ManagerRunFacts.

(** ** Model manager: prediction with a model *)

Section ManagerPredict.

Import Np SmlTrainingData DisputeSmlModel Samples Vocabulary.
Local Open Scope R_scope.

Lemma Int_part_lower (x : R) (z : Z) : IZR z <= x -> (z <= Int_part x)%Z.
Proof.
  intros H. destruct (base_Int_part x) as [_ Hgt].
  assert (IZR (z - 1) < IZR (Int_part x)) by (rewrite minus_IZR; lra).
  apply lt_IZR in H0. lia.
Qed.

Lemma Int_part_upper (x : R) (z : Z) : x <= IZR z -> (Int_part x <= z)%Z.
Proof.
  intros H. destruct (base_Int_part x) as [Hle _]. apply le_IZR. lra.
Qed.

(** [predict] on a manager that holds a well-formed model of six
    classes. *)
Lemma predict_with_model (self : DisputeSmlModel.t) (d : disk)
    (case_data : SmlTrainingData.t) (m : SimpleGradientBoosting.t) :
  model self = Some m ->
  SimpleGradientBoosting.well_formed 12 m ->
  SimpleGradientBoosting.n_classes m = 6%nat ->
  (exists v, SimpleGradientBoosting.initial_predictions m
             = Some (SimpleGradientBoosting.Priors v)) ->
  exists k verdict confidence probabilities,
    JuryVerdict_of k = Ok verdict /\
    SimpleGradientBoosting.predict m
      (mk_ndarray 12 [to_feature_vector case_data]) = Ok [k] /\
    predict self d case_data
    = Ok (Predicted verdict (JuryVerdict_name verdict) confidence
            probabilities (_generate_reasoning case_data k) (version self)
            (option_map (fun a => py_round_to 1 (a * 100)) (accuracy self)),
          self) /\
    (16 <= confidence <= 100)%Z /\
    map fst probabilities = verdict_names.
Proof.
  intros Hm Hwf HC Hfin. unfold predict. rewrite Hm. cbv zeta. rewrite Hm.
  set (X := mk_ndarray 12 [to_feature_vector case_data]).
  destruct (predict_proba_total m X) as (probas & Ep & [Lp Fp] & Dp);
    [repeat constructor | exact Hwf | lia | exact Hfin |].
  unfold SimpleGradientBoosting.predict. rewrite Ep. cbn [bind].
  destruct probas as [| proba [| ? ?]]; try discriminate Lp.
  inversion Fp as [| ? ? Lrow _]; subst. rewrite HC in Lrow.
  inversion Dp as [| ? ? [Drange Dsum] _]; subst.
  change (item 0 [proba]) with (@Ok (list R) proba). cbn [bind mapM].
  destruct (argmax_first proba) as (k & Ek & Hk);
    [destruct proba; [discriminate Lrow | discriminate]|].
  rewrite Ek. cbn [bind].
  destruct Hk as (Hlt & Hmax & _). rewrite Lrow in Hlt, Hmax.
  destruct proba as [| p0 [| p1 [| p2 [| p3 [| p4 [| p5 [| ? ?]]]]]]];
    try discriminate Lrow.
  assert (Hp : 1 / 6 <= nth k [p0; p1; p2; p3; p4; p5] 0 <= 1).
  { split.
    - unfold sum in Dsum. cbn [fold_right] in Dsum.
      pose proof (Hmax 0%nat ltac:(lia)). pose proof (Hmax 1%nat ltac:(lia)).
      pose proof (Hmax 2%nat ltac:(lia)). pose proof (Hmax 3%nat ltac:(lia)).
      pose proof (Hmax 4%nat ltac:(lia)). pose proof (Hmax 5%nat ltac:(lia)).
      cbn [nth] in *. lra.
    - rewrite Forall_forall in Drange. apply Drange. apply nth_In. cbn. lia. }
  assert (Hitem : item k [p0; p1; p2; p3; p4; p5]
                  = Ok (nth k [p0; p1; p2; p3; p4; p5] 0)).
  { unfold item. rewrite (nth_error_nth' _ 0) by (cbn; lia). reflexivity. }
  rewrite Hitem. cbn [bind].
  assert (Hv : exists verdict, JuryVerdict_of k = Ok verdict).
  { do 6 (destruct k as [| k]; [cbn; eauto|]). lia. }
  destruct Hv as [verdict Hv].
  exists k, verdict. do 2 eexists.
  split; [exact Hv|]. split; [reflexivity|].
  split; [rewrite Hv; cbn [enumerate_from mapM JuryVerdict_of bind fst snd];
          reflexivity|].
  split; [|reflexivity].
  unfold py_int.
  destruct (Rle_dec 0 (nth k [p0; p1; p2; p3; p4; p5] 0 * 100)) as [_ | N];
    [|lra].
  split.
  - apply Int_part_lower. lra.
  - apply Int_part_upper. lra.
Qed.

(** [predict] on a manager whose model has NaN priors: [int(nan * 100)]
    is a ValueError. *)
Lemma predict_with_nan_model (self : DisputeSmlModel.t) (d : disk)
    (case_data : SmlTrainingData.t) (m : SimpleGradientBoosting.t) (k : nat) :
  model self = Some m ->
  SimpleGradientBoosting.well_formed 12 m ->
  SimpleGradientBoosting.n_classes m = 6%nat ->
  SimpleGradientBoosting.initial_predictions m
  = Some (SimpleGradientBoosting.NaNPriors k) ->
  predict self d case_data = Fail ValueError.
Proof.
  intros Hm Hwf HC Hnan. unfold predict. rewrite Hm. cbv zeta. rewrite Hm.
  destruct (predict_nan_priors m
              (mk_ndarray 12 [to_feature_vector case_data])
              ltac:(repeat constructor) k Hwf ltac:(lia) Hnan) as [Ep _].
  rewrite Ep. reflexivity.
Qed.

(** [predict] on the manager that a successful run of [train] leaves. *)
Lemma predict_trained_manager (self self' : DisputeSmlModel.t) (d d' : disk)
    (training_data : list SmlTrainingData.t) (test_split : Float64.t)
    (permutation : list nat) (v : Z) (n_train n_test : nat)
    (acc : option R) (status : string) :
  train self d training_data test_split permutation
  = Ok (TrainSuccess v n_train n_test acc status, self', d') ->
  forall (d2 : disk) (case_data : SmlTrainingData.t),
    ((0 < n_train)%nat ->
     exists k verdict confidence probabilities model_accuracy,
       JuryVerdict_of k = Ok verdict /\
       predict self' d2 case_data
       = Ok (Predicted verdict (JuryVerdict_name verdict) confidence
               probabilities (_generate_reasoning case_data k) v
               model_accuracy,
             self') /\
       (16 <= confidence <= 100)%Z /\
       map fst probabilities = verdict_names) /\
    (n_train = 0%nat -> predict self' d2 case_data = Fail ValueError).
Proof.
  intros H d2 case_data. apply train_success_inv in H. cbv zeta in H.
  destruct H as (n_test' & fitted & X_train & X_test & y_train & y_test
                 & y_pred & Hn & _ & _ & _ & _ & _ & Efit & _
                 & -> & _ & -> & -> & _).
  destruct (fit_Ok_priors _ _ _ _ Efit) as [Hpos Hnan].
  unfold n_rows in Hpos, Hnan. cbn [rows] in Hpos, Hnan.
  apply fit_Ok_well_formed in Efit; [|reflexivity].
  destruct Efit as (EC & _ & _ & Hwf). cbn in EC. cbn [n_cols] in Hwf.
  split.
  - intros N. destruct (Hpos N) as (pv & Epv & _).
    match goal with
    | |- context [predict ?s _ _] =>
        destruct (predict_with_model s d2 case_data fitted eq_refl Hwf EC
                    (ex_intro _ pv Epv))
          as (k & verdict & c & probs & Hv & _ & Ep & Hc & Hnames)
    end.
    exists k, verdict, c, probs. eexists.
    split; [exact Hv|]. split; [exact Ep|]. split; assumption.
  - intros N. eapply predict_with_nan_model;
      [reflexivity | exact Hwf | exact EC | exact (Hnan N)].
Qed.

(** A run with the test fraction 1.0: on ten valid records [train]
    reports success with no training row and ten test rows; the model it
    holds has NaN priors and every [predict] on the manager raises. *)
Lemma train_without_training_rows :
  exists fitted acc,
    train init no_file (repeat sample_case 10) whole (seq 0 10)
    = Ok (TrainSuccess 2 0 10
            (option_map (fun a => py_round_to 2 (a * 100)) acc) "success",
          mk (Some fitted) 2 0 acc, save (mk (Some fitted) 2 0 acc) no_file) /\
    SimpleGradientBoosting.initial_predictions fitted
    = Some (SimpleGradientBoosting.NaNPriors 6) /\
    forall d2 case_data,
      predict (mk (Some fitted) 2 0 acc) d2 case_data = Fail ValueError.
Proof.
  destruct (train_success_counts init no_file (repeat sample_case 10) whole
              (seq 0 10) 10)
    as (fitted & acc & E & X_train & y_train & _ & _ & Efit & LX);
    [vm_compute; lia | vm_compute; reflexivity | vm_compute; lia
    | apply Permutation_refl |].
  change (length (filter valid_record (repeat sample_case 10))) with 10%nat
    in E, LX.
  change (10 - 10)%nat with 0%nat in E, LX.
  change (version init + 1)%Z with 2%Z in E.
  exists fitted, acc. split; [exact E|].
  destruct (fit_Ok_priors _ _ _ _ Efit) as [_ Hnan].
  split; [apply Hnan; exact LX|].
  intros d2 case_data.
  destruct (predict_trained_manager _ _ _ _ _ _ _ _ _ _ _ _ E d2 case_data)
    as [_ H].
  now apply H.
Qed.

(** X13: after a run of [train] that returns a success result and had
    at least one training row, [predict] on the trained manager never
    gives the "not trained" answer and never raises: it returns one of
    the six verdicts with its name, a confidence between 16 and 100 (the
    largest of six probabilities, truncated to a percentage), one
    probability per verdict name in the order of the enumeration, and the
    version that [train] reported; the manager is left as it was, and the
    answer does not depend on the file.  After a successful run without a
    training row (a test fraction of 1.0) the priors are NaN and every
    [predict] raises the ValueError of [int(nan * 100)]. *)
Theorem predict_after_train (self self' : DisputeSmlModel.t) (d d' : disk)
    (training_data : list SmlTrainingData.t) (test_split : Float64.t)
    (permutation : list nat) (v : Z) (n_train n_test : nat)
    (acc : option R) (status : string) :
  train self d training_data test_split permutation
  = Ok (TrainSuccess v n_train n_test acc status, self', d') ->
  forall (d2 : disk) (case_data : SmlTrainingData.t),
    ((0 < n_train)%nat ->
     exists k verdict confidence probabilities model_accuracy,
       JuryVerdict_of k = Ok verdict /\
       predict self' d2 case_data
       = Ok (Predicted verdict (JuryVerdict_name verdict) confidence
               probabilities (_generate_reasoning case_data k) v
               model_accuracy,
             self') /\
       (16 <= confidence <= 100)%Z /\
       map fst probabilities = verdict_names) /\
    (n_train = 0%nat -> predict self' d2 case_data = Fail ValueError).
Proof. exact (predict_trained_manager self self' d d' training_data test_split
                permutation v n_train n_test acc status). Qed.

Lemma predict_after_train_witness :
  exists self' k verdict confidence probabilities version model_accuracy,
    predict self' no_file sample_case
    = Ok (Predicted verdict (JuryVerdict_name verdict) confidence
            probabilities (_generate_reasoning sample_case k) version
            model_accuracy, self') /\
    (16 <= confidence <= 100)%Z.
Proof.
  destruct (train_success_counts init no_file (repeat sample_case 11)
              quarter (seq 0 11) 2) as (fitted & acc & E & _);
    [vm_compute; lia | vm_compute; reflexivity | vm_compute; lia
    | apply Permutation_refl |].
  destruct (predict_after_train _ _ _ _ _ _ _ _ _ _ _ _ E no_file sample_case)
    as [H _].
  destruct H as (k & verdict & c & probs & macc & _ & Ep & Hc & _);
    [vm_compute; lia|].
  do 7 eexists. split; [exact Ep | exact Hc].
Defined.

(** X14: a manager without a model reloads on demand: with the file that
    a successful run of [train] wrote, a fresh manager answers [predict]
    exactly as the manager that trained (what it loads is the trained
    manager) and, when the run had a training row, it returns an answer
    and ends up equal to the trained manager. *)
Theorem predict_reloads_trained_model (self self' : DisputeSmlModel.t)
    (d d' : disk) (training_data : list SmlTrainingData.t) (test_split : Float64.t)
    (permutation : list nat) (v : Z) (n_train n_test : nat)
    (acc : option R) (status : string) :
  train self d training_data test_split permutation
  = Ok (TrainSuccess v n_train n_test acc status, self', d') ->
  forall case_data : SmlTrainingData.t,
    predict init d' case_data = predict self' d' case_data /\
    load init d' = self' /\
    ((0 < n_train)%nat ->
     exists answer, predict init d' case_data = Ok (answer, self')).
Proof.
  intros H case_data.
  destruct (predict_trained_manager _ _ _ _ _ _ _ _ _ _ _ _ H d' case_data)
    as [Hpos _].
  apply train_success_inv in H. cbv zeta in H.
  destruct H as (n_test' & fitted & X_train & X_test & y_train & y_test
                 & y_pred & Hn & _ & _ & _ & _ & _ & _ & _
                 & -> & -> & _ & -> & _).
  assert (E : predict init (save
               {| model := Some fitted; version := version self + 1;
                  training_samples := length X_train;
                  accuracy := accuracy_of y_pred y_test |} d) case_data
              = predict {| model := Some fitted; version := version self + 1;
                           training_samples := length X_train;
                           accuracy := accuracy_of y_pred y_test |}
                  (save {| model := Some fitted; version := version self + 1;
                           training_samples := length X_train;
                           accuracy := accuracy_of y_pred y_test |} d)
                  case_data) by reflexivity.
  split; [exact E|]. split; [reflexivity|]. intros N.
  destruct (Hpos N) as (k & verdict & c & probs & macc & _ & Ep & _).
  rewrite E, Ep. eauto.
Qed.

End ManagerPredict.

(** ** Case records: rationale and feature vector *)

Section RecordExtras.

Import SmlTrainingData DisputeSmlModel Samples Vocabulary.

Ltac split_rules case :=
  destruct (20 <? evidence_quality_a case - evidence_quality_b case)%Z;
  destruct (20 <? evidence_quality_b case - evidence_quality_a case)%Z;
  destruct (2 <? prior_disputes_a case - prior_disputes_b case)%Z;
  destruct (2 <? prior_disputes_b case - prior_disputes_a case)%Z;
  destruct (dispute_category case =? 0)%Z;
  destruct (dispute_category case =? 1)%Z.

(** X15: when A's response time is less than half of B's, the rationale
    contains "Party A responded more quickly"; when B's is less than half
    of A's and A's is not less than half of B's, it contains "Party B
    responded more quickly"; when neither holds it contains neither. *)
Theorem _generate_reasoning_response_note (case : SmlTrainingData.t)
    (predicted : nat) :
  let ra := response_time_a case in
  let rb := response_time_b case in
  let rationale := _generate_reasoning case predicted in
  ((2 * ra < rb)%Z ->
   contains "Party A responded more quickly" rationale = true /\
   contains "Party B responded more quickly" rationale = false) /\
  ((2 * rb < ra)%Z -> ~ (2 * ra < rb)%Z ->
   contains "Party B responded more quickly" rationale = true /\
   contains "Party A responded more quickly" rationale = false) /\
  (~ (2 * ra < rb)%Z -> ~ (2 * rb < ra)%Z ->
   contains "responded more quickly" rationale = false).
Proof.
  cbv zeta. rewrite _generate_reasoning_unfold.
  unfold rationale_spec, triggered_notes, evidence_note, response_note,
    prior_note, category_note, fallback_note.
  destruct (Z.ltb_spec (2 * response_time_a case) (response_time_b case));
    destruct (Z.ltb_spec (2 * response_time_b case) (response_time_a case));
    (split; [intros | split; intros]); try lia;
    split_rules case; vm_compute; auto.
Qed.

Lemma _generate_reasoning_response_note_witness :
  contains "Party A responded more quickly"
    (_generate_reasoning sample_case 1) = true.
Proof.
  destruct (_generate_reasoning_response_note sample_case 1) as [H _].
  apply H. cbn. lia.
Defined.

Local Open Scope R_scope.

Lemma ratio_bounds (z k : Z) :
  (0 <= z <= k)%Z -> (0 < k)%Z -> 0 <= IZR z / IZR k <= 1.
Proof.
  intros [H0 Hk] Kpos.
  apply IZR_le in H0, Hk. apply IZR_lt in Kpos.
  split.
  - apply Rmult_le_pos; [assumption|]. apply Rlt_le, Rinv_0_lt_compat, Kpos.
  - apply (Rmult_le_reg_r (IZR k)); [assumption|].
    unfold Rdiv. rewrite Rmult_assoc, Rinv_l by lra. lra.
Qed.

(** X16: for a record within the invariants of the data model, the
    components 2 to 9 of the feature vector lie in [0,1], whatever the
    size of the response times and prior-dispute counts (they are capped),
    and the evidence difference, component 10, lies in [-1,1]. *)
Theorem to_feature_vector_ranges (self : SmlTrainingData.t) :
  in_data_model self ->
  (forall i, (1 <= i <= 8)%nat ->
             0 <= nth i (to_feature_vector self) 0 <= 1) /\
  -1 <= nth 9 (to_feature_vector self) 0 <= 1.
Proof.
  intros (Hc & Ht & Ha & Hb & Hra & Hrb & Hpa & Hpb). split.
  - intros i Hi.
    assert (E : (i = 1 \/ i = 2 \/ i = 3 \/ i = 4 \/ i = 5 \/ i = 6
                 \/ i = 7 \/ i = 8)%nat) by lia.
    destruct E as [-> | [-> | [-> | [-> | [-> | [-> | [-> | ->]]]]]]];
      cbn [nth to_feature_vector]; apply ratio_bounds; lia.
  - cbn [nth to_feature_vector]. rewrite minus_IZR.
    destruct (ratio_bounds (evidence_quality_a self) 100) as [A0 A1];
      [lia | lia |].
    destruct (ratio_bounds (evidence_quality_b self) 100) as [B0 B1];
      [lia | lia |].
    unfold Rdiv in *. lra.
Qed.

Lemma to_feature_vector_ranges_witness :
  -1 <= nth 9 (to_feature_vector sample_case) 0 <= 1.
Proof.
  apply (to_feature_vector_ranges sample_case).
  unfold in_data_model. cbn. lia.
Defined.

(** X17: exchanging the two parties of a record exchanges the per-party
    components of its feature vector and negates the three difference
    components; the first three components do not change. *)
Theorem to_feature_vector_swap (self : SmlTrainingData.t) :
  to_feature_vector (swap_parties self) = mirror (to_feature_vector self).
Proof.
  unfold to_feature_vector, swap_parties, mirror.
  cbn [evidence_quality_a evidence_quality_b response_time_a response_time_b
       prior_disputes_a prior_disputes_b job_category dispute_category
       amount_tier].
  rewrite (Z.add_comm (response_time_b self) (response_time_a self)).
  repeat f_equal.
  - rewrite !minus_IZR. lra.
  - destruct (response_time_a self + response_time_b self >? 0)%Z;
      [rewrite !minus_IZR; lra | lra].
  - rewrite !minus_IZR. lra.
Qed.

End RecordExtras.

(** ** Oracle interface *)

Section OracleExtras.

Import Np SmlTrainingData DisputeSmlModel SmlOracle Samples Vocabulary.
Local Open Scope R_scope.

(** X18: without a trained model the oracle does not publish the
    "pending" answer of [predict]: when the manager holds no model and the
    file is absent, or holds an artifact without a model, the call ends
    with the KeyError of the subscript "model_version", whatever the
    payload. *)
Theorem get_prediction_untrained_key_error (self : DisputeSmlModel.t)
    (d : disk) (case_data : case_json) (now : Z) :
  model self = None ->
  (forall data, file d = Some data -> a_model data = None) ->
  get_prediction_for_case self d case_data now
  = KeyError "model_version" (load self d).
Proof.
  intros Hm Hf. unfold get_prediction_for_case, predict. rewrite Hm.
  cbv zeta.
  assert (E : model (load self d) = None).
  { unfold load. destruct (file d) as [data |] eqn:Ef; [|exact Hm].
    cbn [model]. now apply Hf. }
  rewrite E. reflexivity.
Qed.

Lemma get_prediction_untrained_key_error_witness :
  get_prediction_for_case init no_file sample_payload 1700000000
  = KeyError "model_version" init.
Proof.
  apply (get_prediction_untrained_key_error init no_file sample_payload
           1700000000); [reflexivity | discriminate].
Defined.

(** X19: with the manager left by a successful run of [train] that had
    at least one training row, the oracle publishes for every payload: the
    case identifier of the payload (null when it has none), a verdict code
    between 0 and 5, a confidence between 16 and 100, the version that
    [train] reported and the timestamp; the manager is unchanged.  After a
    successful run without a training row nothing is published: the call
    ends with the ValueError of [predict]. *)
Theorem get_prediction_after_train (self self' : DisputeSmlModel.t)
    (d d' : disk) (training_data : list SmlTrainingData.t) (test_split : Float64.t)
    (permutation : list nat) (v : Z) (n_train n_test : nat)
    (acc : option R) (status : string) :
  train self d training_data test_split permutation
  = Ok (TrainSuccess v n_train n_test acc status, self', d') ->
  forall (d2 : disk) (case_data : case_json) (now : Z),
    ((0 < n_train)%nat ->
     exists verdict_code conf,
       get_prediction_for_case self' d2 case_data now
       = Published (mk_publication (json_case_id case_data) verdict_code conf
                      v now) self' /\
       (0 <= verdict_code <= 5)%Z /\ (16 <= conf <= 100)%Z) /\
    (n_train = 0%nat ->
     get_prediction_for_case self' d2 case_data now = Raised ValueError).
Proof.
  intros H d2 case_data now.
  destruct (predict_trained_manager _ _ _ _ _ _ _ _ _ _ _ _ H d2
              (record_of case_data)) as [Hpos Hnan].
  unfold get_prediction_for_case. split; intros N.
  - destruct (Hpos N) as (k & verdict & c & probs & macc & _ & Ep & Hc & _).
    rewrite Ep. exists (JuryVerdict_value verdict), c.
    split; [reflexivity|].
    split; [destruct verdict; cbn; lia | exact Hc].
  - rewrite (Hnan N). reflexivity.
Qed.

End OracleExtras.

Section RunWitnesses.

Import Np SmlTrainingData DisputeSmlModel SmlOracle Samples.
Local Open Scope R_scope.

Lemma predict_reloads_trained_model_witness :
  exists self' d' answer,
    predict init d' sample_case = predict self' d' sample_case /\
    predict init d' sample_case = Ok (answer, self') /\
    model self' <> None.
Proof.
  destruct (train_success_counts init no_file (repeat sample_case 11)
              quarter (seq 0 11) 2) as (fitted & acc & E & _);
    [vm_compute; lia | vm_compute; reflexivity | vm_compute; lia
    | apply Permutation_refl |].
  destruct (predict_reloads_trained_model _ _ _ _ _ _ _ _ _ _ _ _ E
              sample_case) as (H1 & _ & H2).
  destruct H2 as (answer & H2); [vm_compute; lia|].
  do 2 eexists. exists answer. split; [exact H1|]. split; [exact H2|].
  discriminate.
Defined.

Lemma get_prediction_after_train_witness :
  exists self' verdict_code conf version,
    get_prediction_for_case self' no_file sample_payload 1700000000
    = Published (mk_publication (Some "case_7"%string) verdict_code conf
                   version 1700000000) self' /\
    (16 <= conf <= 100)%Z.
Proof.
  destruct (train_success_counts init no_file (repeat sample_case 11)
              quarter (seq 0 11) 2) as (fitted & acc & E & _);
    [vm_compute; lia | vm_compute; reflexivity | vm_compute; lia
    | apply Permutation_refl |].
  destruct (get_prediction_after_train _ _ _ _ _ _ _ _ _ _ _ _ E no_file
              sample_payload 1700000000) as [Hpos _].
  destruct Hpos as (code & conf & H & _ & Hc); [vm_compute; lia|].
  do 2 eexists. exists conf. eexists. split; [exact H | exact Hc].
Defined.

End RunWitnesses.

(** ** Synthetic training data *)

Section SyntheticExtras.

Import Np SmlTrainingData DisputeSmlModel Synthetic Samples Vocabulary.
Local Open Scope R_scope.

Lemma verdict_of_code (r : draws) :
  (1 <= SmlOracle.JuryVerdict_value (verdict_of r) <= 5)%Z.
Proof.
  unfold verdict_of, pick.
  destruct (_ >? _)%Z; [cbn; lia|].
  destruct (_ >? _)%Z; [cbn; lia|].
  destruct (_ <? _)%Z; destruct (choice r) as [| [| ?]]; cbn; lia.
Qed.

Lemma sample_valid (i : nat) (r : draws) : valid_record (sample i r) = true.
Proof.
  unfold valid_record, sample. cbn [final_verdict].
  pose proof (verdict_of_code r). apply andb_true_intro. split.
  - apply Z.leb_le. lia.
  - apply Z.ltb_lt. lia.
Qed.

Lemma generate_all_valid (n_samples : nat) (rng : nat -> draws) :
  filter valid_record (generate_synthetic_training_data n_samples rng)
  = generate_synthetic_training_data n_samples rng.
Proof.
  unfold generate_synthetic_training_data.
  induction (seq 0 n_samples) as [| i l IH]; cbn [map filter]; [reflexivity|].
  rewrite sample_valid, IH. reflexivity.
Qed.

(** X20: the generator returns [n_samples] records; every label is one
    of the five decided verdicts, never "pending", so no record is
    filtered out by [train]; a lead of more than 30 evidence points gives
    the verdict to that party, a gap below 10 never a plain win. *)
Theorem generate_synthetic_labels (n_samples : nat) (rng : nat -> draws) :
  let data := generate_synthetic_training_data n_samples rng in
  length data = n_samples /\
  filter valid_record data = data /\
  Forall (fun r =>
            (1 <= final_verdict r <= 5)%Z /\
            ((evidence_quality_a r > evidence_quality_b r + 30)%Z ->
             final_verdict r = 1%Z) /\
            ((evidence_quality_b r > evidence_quality_a r + 30)%Z ->
             final_verdict r = 2%Z) /\
            ((Z.abs (evidence_quality_a r - evidence_quality_b r) < 10)%Z ->
             (3 <= final_verdict r <= 5)%Z)) data.
Proof.
  cbv zeta. split; [|split].
  - unfold generate_synthetic_training_data.
    now rewrite length_map, length_seq.
  - apply generate_all_valid.
  - unfold generate_synthetic_training_data. apply Forall_forall.
    intros r Hr. apply in_map_iff in Hr. destruct Hr as (i & <- & _).
    unfold sample.
    cbn [final_verdict evidence_quality_a evidence_quality_b].
    split; [apply verdict_of_code|].
    unfold verdict_of, pick.
    destruct (Z.gtb_spec (evidence_a (rng i)) (evidence_b (rng i) + 30));
      [cbn; repeat split; intros; lia|].
    destruct (Z.gtb_spec (evidence_b (rng i)) (evidence_a (rng i) + 30));
      [cbn; repeat split; intros; lia|].
    destruct (Z.ltb_spec (Z.abs (evidence_a (rng i) - evidence_b (rng i))) 10);
      destruct (choice (rng i)) as [| [| ?]]; cbn; repeat split; intros; lia.
Qed.

(** X21: every generated record has ten votes and ten confidences, made
    by the two loops over [range(10)]; when the draws lie within the
    ranges of the generator's random calls, the record satisfies the
    invariants of the data model, both response times are at least 1
    hour, every confidence lies in 50..99 and the consensus strength in
    0..100. *)
Theorem generate_synthetic_in_data_model (n_samples : nat)
    (rng : nat -> draws) :
  Forall (fun r => length (SmlTrainingData.votes r) = 10%nat /\
                   length (SmlTrainingData.confidences r) = 10%nat)
         (generate_synthetic_training_data n_samples rng) /\
  ((forall i, (i < n_samples)%nat -> in_range (rng i)) ->
   Forall (fun r => in_data_model r /\
                    (1 <= SmlTrainingData.response_time_a r)%Z /\
                    (1 <= SmlTrainingData.response_time_b r)%Z /\
                    Forall (fun c => (50 <= c < 100)%Z)
                           (SmlTrainingData.confidences r) /\
                    (0 <= SmlTrainingData.consensus_strength r <= 100)%Z)
          (generate_synthetic_training_data n_samples rng)).
Proof.
  unfold generate_synthetic_training_data. split.
  - apply Forall_forall. intros r Hr. apply in_map_iff in Hr.
    destruct Hr as (i & <- & _). unfold sample.
    cbn [SmlTrainingData.votes SmlTrainingData.confidences].
    now rewrite !length_map, length_seq.
  - intros H. apply Forall_forall.
    intros r Hr. apply in_map_iff in Hr. destruct Hr as (i & <- & Hi).
    apply in_seq in Hi.
    destruct (H i) as (? & ? & ? & ? & ? & ? & ? & ? & ? & ? & Hconf & ?);
      [lia|].
    unfold in_data_model, sample.
    cbn [SmlTrainingData.dispute_category SmlTrainingData.amount_tier
         SmlTrainingData.evidence_quality_a SmlTrainingData.evidence_quality_b
         SmlTrainingData.response_time_a SmlTrainingData.response_time_b
         SmlTrainingData.prior_disputes_a SmlTrainingData.prior_disputes_b
         SmlTrainingData.confidences SmlTrainingData.consensus_strength].
    repeat split; try lia.
    apply Forall_forall. intros c Hc. apply in_map_iff in Hc.
    destruct Hc as (j & <- & _). apply Hconf.
Qed.

Lemma generate_synthetic_in_data_model_witness :
  Forall (fun r => in_data_model r /\
                   (1 <= SmlTrainingData.response_time_a r)%Z /\
                   (1 <= SmlTrainingData.response_time_b r)%Z /\
                   Forall (fun c => (50 <= c < 100)%Z)
                          (SmlTrainingData.confidences r) /\
                   (0 <= SmlTrainingData.consensus_strength r <= 100)%Z)
         (generate_synthetic_training_data 12 (fun _ => fixed_draws)).
Proof.
  apply (generate_synthetic_in_data_model 12 (fun _ => fixed_draws)).
  intros i _. unfold in_range. cbn. repeat split; lia.
Defined.



End SyntheticExtras.

(** ** Boosted ensemble: the scores of the training rows *)

Section EnsembleReplay.

Import Np SimpleGradientBoosting.
Local Open Scope R_scope.

Variables self other : SimpleGradientBoosting.t.
Variable X : ndarray.
Variable y_onehot : scores.
Hypothesis same_rate : learning_rate other = learning_rate self.

Lemma fit_classes_replay (k : nat) :
  forall (c0 : nat) (st st' : scores * list DecisionStump.t),
    fit_classes self X y_onehot (seq c0 k) st = Ok st' ->
    exists stumps,
      snd st' = snd st ++ stumps /\
      add_round other X (n_classes self) c0 stumps (fst st) = Ok (fst st').
Proof.
  induction k as [| k IH]; intros c0 st st' H; cbn [seq fit_classes] in H.
  - injection H as <-. exists []. rewrite app_nil_r. split; reflexivity.
  - inv_bind H. destruct st as [P ests]. unfold fit_class in E.
    repeat inv_bind E. injection E as <-.
    apply IH in H. destruct H as (ss & Ess & Hadd). cbn [fst snd] in *.
    exists (a1 :: ss). split; [rewrite Ess, <- app_assoc; reflexivity|].
    cbn [add_round]. rewrite E2. cbn [bind]. rewrite same_rate, E3.
    cbn [bind]. exact Hadd.
Qed.

Lemma boost_replay (rounds : nat) :
  forall (st st' : scores * list (list DecisionStump.t)),
    boost self X y_onehot rounds st = Ok st' ->
    exists new,
      snd st' = snd st ++ new /\
      add_rounds other X (n_classes self) new (fst st) = Ok (fst st').
Proof.
  induction rounds as [| rounds IH]; intros st st' H; cbn [boost] in H.
  - injection H as <-. exists []. rewrite app_nil_r. split; reflexivity.
  - inv_bind H. destruct a as [P1 ss]. unfold fit_round in E.
    apply fit_classes_replay in E. destruct E as (ss' & Ess & Hadd).
    cbn [fst snd app] in Ess, Hadd. subst ss'.
    apply IH in H. destruct H as (new & En & Hrest). cbn [fst snd] in *.
    exists (ss :: new). split; [rewrite En, <- app_assoc; reflexivity|].
    cbn [add_rounds]. rewrite Hadd. cbn [bind]. exact Hrest.
Qed.

End EnsembleReplay.

Section EnsembleReplayTheorem.

Import Np SimpleGradientBoosting.
Local Open Scope R_scope.

(** X23: the raw scores that [predict_proba] rebuilds for the training
    batch from the stored splits are the scores that [fit] held when it
    finished: for an object fitted once on a batch with at least one row,
    [predict_proba] on the training batch is the softmax of the final
    score matrix of [fit].  On a batch without rows the final score
    matrix is empty and so is the matrix that [predict_proba] rebuilds. *)
Theorem fit_scores_are_raw_scores (self fitted : SimpleGradientBoosting.t)
    (X : ndarray) (y : list Z) (final : scores) :
  estimators self = [] ->
  fit_scores self X y = Ok (fitted, final) ->
  ((0 < n_rows X)%nat ->
   raw_scores fitted X = Ok (Finite final) /\
   predict_proba fitted X = (proba <- _softmax final ;; Ok (Finite proba))) /\
  (n_rows X = 0%nat ->
   final = [] /\
   raw_scores fitted X = Ok (AllNaN 0 (n_classes self))).
Proof.
  intros He H. unfold fit_scores in H. cbv zeta in H.
  repeat inv_bind H. destruct a1 as [P' ests]. injection H as <- <-.
  pose proof (one_hot_Ok_length _ _ _ _ E) as La.
  destruct (column_means_Ok _ _ _ E0) as [Li Hfin].
  set (fitted := mk (n_estimators self) (learning_rate self) (n_classes self)
                    ests (Some a0)).
  destruct (boost_replay self fitted X a eq_refl _ _ _ E1)
    as (new & En & Hadd).
  cbn [fst snd] in En, Hadd. rewrite He in En. cbn [app] in En. subst new.
  split; intros N.
  - destruct Hfin as (v & ->).
    { intros ->. cbn in La. lia. }
    cbn [n_priors tile] in *.
    assert (Eraw : raw_scores fitted X = Ok (Finite P')).
    { unfold raw_scores. cbn [initial_predictions fitted estimators].
      rewrite Li, Hadd. reflexivity. }
    split; [exact Eraw|]. unfold predict_proba. rewrite Eraw. reflexivity.
  - rewrite N in La. destruct a as [| row0 rest]; [|discriminate La].
    cbn [column_means] in E0. injection E0 as <-. cbn [tile] in Hadd.
    pose proof (add_rounds_length _ _ _ _ _ _ Hadd) as LP.
    destruct P' as [| ? ?]; [|discriminate LP].
    split; [reflexivity|].
    unfold raw_scores. cbn [initial_predictions fitted estimators].
    rewrite N. cbn [repeat]. rewrite Hadd. reflexivity.
Qed.

Lemma fit_scores_are_raw_scores_witness :
  exists fitted final,
    fit_scores (init 50 (1 / 10) 6) Samples.small_batch Samples.small_labels
    = Ok (fitted, final) /\
    raw_scores fitted Samples.small_batch = Ok (Finite final).
Proof.
  destruct (fit_total_ensemble (init 50 (1 / 10) 6) Samples.small_batch
              Samples.small_labels) as (initial & new & E & _);
    [repeat constructor | cbn; lia | cbn; lia |].
  unfold fit in E.
  destruct (fit_scores (init 50 (1 / 10) 6) Samples.small_batch
              Samples.small_labels) as [[fitted final] | f] eqn:Es;
    [|discriminate E].
  exists fitted, final. split; [reflexivity|].
  apply (fit_scores_are_raw_scores (init 50 (1 / 10) 6) fitted
           Samples.small_batch Samples.small_labels final eq_refl Es).
  cbn. lia.
Defined.

End EnsembleReplayTheorem.

(** ** Threshold split: the fitted means *)

Section StumpMeans.

Import Np DecisionStump.
Local Open Scope R_scope.

Lemma select_Ok_facts (mask : list bool) :
  forall (a r rn : list R),
    select mask a = Ok r -> select (map negb mask) a = Ok rn ->
    length r = count mask /\ length rn = count (map negb mask) /\
    sum r + sum rn = sum a.
Proof.
  unfold count, sum.
  induction mask as [| b mask IH]; intros [| v a] r rn H Hn;
    cbn [select map] in H, Hn; try discriminate H.
  - injection H as <-. injection Hn as <-. cbn. repeat split; lra.
  - inv_bind H. inv_bind Hn. injection H as <-. injection Hn as <-.
    destruct (IH a a0 a1 E E0) as (L1 & L2 & S).
    destruct b; cbn [negb map filter length fold_right]; repeat split;
      try lia; lra.
Qed.

Lemma sum_where (mask : list bool) (l r : R) :
  sum (where_ mask l r)
  = INR (count mask) * l + INR (count (map negb mask)) * r.
Proof.
  unfold sum, where_, count.
  induction mask as [| b mask IH]; cbn [map fold_right filter length].
  - cbn. ring.
  - rewrite IH. destruct b; cbn [negb length]; rewrite ?S_INR; ring.
Qed.

(** X24: a fitted split gives back the total of the residuals: when the
    search accepts at least one candidate, the predictions of the split on
    the training batch sum to the sum of the residuals it was fitted on
    (each branch constant is the mean residual of its side); when it
    accepts none, the split is the zero-initialised one. *)
Theorem fit_predictions_sum_to_residuals (X : ndarray) (residuals : list R) :
  wf X -> length residuals = n_rows X ->
  exists s,
    fit init X residuals = Ok s /\
    ((s = init /\ forall c o, outcome X residuals c o -> o = None) \/
     exists update,
       predict s X = Ok update /\ length update = n_rows X /\
       sum update = sum residuals).
Proof.
  intros W L. destruct (fit_best X residuals init W L) as ([best s] & E & Inv).
  unfold fit. rewrite E. cbn [bind snd]. exists s. split; [reflexivity|].
  unfold best_among in Inv. cbn [fst snd] in Inv. destruct best as [g |].
  - right. destruct Inv as (lm & rm & _ & (fv & Hcol & _ & He) & Hl & Hr & _).
    cbn [key fst snd] in Hcol, He.
    unfold predict. rewrite Hcol. cbn [bind]. eexists. split; [reflexivity|].
    rewrite Hl, Hr. split.
    { unfold where_, left_mask_of. rewrite !length_map.
      apply column_of_Ok in Hcol. apply Hcol. }
    unfold evaluate in He.
    destruct (too_small fv (threshold s)) eqn:Ts; [discriminate He|].
    repeat inv_bind He. injection He as <- <- _.
    unfold too_small in Ts. apply orb_false_elim in Ts. destruct Ts as [T1 T2].
    apply Nat.ltb_ge in T1, T2.
    destruct (select_Ok_facts _ _ _ _ E0 E2) as (L1 & L2 & S).
    apply mean_Ok in E1, E3. destruct E1 as [-> _]. destruct E3 as [-> _].
    rewrite sum_where, L1, L2, <- S.
    assert (0 < INR (count (left_mask_of fv (threshold s))))
      by (apply lt_0_INR; lia).
    assert (0 < INR (count (map negb (left_mask_of fv (threshold s)))))
      by (apply lt_0_INR; lia).
    field. split; lra.
  - left. destruct Inv as [-> Hnone]. split; [reflexivity|].
    intros c o. now apply Hnone.
Qed.

Lemma fit_predictions_sum_to_residuals_witness :
  exists s,
    fit init Samples.tie_batch Samples.tie_residuals = Ok s /\
    ((s = init /\
      forall c o, outcome Samples.tie_batch Samples.tie_residuals c o ->
                  o = None) \/
     exists update,
       predict s Samples.tie_batch = Ok update /\
       length update = n_rows Samples.tie_batch /\
       sum update = sum Samples.tie_residuals).
Proof.
  apply (fit_predictions_sum_to_residuals Samples.tie_batch
           Samples.tie_residuals); [repeat constructor | reflexivity].
Defined.

End StumpMeans.

(** ** Boosted ensemble: rows are scored independently *)

Section RowWise.

Import Np SimpleGradientBoosting.
Local Open Scope R_scope.

Lemma mapM_app_inv {A B : Type} (f : A -> result B) (l1 l2 : list A)
    (r : list B) :
  mapM f (l1 ++ l2) = Ok r ->
  exists r1 r2, mapM f l1 = Ok r1 /\ mapM f l2 = Ok r2 /\ r = r1 ++ r2.
Proof.
  revert r. induction l1 as [| a l1 IH]; intros r H; cbn [app mapM] in *.
  - exists [], r. auto.
  - inv_bind H. inv_bind H. injection H as <-.
    destruct (IH _ E0) as (r1 & r2 & -> & E2 & ->). rewrite E. cbn [bind].
    exists (a0 :: r1), r2. auto.
Qed.

Lemma stump_predict_app (s : DecisionStump.t) (d : nat)
    (rows1 rows2 : list (list R)) (update : list R) :
  DecisionStump.predict s (mk_ndarray d (rows1 ++ rows2)) = Ok update ->
  exists u1 u2,
    DecisionStump.predict s (mk_ndarray d rows1) = Ok u1 /\
    DecisionStump.predict s (mk_ndarray d rows2) = Ok u2 /\
    update = u1 ++ u2 /\ length u1 = length rows1 /\ length u2 = length rows2.
Proof.
  unfold DecisionStump.predict, column, column_of. cbn [n_cols rows].
  destruct (DecisionStump.feature_idx s <? d)%nat; [|discriminate].
  intros H. inv_bind H. injection H as <-.
  apply mapM_app_inv in E. destruct E as (c1 & c2 & E1 & E2 & ->).
  rewrite E1, E2. cbn [bind]. do 2 eexists.
  split; [reflexivity|]. split; [reflexivity|].
  apply mapM_Ok_length in E1, E2.
  unfold where_, DecisionStump.left_mask_of.
  rewrite !map_app, !length_map. auto.
Qed.

Lemma add_to_rows_app (c : nat) (u1 : list R) :
  forall (u2 : list R) (P1 P2 P' : list (list R)),
    length u1 = length P1 ->
    add_to_rows c (u1 ++ u2) (P1 ++ P2) = Ok P' ->
    exists P1' P2',
      add_to_rows c u1 P1 = Ok P1' /\ add_to_rows c u2 P2 = Ok P2' /\
      P' = P1' ++ P2'.
Proof.
  induction u1 as [| u u1 IH]; intros u2 [| row P1] P2 P' L H;
    try discriminate L; cbn [app] in *.
  - exists [], P'. auto.
  - cbn [add_to_rows] in *. destruct (nth_error row c); [|discriminate H].
    inv_bind H. injection H as <-.
    destruct (IH u2 P1 P2 a) as (P1' & P2' & -> & E2 & ->); [now injection L | assumption |].
    cbn [bind]. do 2 eexists. split; [reflexivity|]. split; [exact E2|].
    reflexivity.
Qed.

Lemma add_round_app (self : SimpleGradientBoosting.t) (d k : nat)
    (rows1 rows2 : list (list R)) (round_estimators : list DecisionStump.t) :
  forall (c : nat) (P1 P2 P' : list (list R)),
    length P1 = length rows1 ->
    add_round self (mk_ndarray d (rows1 ++ rows2)) k c round_estimators
      (P1 ++ P2) = Ok P' ->
    exists P1' P2',
      add_round self (mk_ndarray d rows1) k c round_estimators P1 = Ok P1' /\
      add_round self (mk_ndarray d rows2) k c round_estimators P2 = Ok P2' /\
      P' = P1' ++ P2' /\ length P1' = length rows1.
Proof.
  induction round_estimators as [| s ss IH]; intros c P1 P2 P' L H;
    cbn [add_round] in *.
  - injection H as <-. exists P1, P2. auto.
  - do 2 inv_bind H.
    apply stump_predict_app in E.
    destruct E as (u1 & u2 & -> & -> & -> & Lu1 & Lu2). cbn [bind].
    unfold add_to_column in *. destruct (c <? k)%nat; [|discriminate E0].
    rewrite map_app in E0.
    apply add_to_rows_app in E0; [|rewrite length_map; congruence].
    destruct E0 as (Q1 & Q2 & EQ1 & EQ2 & ->). rewrite EQ1, EQ2. cbn [bind].
    apply IH in H; [exact H|].
    apply add_to_rows_length in EQ1. congruence.
Qed.

Lemma add_rounds_app (self : SimpleGradientBoosting.t) (d k : nat)
    (rows1 rows2 : list (list R)) (ests : list (list DecisionStump.t)) :
  forall (P1 P2 P' : list (list R)),
    length P1 = length rows1 ->
    add_rounds self (mk_ndarray d (rows1 ++ rows2)) k ests (P1 ++ P2) = Ok P' ->
    exists P1' P2',
      add_rounds self (mk_ndarray d rows1) k ests P1 = Ok P1' /\
      add_rounds self (mk_ndarray d rows2) k ests P2 = Ok P2' /\
      P' = P1' ++ P2'.
Proof.
  induction ests as [| r rs IH]; intros P1 P2 P' L H; cbn [add_rounds] in *.
  - injection H as <-. exists P1, P2. auto.
  - inv_bind H. apply add_round_app in E; [|assumption].
    destruct E as (Q1 & Q2 & -> & -> & -> & LQ). cbn [bind].
    apply IH in H; assumption.
Qed.

(** X25: the rows of a batch are scored independently: when
    [predict_proba] returns a matrix of numbers on a batch, it returns
    one on each part of the batch, and its result is the results on the
    parts, one after the other; the same holds for [predict].  The
    probabilities of a case do not depend on the cases it is submitted
    with. *)
Theorem predict_proba_row_wise (self : SimpleGradientBoosting.t) (d : nat)
    (rows1 rows2 : list (list R)) (proba : scores) :
  predict_proba self (mk_ndarray d (rows1 ++ rows2)) = Ok (Finite proba) ->
  exists p1 p2 l1 l2,
    predict_proba self (mk_ndarray d rows1) = Ok (Finite p1) /\
    predict_proba self (mk_ndarray d rows2) = Ok (Finite p2) /\
    proba = p1 ++ p2 /\
    length p1 = length rows1 /\
    predict self (mk_ndarray d rows1) = Ok l1 /\
    predict self (mk_ndarray d rows2) = Ok l2 /\
    predict self (mk_ndarray d (rows1 ++ rows2)) = Ok (l1 ++ l2).
Proof.
  intros H.
  assert (Hp : forall X p, predict_proba self X = Ok (Finite p) ->
               exists l, predict self X = Ok l /\
                         Forall2 (fun row k => argmax row = Ok k) p l /\
                         Forall (fun row => row <> []) p).
  { intros X p Ep. unfold predict. rewrite Ep. cbn [bind].
    apply predict_proba_Ok_inv in Ep.
    destruct Ep as [(initial & raw & p' & _ & _ & Ep & Eq)
                   | (k & _ & Eq & _)]; [|discriminate Eq].
    injection Eq as <-. unfold _softmax in Ep.
    assert (Hne : Forall (fun row : list R => row <> []) p).
    { apply mapM_Ok_Forall2 in Ep. clear - Ep.
      induction Ep as [| r q ? ? Hq _ IH]; constructor; [|assumption].
      unfold softmax_row in Hq. destruct r as [| v vs]; [discriminate Hq|].
      cbn [row_max bind] in Hq. injection Hq as <-. discriminate. }
    clear - Hne. induction Hne as [| row p Hrow _ IH]; cbn [mapM].
    - exists []. repeat split; constructor.
    - destruct (argmax_first row Hrow) as (k & Ek & _). rewrite Ek.
      destruct IH as (l & -> & F2 & Fne). cbn [bind].
      exists (k :: l). repeat split; constructor; auto. }
  pose proof H as H0.
  apply predict_proba_Ok_inv in H.
  destruct H as [(initial & raw & p' & Ei & E & H & Eq)
                | (k & _ & Eq & _)]; [|discriminate Eq].
  injection Eq as <-.
  unfold n_rows in E. cbn [rows] in E.
  rewrite length_app, repeat_app in E.
  apply add_rounds_app in E; [|apply repeat_length].
  destruct E as (Q1 & Q2 & E1 & E2 & ->).
  unfold _softmax in H. apply mapM_app_inv in H.
  destruct H as (p1 & p2 & S1 & S2 & ->).
  assert (P1 : predict_proba self (mk_ndarray d rows1) = Ok (Finite p1)).
  { unfold predict_proba, raw_scores. rewrite Ei. unfold n_rows. cbn [rows].
    rewrite E1. cbn [bind]. unfold _softmax. rewrite S1. reflexivity. }
  assert (P2 : predict_proba self (mk_ndarray d rows2) = Ok (Finite p2)).
  { unfold predict_proba, raw_scores. rewrite Ei. unfold n_rows. cbn [rows].
    rewrite E2. cbn [bind]. unfold _softmax. rewrite S2. reflexivity. }
  assert (P12 : predict_proba self (mk_ndarray d (rows1 ++ rows2))
                = Ok (Finite (p1 ++ p2))) by exact H0.
  destruct (Hp _ _ P1) as (l1 & L1 & F1 & _).
  destruct (Hp _ _ P2) as (l2 & L2 & F2 & _).
  exists p1, p2, l1, l2.
  split; [exact P1|]. split; [exact P2|]. split; [reflexivity|].
  split; [|split; [exact L1|split; [exact L2|]]].
  - apply mapM_Ok_length in S1. rewrite S1.
    apply add_rounds_length in E1. rewrite E1. apply repeat_length.
  - unfold predict. rewrite P12. cbn [bind]. clear - F1 F2.
    induction F1 as [| row k p1 l1 Hk _ IH]; cbn [app mapM].
    + induction F2 as [| row k p2 l2 Hk _ IH]; cbn [mapM]; [reflexivity|].
      rewrite Hk, IH. reflexivity.
    + rewrite Hk, IH. reflexivity.
Qed.

Lemma predict_proba_row_wise_witness :
  exists proba p1 p2 l1 l2,
    predict_proba
      (mk 1 (1 / 10) 2
          [[DecisionStump.mk 0 1 (-1) 1; DecisionStump.mk 0 1 1 (-1)]]
          (Some (Priors [1; 3])))
      (mk_ndarray 1 ([[0]; [1]] ++ [[2]])) = Ok (Finite proba) /\
    predict_proba
      (mk 1 (1 / 10) 2
          [[DecisionStump.mk 0 1 (-1) 1; DecisionStump.mk 0 1 1 (-1)]]
          (Some (Priors [1; 3])))
      (mk_ndarray 1 [[0]; [1]]) = Ok (Finite p1) /\
    predict_proba
      (mk 1 (1 / 10) 2
          [[DecisionStump.mk 0 1 (-1) 1; DecisionStump.mk 0 1 1 (-1)]]
          (Some (Priors [1; 3])))
      (mk_ndarray 1 [[2]]) = Ok (Finite p2) /\
    proba = p1 ++ p2 /\
    predict
      (mk 1 (1 / 10) 2
          [[DecisionStump.mk 0 1 (-1) 1; DecisionStump.mk 0 1 1 (-1)]]
          (Some (Priors [1; 3])))
      (mk_ndarray 1 ([[0]; [1]] ++ [[2]])) = Ok (l1 ++ l2).
Proof.
  destruct (predict_proba_total
              (mk 1 (1 / 10) 2
                  [[DecisionStump.mk 0 1 (-1) 1; DecisionStump.mk 0 1 1 (-1)]]
                  (Some (Priors [1; 3])))
              (mk_ndarray 1 ([[0]; [1]] ++ [[2]]))) as (proba & Ep & _).
  - repeat constructor.
  - split; [exists (Priors [1; 3]); split; reflexivity |].
    repeat constructor.
  - cbn. lia.
  - eexists; reflexivity.
  - destruct (predict_proba_row_wise _ _ _ _ _ Ep)
      as (p1 & p2 & l1 & l2 & E1 & E2 & Eq & _ & _ & _ & E12).
    exists proba, p1, p2, l1, l2. auto.
Defined.

End RowWise.

(** ** NaN is a value, never the outcome of a call *)

Section NaNStaysInside.

Import Np.
Local Open Scope R_scope.

Lemma bind_not_nan {A B : Type} (c : result A) (k : A -> result B) :
  c <> Fail NotANumber ->
  (forall a, c = Ok a -> k a <> Fail NotANumber) ->
  bind c k <> Fail NotANumber.
Proof.
  intros Hc Hk. destruct c as [a | f]; cbn [bind]; [now apply Hk|].
  intros E. apply Hc. congruence.
Qed.

Lemma mapM_not_nan {A B : Type} (f : A -> result B) (l : list A) :
  (forall a, In a l -> f a <> Fail NotANumber) ->
  mapM f l <> Fail NotANumber.
Proof.
  induction l as [| a l IH]; intros H; cbn [mapM]; [discriminate|].
  apply bind_not_nan; [apply H; now left|]. intros b _.
  apply bind_not_nan; [apply IH; intros; apply H; now right|].
  discriminate.
Qed.

Lemma column_of_not_nan (d j : nat) (x : list (list R)) :
  column_of d j x <> Fail NotANumber.
Proof.
  unfold column_of. destruct (j <? d)%nat; [|discriminate].
  apply mapM_not_nan. intros row _. destruct (nth_error row j); discriminate.
Qed.

Lemma select_not_nan (mask : list bool) :
  forall a, select mask a <> Fail NotANumber.
Proof.
  induction mask as [| b mask IH]; intros [| v a]; cbn [select];
    try discriminate.
  apply bind_not_nan; [apply IH | discriminate].
Qed.

Lemma select_Ok_count (mask : list bool) :
  forall a r, select mask a = Ok r -> length r = count mask.
Proof.
  unfold count.
  induction mask as [| b mask IH]; intros [| v a] r H; cbn [select] in H;
    try discriminate H.
  - now injection H as <-.
  - inv_bind H. injection H as <-. apply IH in E.
    destruct b; cbn [filter length]; congruence.
Qed.

Lemma evaluate_not_nan (feature_values residuals : list R) (thresh : R) :
  DecisionStump.evaluate feature_values residuals thresh <> Fail NotANumber.
Proof.
  unfold DecisionStump.evaluate.
  destruct (DecisionStump.too_small feature_values thresh) eqn:T;
    [discriminate|].
  unfold DecisionStump.too_small in T. cbv zeta in T.
  apply orb_false_elim in T. destruct T as [T1 T2].
  apply Nat.ltb_ge in T1, T2.
  apply bind_not_nan; [apply select_not_nan|]. intros rl El.
  apply select_Ok_count in El.
  apply bind_not_nan.
  { destruct rl; [cbn in El; lia | discriminate]. }
  intros left_mean _.
  apply bind_not_nan; [apply select_not_nan|]. intros rr Er.
  apply select_Ok_count in Er.
  apply bind_not_nan; [|discriminate].
  destruct rr; [cbn in Er; lia | discriminate].
Qed.

Lemma stump_fit_not_nan (self : DecisionStump.t) (X : ndarray)
    (residuals : list R) :
  DecisionStump.fit self X residuals <> Fail NotANumber.
Proof.
  unfold DecisionStump.fit. apply bind_not_nan; [|discriminate].
  generalize (seq 0 (n_cols X)) as feats.
  generalize (@None R, self) as st.
  intros st feats. revert st.
  induction feats as [| feat_idx feats IH]; intros st;
    cbn [DecisionStump.fit_features]; [discriminate|].
  apply bind_not_nan; [apply column_of_not_nan|]. intros feature_values _.
  apply bind_not_nan; [|intros; apply IH].
  generalize (unique feature_values) as thresholds. clear.
  intros thresholds. revert st.
  induction thresholds as [| thresh rest IH]; intros st;
    cbn [DecisionStump.fit_thresholds]; [discriminate|].
  apply bind_not_nan; [|intros; apply IH].
  unfold DecisionStump.try_threshold.
  apply bind_not_nan; [apply evaluate_not_nan|].
  intros [[[left_mean right_mean] gain] |] _; [|discriminate].
  destruct (DecisionStump.improves gain (fst st)); discriminate.
Qed.

Lemma stump_predict_not_nan (self : DecisionStump.t) (X : ndarray) :
  DecisionStump.predict self X <> Fail NotANumber.
Proof.
  unfold DecisionStump.predict.
  apply bind_not_nan; [apply column_of_not_nan | discriminate].
Qed.

Lemma _softmax_not_nan (x : SimpleGradientBoosting.scores) :
  SimpleGradientBoosting._softmax x <> Fail NotANumber.
Proof.
  apply mapM_not_nan. intros row _.
  unfold SimpleGradientBoosting.softmax_row. destruct row; discriminate.
Qed.

Lemma add_to_column_not_nan (k c : nat) (update : list R) :
  forall predictions,
    SimpleGradientBoosting.add_to_column k c update predictions
    <> Fail NotANumber.
Proof.
  unfold SimpleGradientBoosting.add_to_column.
  destruct (c <? k)%nat; [|discriminate].
  induction update as [| u update IH]; intros [| row P];
    cbn [SimpleGradientBoosting.add_to_rows]; try discriminate.
  destruct (nth_error row c); [|discriminate].
  apply bind_not_nan; [apply IH | discriminate].
Qed.

Lemma add_rounds_not_nan (self : SimpleGradientBoosting.t) (X : ndarray)
    (k : nat) (ests : list (list DecisionStump.t)) :
  forall predictions,
    SimpleGradientBoosting.add_rounds self X k ests predictions
    <> Fail NotANumber.
Proof.
  induction ests as [| r rs IH]; intros P;
    cbn [SimpleGradientBoosting.add_rounds]; [discriminate|].
  apply bind_not_nan; [|intros; apply IH].
  generalize 0%nat as c. revert P.
  induction r as [| s ss IHs]; intros P c;
    cbn [SimpleGradientBoosting.add_round]; [discriminate|].
  apply bind_not_nan; [apply stump_predict_not_nan|]. intros update _.
  apply bind_not_nan; [apply add_to_column_not_nan | intros; apply IHs].
Qed.

Lemma predict_proba_not_nan (self : SimpleGradientBoosting.t) (X : ndarray) :
  SimpleGradientBoosting.predict_proba self X <> Fail NotANumber.
Proof.
  unfold SimpleGradientBoosting.predict_proba,
    SimpleGradientBoosting.raw_scores.
  apply bind_not_nan.
  - destruct (SimpleGradientBoosting.initial_predictions self)
      as [[initial | k] |]; [| |discriminate];
      (apply bind_not_nan; [apply add_rounds_not_nan | discriminate]).
  - intros [x | n k] _.
    + apply bind_not_nan; [apply _softmax_not_nan | discriminate].
    + destruct ((0 <? n)%nat && (k =? 0)%nat); discriminate.
Qed.

Lemma ensemble_predict_not_nan (self : SimpleGradientBoosting.t)
    (X : ndarray) :
  SimpleGradientBoosting.predict self X <> Fail NotANumber.
Proof.
  unfold SimpleGradientBoosting.predict.
  apply bind_not_nan; [apply predict_proba_not_nan|].
  intros [x | n k] _.
  - apply mapM_not_nan. intros row _. destruct row; discriminate.
  - destruct ((0 <? n)%nat && (k =? 0)%nat); discriminate.
Qed.

Lemma one_hot_not_nan (k : nat) (y : list Z) :
  forall n, SimpleGradientBoosting.one_hot n k y <> Fail NotANumber.
Proof.
  induction y as [| label y IH]; intros n;
    cbn [SimpleGradientBoosting.one_hot]; [discriminate|].
  destruct n as [| n].
  - destruct (SimpleGradientBoosting.valid_label k label);
      [discriminate | apply IH].
  - apply bind_not_nan; [apply IH | discriminate].
Qed.

Lemma column_means_not_nan (k : nat) (y_onehot : SimpleGradientBoosting.scores) :
  SimpleGradientBoosting.column_means k y_onehot <> Fail NotANumber.
Proof.
  unfold SimpleGradientBoosting.column_means.
  destruct y_onehot as [| row0 rest]; [discriminate|].
  apply bind_not_nan; [|discriminate].
  apply mapM_not_nan. intros c _.
  apply bind_not_nan; [apply column_of_not_nan|]. intros col Ec.
  unfold column_of in Ec. destruct (c <? k)%nat; [|discriminate Ec].
  apply mapM_Ok_length in Ec. destruct col; [discriminate Ec | discriminate].
Qed.

Lemma ensemble_fit_not_nan (self : SimpleGradientBoosting.t) (X : ndarray)
    (y : list Z) :
  SimpleGradientBoosting.fit self X y <> Fail NotANumber.
Proof.
  unfold SimpleGradientBoosting.fit, SimpleGradientBoosting.fit_scores.
  cbv zeta.
  apply bind_not_nan; [|discriminate].
  apply bind_not_nan; [apply one_hot_not_nan|]. intros y_onehot _.
  apply bind_not_nan; [apply column_means_not_nan|]. intros initial _.
  apply bind_not_nan; [|intros [? ?] _; discriminate].
  generalize (SimpleGradientBoosting.tile initial (n_rows X),
              SimpleGradientBoosting.estimators self) as st.
  induction (SimpleGradientBoosting.n_estimators self) as [| rounds IH];
    intros st; cbn [SimpleGradientBoosting.boost]; [discriminate|].
  apply bind_not_nan; [|intros [? ?] _; apply IH].
  unfold SimpleGradientBoosting.fit_round.
  generalize (fst st, @nil DecisionStump.t) as cst.
  induction (seq 0 (SimpleGradientBoosting.n_classes self)) as [| c cs IHc];
    intros cst; cbn [SimpleGradientBoosting.fit_classes]; [discriminate|].
  apply bind_not_nan; [|intros; apply IHc].
  unfold SimpleGradientBoosting.fit_class. destruct cst as [P ss].
  apply bind_not_nan.
  { unfold SimpleGradientBoosting.residuals_of.
    apply bind_not_nan; [apply column_of_not_nan|]. intros yc _.
    apply bind_not_nan; [apply _softmax_not_nan|]. intros proba _.
    apply bind_not_nan; [apply column_of_not_nan | discriminate]. }
  intros residuals _.
  apply bind_not_nan; [apply stump_fit_not_nan|]. intros stump _.
  apply bind_not_nan; [apply stump_predict_not_nan|]. intros update _.
  apply bind_not_nan; [apply add_to_column_not_nan | discriminate].
Qed.

Lemma take_not_nan {A : Type} (idx : list nat) (a : list A) :
  take idx a <> Fail NotANumber.
Proof.
  apply mapM_not_nan. intros i _. destruct (nth_error a i); discriminate.
Qed.

Lemma n_test_of_not_nan (n : nat) (test_split : Float64.t) :
  DisputeSmlModel.n_test_of n test_split <> Fail NotANumber.
Proof.
  unfold DisputeSmlModel.n_test_of. apply bind_not_nan.
  - unfold Float64.of_int.
    destruct (SpecFloat.binary_normalize _ _ _ _ _); discriminate.
  - intros len _. unfold Float64.to_int.
    destruct (Float64.mul len test_split) as [s | s | | s m e];
      try discriminate.
Qed.

(** The NaN that [mean] reports is turned into a value by its callers or
    excluded by the guard of the split search: no call of the program
    ends with it. *)
Lemma nan_stays_inside :
  (forall self X residuals,
     DecisionStump.fit self X residuals <> Fail NotANumber) /\
  (forall self X y, SimpleGradientBoosting.fit self X y <> Fail NotANumber) /\
  (forall self X,
     SimpleGradientBoosting.predict_proba self X <> Fail NotANumber) /\
  (forall self X, SimpleGradientBoosting.predict self X <> Fail NotANumber) /\
  (forall self d training_data test_split permutation,
     DisputeSmlModel.train self d training_data test_split permutation
     <> Fail NotANumber) /\
  (forall self d case_data,
     DisputeSmlModel.predict self d case_data <> Fail NotANumber).
Proof.
  split; [exact stump_fit_not_nan|]. split; [exact ensemble_fit_not_nan|].
  split; [exact predict_proba_not_nan|].
  split; [exact ensemble_predict_not_nan|]. split.
  - intros self d training_data test_split permutation.
    unfold DisputeSmlModel.train.
    destruct (length training_data <? 10)%nat; [discriminate|].
    destruct (length _ <? 10)%nat; [discriminate|].
    apply bind_not_nan; [apply n_test_of_not_nan|]. intros n_test _.
    unfold DisputeSmlModel.split_indices.
    repeat (apply bind_not_nan; [apply take_not_nan|]; intros ? _).
    apply bind_not_nan; [apply ensemble_fit_not_nan|]. intros fitted _.
    apply bind_not_nan; [apply ensemble_predict_not_nan | discriminate].
  - intros self d case_data. unfold DisputeSmlModel.predict. cbv zeta.
    destruct (DisputeSmlModel.model _) as [m |]; [|discriminate].
    apply bind_not_nan; [apply predict_proba_not_nan|].
    intros [probas | n k] _; [|destruct n; discriminate].
    apply bind_not_nan.
    { unfold item. destruct (nth_error probas 0); discriminate. }
    intros proba _.
    apply bind_not_nan; [destruct proba; discriminate|].
    intros predicted_class _.
    apply bind_not_nan.
    { unfold item. destruct (nth_error proba predicted_class); discriminate. }
    intros p _.
    assert (J : forall i, JuryVerdict_of i <> Fail NotANumber).
    { intros i. do 6 (destruct i as [| i]; [discriminate|]). discriminate. }
    apply bind_not_nan; [apply J|]. intros verdict _.
    apply bind_not_nan; [|discriminate].
    apply mapM_not_nan. intros ip _.
    apply bind_not_nan; [apply J | discriminate].
Qed.

End NaNStaysInside.
